(** * Xen PCI pass-through: configuration-space virtualisation

    A shallow embedding of the register engine of
    [hw/xen/xen_pt_config_init.c] and of the capability walker of
    [hw/xen/xen-host-pci-device.c], with the properties of the design
    document stated over it.

    C integers are modelled as [Z]: a [uintN_t] object always holds a value
    reduced by [cast N]; the bit operators are those of [Z] ([Z.lnot] is the
    complement of the unbounded two's-complement number, so it is reduced
    again wherever C stores the result in an unsigned object). *)

From Stdlib Require Import ZArith List Bool Lia String.
From Stdlib.Strings Require Import Byte.
Import ListNotations.
Local Open Scope Z_scope.

(** * Part I: the model *)

(** ** C integer types *)

Module CInt.

Definition cast (w x : Z) : Z := Z.land x (Z.ones w).

Definition uint8 : Z -> Z := cast 8.
Definition uint16 : Z -> Z := cast 16.
Definition uint32 : Z -> Z := cast 32.

(** [~x] on a [uint32_t] operand. *)
Definition not32 (x : Z) : Z := uint32 (Z.lnot x).

(** C truth value of an integer expression. *)
Definition truthy (x : Z) : bool := negb (x =? 0).

End CInt.
Import CInt.

(** ** Bytes of a configuration space *)

Module Bytes.

Definition to_Z (b : byte) : Z := Z.of_N (Byte.to_N b).

Definition of_Z (x : Z) : byte :=
  match Byte.of_N (Z.to_N (uint8 x)) with
  | Some b => b
  | None => Byte.x00
  end.

End Bytes.

(** ** Register offsets, flag bits and capability ids

    Modelled from the spec: the PCI register layout that the two source
    files take from headers outside [src/] ([pci_regs.h], [pci.h],
    [xen_pt.h], [xen-host-pci-device.h]).  The spec names the fixed
    Capabilities-Pointer offset, the fixed extended-capability base offset
    (0x100), the 4 KiB extended space, the extended header layout (id in the
    low 16 bits, version in the low 4 bits of the next-pointer field) and the
    distinguishing tag of extended ids; the numeric values are those of the
    PCI specification. *)

Module PciRegs.

Definition PCI_VENDOR_ID := 0x00.
Definition PCI_DEVICE_ID := 0x02.
Definition PCI_COMMAND := 0x04.
Definition PCI_STATUS := 0x06.
Definition PCI_STATUS_CAP_LIST := 0x10.
Definition PCI_CAPABILITY_LIST := 0x34.
Definition PCI_CAP_LIST_ID := 0.
Definition PCI_CAP_LIST_NEXT := 1.
Definition PCI_CONFIG_SPACE_SIZE := 0x100.
Definition PCIE_CONFIG_SPACE_SIZE := 0x1000.

Definition PCI_CAP_ID_PM := 0x01.
Definition PCI_CAP_ID_AGP := 0x02.
Definition PCI_CAP_ID_VPD := 0x03.
Definition PCI_CAP_ID_SLOTID := 0x04.
Definition PCI_CAP_ID_MSI := 0x05.
Definition PCI_CAP_ID_PCIX := 0x07.
Definition PCI_CAP_ID_VNDR := 0x09.
Definition PCI_CAP_ID_SHPC := 0x0C.
Definition PCI_CAP_ID_SSVID := 0x0D.
Definition PCI_CAP_ID_AGP3 := 0x0E.
Definition PCI_CAP_ID_EXP := 0x10.
Definition PCI_CAP_ID_MSIX := 0x11.
Definition PCI_PM_SIZEOF := 8.
Definition XEN_PCI_INTEL_OPREGION := 0xfc.

Definition PCI_VENDOR_ID_INTEL := 0x8086.
Definition PCI_DEVICE_ID_INTEL_82599_SFP_VF := 0x10ed.

Definition PCI_MSI_FLAGS := 2.
Definition PCI_MSI_FLAGS_ENABLE := 0x0001.
Definition PCI_MSI_FLAGS_QSIZE := 0x0070.
Definition PCI_MSI_FLAGS_64BIT := 0x0080.
Definition PCI_MSI_FLAGS_MASKBIT := 0x0100.
Definition PCI_MSI_ADDRESS_LO := 4.
Definition PCI_MSI_ADDRESS_HI := 8.

(** Extended capabilities. *)
Definition PCI_EXT_CAP_ID (header : Z) : Z := Z.land header 0x0000ffff.
Definition PCI_EXT_CAP_NEXT (header : Z) : Z :=
  Z.land (Z.shiftr header 20) 0xffc.

Definition PCI_EXT_CAP_ID_ERR := 0x01.
Definition PCI_EXT_CAP_ID_VC := 0x02.
Definition PCI_EXT_CAP_ID_DSN := 0x03.
Definition PCI_EXT_CAP_ID_PWR := 0x04.
Definition PCI_EXT_CAP_ID_RCLD := 0x05.
Definition PCI_EXT_CAP_ID_RCILC := 0x06.
Definition PCI_EXT_CAP_ID_RCEC := 0x07.
Definition PCI_EXT_CAP_ID_MFVC := 0x08.
Definition PCI_EXT_CAP_ID_VC9 := 0x09.
Definition PCI_EXT_CAP_ID_RCRB := 0x0A.
Definition PCI_EXT_CAP_ID_VNDR := 0x0B.
Definition PCI_EXT_CAP_ID_CAC := 0x0C.
Definition PCI_EXT_CAP_ID_ACS := 0x0D.
Definition PCI_EXT_CAP_ID_ARI := 0x0E.
Definition PCI_EXT_CAP_ID_ATS := 0x0F.
Definition PCI_EXT_CAP_ID_SRIOV := 0x10.
Definition PCI_EXT_CAP_ID_MCAST := 0x12.
Definition PCI_EXT_CAP_ID_PRI := 0x13.
Definition PCI_EXT_CAP_ID_REBAR := 0x15.
Definition PCI_EXT_CAP_ID_DPA := 0x16.
Definition PCI_EXT_CAP_ID_TPH := 0x17.
Definition PCI_EXT_CAP_ID_LTR := 0x18.
Definition PCI_EXT_CAP_ID_SECPCI := 0x19.
Definition PCI_EXT_CAP_ID_PMUX := 0x1A.
Definition PCI_EXT_CAP_ID_PASID := 0x1B.
Definition PCI_EXT_CAP_ID_DPC := 0x1D.
Definition PCI_EXT_CAP_ID_L1SS := 0x1E.
Definition PCI_EXT_CAP_ID_PTM := 0x1F.

Definition PCI_EXT_CAP_DSN_SIZEOF := 12.
Definition PCI_EXT_CAP_PWR_SIZEOF := 16.
Definition PCI_EXT_CAP_ARI_SIZEOF := 8.
Definition PCI_EXT_CAP_ATS_SIZEOF := 8.
Definition PCI_EXT_CAP_SRIOV_SIZEOF := 64.
Definition PCI_EXT_CAP_PRI_SIZEOF := 16.
Definition PCI_EXT_CAP_LTR_SIZEOF := 8.
Definition PCI_EXT_CAP_PASID_SIZEOF := 8.

(** The tag that tells an extended id from a legacy one in a group id. *)
Definition PCIE_EXT_CAP_ID (cap_id : Z) : Z := Z.lor cap_id (Z.shiftl 1 16).
Definition IS_PCIE_EXT_CAP_ID (grp_id : Z) : bool :=
  truthy (Z.land grp_id (Z.shiftl 1 16)).
Definition GET_PCIE_EXT_CAP_ID (grp_id : Z) : Z := Z.land grp_id 0xFFFF.

Definition XEN_PCIE_CAP_ID := 0.
Definition XEN_PCIE_CAP_LIST_NEXT := 2.

(** Sizing fields of the variable-length extended capabilities. *)
Definition PCI_DPA_CAP := 4.
Definition PCI_DPA_CAP_SUBSTATE_MASK := 0x1F.
Definition PCI_DPA_BASE_SIZEOF := 16.

Definition PCI_TPH_CAP := 4.
Definition PCI_TPH_CAP_LOC_MASK := 0x600.
Definition PCI_TPH_LOC_NONE := 0x000.
Definition PCI_TPH_LOC_CAP := 0x200.
Definition PCI_TPH_LOC_MSIX := 0x400.
Definition PCI_TPH_CAP_ST_MASK := 0x07FF0000.
Definition PCI_TPH_CAP_ST_SHIFT := 16.
Definition PCI_TPH_BASE_SIZEOF := 0xc.

Definition PCI_EXP_DPC_CAP := 0x04.
Definition PCI_EXP_DPC_CAP_RP_EXT := 0x0020.
Definition PCI_EXP_DPC_RP_PIO_LOG_SIZE := 0x0F00.

Definition PCI_VC_PORT_CAP1 := 0x04.
Definition PCI_VC_CAP1_EVCC := 0x00000007.
Definition PCI_VC_CAP1_ARB_SIZE := 0x00000c00.
Definition PCI_VC_PORT_CAP2 := 0x08.
Definition PCI_VC_RES_CAP := 0x10.
Definition PCI_CAP_VC_BASE_SIZEOF := 0x10.
Definition PCI_CAP_VC_PER_VC_SIZEOF := 0x0C.

End PciRegs.
Import PciRegs.

(** ** The host device: [xen-host-pci-device.c] *)

Module HostPci.

(** [config d pos] is the byte that [pread] on the device's sysfs [config]
    file yields at [pos]; [None] where the read fails (beyond the end of the
    file, or an I/O error). *)
Record XenHostPCIDevice := {
  vendor_id : Z;
  device_id : Z;
  has_pcie_ext_caps : bool;
  pcie_flags : Z;
  config : Z -> option byte
}.

(** The value [-errno] of a failed read; every non-zero code behaves alike. *)
Definition EIO := 5.
Definition host_rc {A} (r : option A) : Z :=
  match r with Some _ => 0 | None => - EIO end.

(** The three readers return [Some v] when the C function returns 0 and
    stores [v], and [None] when it returns a non-zero code (and stores
    nothing).  Words and longs are little-endian on the wire. *)
Definition xen_host_pci_get_byte (d : XenHostPCIDevice) (pos : Z) : option Z :=
  match config d pos with
  | Some b => Some (Bytes.to_Z b)
  | None => None
  end.

Definition xen_host_pci_get_word (d : XenHostPCIDevice) (pos : Z) : option Z :=
  match config d pos, config d (pos + 1) with
  | Some b0, Some b1 =>
      Some (Z.lor (Bytes.to_Z b0) (Z.shiftl (Bytes.to_Z b1) 8))
  | _, _ => None
  end.

Definition xen_host_pci_get_long (d : XenHostPCIDevice) (pos : Z) : option Z :=
  match config d pos, config d (pos + 1), config d (pos + 2), config d (pos + 3) with
  | Some b0, Some b1, Some b2, Some b3 =>
      Some (Z.lor (Z.lor (Bytes.to_Z b0) (Z.shiftl (Bytes.to_Z b1) 8))
                  (Z.lor (Z.shiftl (Bytes.to_Z b2) 16) (Z.shiftl (Bytes.to_Z b3) 24)))
  | _, _, _, _ => None
  end.

(** [xen_host_pci_set_word]: the word goes out little-endian in one [pwrite]
    of two bytes.  The device is taken to be a store: where both cells can be
    accessed the write returns 0 and a later read yields the two bytes; where
    one cannot, it returns [-errno] and the device is as before. *)
Definition set_config (d : XenHostPCIDevice) (c : Z -> option byte) :=
  {| vendor_id := vendor_id d; device_id := device_id d;
     has_pcie_ext_caps := has_pcie_ext_caps d; pcie_flags := pcie_flags d;
     config := c |}.

Definition xen_host_pci_set_word (d : XenHostPCIDevice) (pos data : Z)
  : Z * XenHostPCIDevice :=
  match config d pos, config d (pos + 1) with
  | Some _, Some _ =>
      (0, set_config d (fun x =>
                          if x =? pos then Some (Bytes.of_Z data)
                          else if x =? pos + 1 then Some (Bytes.of_Z (Z.shiftr data 8))
                          else config d x))
  | _, _ => (- EIO, d)
  end.

Definition XEN_HOST_PCI_CAP_MAX : nat := 48.

Section FindNextCap.

(** The wildcard id of [xen-host-pci-device.h]; its value is not fixed by the
    two source files, so the walker is stated for any value. *)
Variable CAP_ID_ANY : Z.

(** The loop [while (max_cap--) { ... }] of [xen_host_pci_find_next_cap].
    The result pairs the value the function returns once the loop is left
    with the number of iterations that were entered, each of which starts by
    reading one next pointer. *)
Fixpoint cap_walk (d : XenHostPCIDevice) (cap : Z) (max_cap : nat) (curpos : Z)
  : Z * nat :=
  match max_cap with
  | O => (0, O)
  | S max_cap' =>
      match xen_host_pci_get_byte d curpos with
      | None => (0, 1%nat)
      | Some curpos =>
          if curpos =? 0 then (0, 1%nat)
          else if cap =? CAP_ID_ANY then (curpos, 1%nat)
          else
            match xen_host_pci_get_byte d (curpos + PCI_CAP_LIST_ID) with
            | None => (0, 1%nat)
            | Some id =>
                if id =? 0xff then (0, 1%nat)
                else if id =? cap then (curpos, 1%nat)
                else
                  let (r, hops) :=
                    cap_walk d cap max_cap' (uint8 (curpos + PCI_CAP_LIST_NEXT)) in
                  (r, S hops)
            end
      end
  end.

(** Where the walk starts: [curpos] before the loop. *)
Definition cap_walk_start (pos : Z) : Z :=
  if pos <? PCI_CAPABILITY_LIST then PCI_CAPABILITY_LIST else uint8 pos.

(** [xen_host_pci_find_next_cap] with the hop bound as an argument. *)
Definition find_next_cap_bounded (max_cap : nat) (d : XenHostPCIDevice)
  (pos cap : Z) : Z * nat :=
  match xen_host_pci_get_byte d PCI_STATUS with
  | None => (0, O)
  | Some status =>
      if Z.land status PCI_STATUS_CAP_LIST =? 0 then (0, O)
      else cap_walk d cap max_cap (cap_walk_start pos)
  end.

Definition xen_host_pci_find_next_cap (d : XenHostPCIDevice) (pos cap : Z) : Z :=
  fst (find_next_cap_bounded XEN_HOST_PCI_CAP_MAX d pos cap).

(** The number of next-pointer hops of one call. *)
Definition find_next_cap_hops (d : XenHostPCIDevice) (pos cap : Z) : nat :=
  snd (find_next_cap_bounded XEN_HOST_PCI_CAP_MAX d pos cap).

End FindNextCap.

(** *** Shapes of a host capability list *)

(** [cap_chain d p l]: read from the pointer cell [p], the list has the
    capabilities at the offsets [l], in order, and then a zero next pointer. *)
Fixpoint cap_chain (d : XenHostPCIDevice) (p : Z) (l : list Z) : Prop :=
  match l with
  | [] => xen_host_pci_get_byte d p = Some 0
  | c :: l' =>
      xen_host_pci_get_byte d p = Some c /\ c <> 0 /\
      cap_chain d (c + PCI_CAP_LIST_NEXT) l'
  end.

(** A capability of a well-formed list lies in the device-specific area of the
    256-byte space, on a 4-byte boundary. *)
Definition cap_slot (c : Z) : Prop := 0x40 <= c <= 0xFC /\ c mod 4 = 0.

Definition well_formed_cap_list (d : XenHostPCIDevice) (p : Z) (l : list Z) : Prop :=
  cap_chain d p l /\ NoDup l /\ Forall cap_slot l.

(** A search that no bound stops: from every pointer cell of [P] the walk for
    [cap] reads a non-zero next pointer and an id that is neither 0xff nor the
    one sought, and moves on to a pointer cell of [P] again.  A cyclic list
    that does not hold [cap] is the typical case. *)
Definition endless_walk (d : XenHostPCIDevice) (cap : Z) (P : Z -> Prop) : Prop :=
  forall p, P p ->
    exists c id,
      xen_host_pci_get_byte d p = Some c /\ c <> 0 /\
      xen_host_pci_get_byte d (c + PCI_CAP_LIST_ID) = Some id /\
      id <> 0xff /\ id <> cap /\
      P (uint8 (c + PCI_CAP_LIST_NEXT)).

End HostPci.
Import HostPci.

(** ** The register engine: [xen_pt_config_init.c] *)

Module XenPt.

Definition XEN_PT_MERGE_VALUE (value data val_mask : Z) : Z :=
  Z.lor (Z.land value val_mask) (Z.land data (Z.lnot val_mask)).

Definition XEN_PT_INVALID_REG := 0xFFFFFFFF.

(** *** The static catalogue *)

Inductive XenPTRegisterGroupType :=
| XEN_PT_GRP_TYPE_HARDWIRED
| XEN_PT_GRP_TYPE_EMU.

Definition grp_type_eqb (a b : XenPTRegisterGroupType) : bool :=
  match a, b with
  | XEN_PT_GRP_TYPE_HARDWIRED, XEN_PT_GRP_TYPE_HARDWIRED => true
  | XEN_PT_GRP_TYPE_EMU, XEN_PT_GRP_TYPE_EMU => true
  | _, _ => false
  end.

(** The register initialisers ([XenPTRegInfo.init]) that are embedded
    below, as a closed set of tags. *)
Inductive RegInit :=
| Init_common
| Init_vendor
| Init_device
| Init_status
| Init_ptr
| Init_msgctrl
| Init_msgaddr64
| Init_ext_cap_capid
| Init_ext_cap_ptr.

(** [XenPTRegInfo]; the read and write handlers of an entry are named in the
    comment of the entry and are called directly where a property needs
    them. *)
Record XenPTRegInfo := {
  offset : Z;
  size : Z;
  init_val : Z;
  res_mask : Z;
  ro_mask : Z;
  rw1c_mask : Z;
  emu_mask : Z;
  init : option RegInit
}.

(** The size resolvers ([XenPTRegGroupInfo.size_init]). *)
Inductive SizeInit :=
| Size_reg_grp
| Size_vendor
| Size_pcie
| Size_msi
| Size_msix
| Size_ext_cap_vendor
| Size_ext_cap_aer
| Size_ext_cap_rcld
| Size_ext_cap_acs
| Size_ext_cap_multicast
| Size_ext_cap_dpa
| Size_ext_cap_tph
| Size_ext_cap_pmux
| Size_ext_cap_dpc
| Size_ext_cap_rebar
| Size_ext_cap_vchan.

(** The register tables ([XenPTRegGroupInfo.emu_regs]). *)
Inductive EmuRegs :=
| Regs_header0
| Regs_pm
| Regs_vpd
| Regs_msi
| Regs_vendor
| Regs_pcie
| Regs_msix
| Regs_igd_opregion
| Regs_ext_cap_vendor
| Regs_ext_cap_dummy.

Record XenPTRegGroupInfo := {
  grp_id : Z;
  grp_type : XenPTRegisterGroupType;
  grp_size : Z;
  size_init : SizeInit;
  emu_regs : option EmuRegs
}.

Definition grp (id : Z) (t : XenPTRegisterGroupType) (sz : Z) (si : SizeInit)
  (regs : option EmuRegs) : XenPTRegGroupInfo :=
  {| grp_id := id; grp_type := t; grp_size := sz; size_init := si;
     emu_regs := regs |}.

Definition ext_dummy (id sz : Z) (si : SizeInit) : XenPTRegGroupInfo :=
  grp (PCIE_EXT_CAP_ID id) XEN_PT_GRP_TYPE_EMU sz si (Some Regs_ext_cap_dummy).

(** [xen_pt_emu_reg_grps], in table order, without the terminating entry of
    size 0. *)
Definition xen_pt_emu_reg_grps : list XenPTRegGroupInfo :=
  [ grp 0xFF XEN_PT_GRP_TYPE_EMU 0x40 Size_reg_grp (Some Regs_header0);
    grp PCI_CAP_ID_PM XEN_PT_GRP_TYPE_EMU PCI_PM_SIZEOF Size_reg_grp (Some Regs_pm);
    grp PCI_CAP_ID_AGP XEN_PT_GRP_TYPE_HARDWIRED 0x30 Size_reg_grp None;
    grp PCI_CAP_ID_VPD XEN_PT_GRP_TYPE_EMU 0x08 Size_reg_grp (Some Regs_vpd);
    grp PCI_CAP_ID_SLOTID XEN_PT_GRP_TYPE_HARDWIRED 0x04 Size_reg_grp None;
    grp PCI_CAP_ID_MSI XEN_PT_GRP_TYPE_EMU 0xFF Size_msi (Some Regs_msi);
    grp PCI_CAP_ID_PCIX XEN_PT_GRP_TYPE_HARDWIRED 0x18 Size_reg_grp None;
    grp PCI_CAP_ID_VNDR XEN_PT_GRP_TYPE_EMU 0xFF Size_vendor (Some Regs_vendor);
    grp PCI_CAP_ID_SHPC XEN_PT_GRP_TYPE_HARDWIRED 0x08 Size_reg_grp None;
    grp PCI_CAP_ID_SSVID XEN_PT_GRP_TYPE_HARDWIRED 0x08 Size_reg_grp None;
    grp PCI_CAP_ID_AGP3 XEN_PT_GRP_TYPE_HARDWIRED 0x30 Size_reg_grp None;
    grp PCI_CAP_ID_EXP XEN_PT_GRP_TYPE_EMU 0xFF Size_pcie (Some Regs_pcie);
    grp PCI_CAP_ID_MSIX XEN_PT_GRP_TYPE_EMU 0x0C Size_msix (Some Regs_msix);
    grp XEN_PCI_INTEL_OPREGION XEN_PT_GRP_TYPE_EMU 0x4 Size_reg_grp
        (Some Regs_igd_opregion);
    grp (PCIE_EXT_CAP_ID PCI_EXT_CAP_ID_VNDR) XEN_PT_GRP_TYPE_EMU 0xFF
        Size_ext_cap_vendor (Some Regs_ext_cap_vendor);
    ext_dummy PCI_EXT_CAP_ID_DSN PCI_EXT_CAP_DSN_SIZEOF Size_reg_grp;
    ext_dummy PCI_EXT_CAP_ID_PWR PCI_EXT_CAP_PWR_SIZEOF Size_reg_grp;
    ext_dummy PCI_EXT_CAP_ID_RCILC 0x0C Size_reg_grp;
    ext_dummy PCI_EXT_CAP_ID_RCEC 0x08 Size_reg_grp;
    ext_dummy PCI_EXT_CAP_ID_RCRB 0x14 Size_reg_grp;
    ext_dummy PCI_EXT_CAP_ID_CAC 0x08 Size_reg_grp;
    ext_dummy PCI_EXT_CAP_ID_ARI PCI_EXT_CAP_ARI_SIZEOF Size_reg_grp;
    ext_dummy PCI_EXT_CAP_ID_ATS PCI_EXT_CAP_ATS_SIZEOF Size_reg_grp;
    ext_dummy PCI_EXT_CAP_ID_SRIOV PCI_EXT_CAP_SRIOV_SIZEOF Size_reg_grp;
    ext_dummy PCI_EXT_CAP_ID_PRI PCI_EXT_CAP_PRI_SIZEOF Size_reg_grp;
    ext_dummy PCI_EXT_CAP_ID_LTR PCI_EXT_CAP_LTR_SIZEOF Size_reg_grp;
    ext_dummy PCI_EXT_CAP_ID_SECPCI 0x10 Size_reg_grp;
    ext_dummy PCI_EXT_CAP_ID_PASID PCI_EXT_CAP_PASID_SIZEOF Size_reg_grp;
    ext_dummy PCI_EXT_CAP_ID_L1SS 0x10 Size_reg_grp;
    ext_dummy PCI_EXT_CAP_ID_PTM 0x0C Size_reg_grp;
    ext_dummy 0x20 0x1C Size_reg_grp;
    ext_dummy 0x1C 0x08 Size_reg_grp;
    ext_dummy 0x21 0x10 Size_reg_grp;
    ext_dummy 0x22 0x0C Size_reg_grp;
    ext_dummy PCI_EXT_CAP_ID_ERR 0xFF Size_ext_cap_aer;
    ext_dummy PCI_EXT_CAP_ID_RCLD 0xFF Size_ext_cap_rcld;
    ext_dummy PCI_EXT_CAP_ID_ACS 0xFF Size_ext_cap_acs;
    ext_dummy PCI_EXT_CAP_ID_MCAST 0xFF Size_ext_cap_multicast;
    ext_dummy PCI_EXT_CAP_ID_DPA 0xFF Size_ext_cap_dpa;
    ext_dummy PCI_EXT_CAP_ID_TPH 0xFF Size_ext_cap_tph;
    ext_dummy PCI_EXT_CAP_ID_PMUX 0xFF Size_ext_cap_pmux;
    ext_dummy PCI_EXT_CAP_ID_DPC 0xFF Size_ext_cap_dpc;
    grp (PCIE_EXT_CAP_ID PCI_EXT_CAP_ID_REBAR) XEN_PT_GRP_TYPE_HARDWIRED 0xFF
        Size_ext_cap_rebar None;
    ext_dummy PCI_EXT_CAP_ID_VC 0xFF Size_ext_cap_vchan;
    ext_dummy PCI_EXT_CAP_ID_VC9 0xFF Size_ext_cap_vchan;
    ext_dummy PCI_EXT_CAP_ID_MFVC 0xFF Size_ext_cap_vchan ].

(** *** Runtime state *)

Record XenPTReg := {
  reg : XenPTRegInfo;
  ptr : Z  (* [ptr.byte - s->dev.config]: where the register lives in the image *)
}.

Record XenPTRegGroup := {
  reg_grp : XenPTRegGroupInfo;
  base_offset : Z;
  grp_sz : Z;  (* the field [size] of the C struct *)
  reg_tbl_list : list XenPTReg
}.

Record XenPTMSI := {
  flags : Z;
  initialized : bool;
  mapped : bool;
  addr_lo : Z;
  addr_hi : Z;
  msi_data : Z;  (* the field [data] of the C struct *)
  ctrl_offset : Z
}.

Inductive log_event :=
| LOG (msg : string)
| WARN (msg : string)
| ERR (msg : string)
| FATAL (msg : string).

(** [XenPCIPassthroughState], with the file-scope counter [fake_cap_id] and
    the messages written so far (latest first). *)
Record XenPCIPassthroughState := {
  real_device : XenHostPCIDevice;
  dev_config : Z -> byte;
  reg_grps : list XenPTRegGroup;
  msi : XenPTMSI;
  permissive : bool;
  fake_cap_id : Z;
  log : list log_event
}.

Definition set_real_device (s : XenPCIPassthroughState) (d : XenHostPCIDevice) :=
  {| real_device := d; dev_config := dev_config s; reg_grps := reg_grps s;
     msi := msi s; permissive := permissive s; fake_cap_id := fake_cap_id s;
     log := log s |}.

Definition set_dev_config (s : XenPCIPassthroughState) (c : Z -> byte) :=
  {| real_device := real_device s; dev_config := c; reg_grps := reg_grps s;
     msi := msi s; permissive := permissive s; fake_cap_id := fake_cap_id s;
     log := log s |}.

Definition set_reg_grps (s : XenPCIPassthroughState) (g : list XenPTRegGroup) :=
  {| real_device := real_device s; dev_config := dev_config s; reg_grps := g;
     msi := msi s; permissive := permissive s; fake_cap_id := fake_cap_id s;
     log := log s |}.

Definition set_msi (s : XenPCIPassthroughState) (m : XenPTMSI) :=
  {| real_device := real_device s; dev_config := dev_config s;
     reg_grps := reg_grps s; msi := m; permissive := permissive s;
     fake_cap_id := fake_cap_id s; log := log s |}.

Definition set_fake_cap_id (s : XenPCIPassthroughState) (f : Z) :=
  {| real_device := real_device s; dev_config := dev_config s;
     reg_grps := reg_grps s; msi := msi s; permissive := permissive s;
     fake_cap_id := f; log := log s |}.

Definition emit (e : log_event) (s : XenPCIPassthroughState) :=
  {| real_device := real_device s; dev_config := dev_config s;
     reg_grps := reg_grps s; msi := msi s; permissive := permissive s;
     fake_cap_id := fake_cap_id s; log := e :: log s |}.

Definition XEN_PT_LOG (msg : string) := emit (LOG msg).
Definition XEN_PT_WARN (msg : string) := emit (WARN msg).
Definition XEN_PT_ERR (msg : string) := emit (ERR msg).
Definition xen_shutdown_fatal_error (msg : string) := emit (FATAL msg).

(** *** The guest-visible image [s->dev.config] *)

Definition upd (c : Z -> byte) (a : Z) (b : byte) : Z -> byte :=
  fun x => if x =? a then b else c x.

Definition pci_get_byte (c : Z -> byte) (a : Z) : Z := Bytes.to_Z (c a).
Definition pci_get_word (c : Z -> byte) (a : Z) : Z :=
  Z.lor (pci_get_byte c a) (Z.shiftl (pci_get_byte c (a + 1)) 8).
Definition pci_get_long (c : Z -> byte) (a : Z) : Z :=
  Z.lor (pci_get_word c a) (Z.shiftl (pci_get_word c (a + 2)) 16).

Definition pci_set_byte (c : Z -> byte) (a v : Z) : Z -> byte :=
  upd c a (Bytes.of_Z v).
Definition pci_set_word (c : Z -> byte) (a v : Z) : Z -> byte :=
  pci_set_byte (pci_set_byte c a v) (a + 1) (Z.shiftr v 8).
Definition pci_set_long (c : Z -> byte) (a v : Z) : Z -> byte :=
  pci_set_word (pci_set_word c a v) (a + 2) (Z.shiftr v 16).

(** *** Helpers *)

(** A result [true] means the capability is not exposed to the guest. *)
Definition xen_pt_hide_dev_cap (d : XenHostPCIDevice) (grp_id : Z) : bool :=
  if IS_PCIE_EXT_CAP_ID grp_id then false
  else if grp_id =? PCI_CAP_ID_EXP then
    (vendor_id d =? PCI_VENDOR_ID_INTEL) &&
    (device_id d =? PCI_DEVICE_ID_INTEL_82599_SFP_VF)
  else false.

Definition xen_pt_find_reg_grp (s : XenPCIPassthroughState) (address : Z)
  : option XenPTRegGroup :=
  find (fun entry =>
          (base_offset entry <=? address) &&
          (address <? uint32 (base_offset entry + grp_sz entry)))
       (reg_grps s).

Definition xen_pt_find_reg (reg_grp : XenPTRegGroup) (address : Z)
  : option XenPTReg :=
  find (fun reg_entry =>
          let real_offset := uint32 (base_offset reg_grp + offset (reg reg_entry)) in
          (real_offset <=? address) &&
          (address <? uint32 (real_offset + size (reg reg_entry))))
       (reg_tbl_list reg_grp).

Definition get_throughable_mask (s : XenPCIPassthroughState) (reg : XenPTRegInfo)
  (valid_mask : Z) : Z :=
  let throughable_mask := not32 (Z.lor (emu_mask reg) (ro_mask reg)) in
  let throughable_mask :=
    if negb (permissive s) then Z.land throughable_mask (not32 (res_mask reg))
    else throughable_mask in
  Z.land throughable_mask valid_mask.

(** *** General register functions

    The register's cell [*data] is read and written through [ptr.byte],
    [ptr.half_word] or [ptr.word]: an access in host byte order, which is
    little-endian on the hosts of this device model.

    A reader takes the value just read from the device ([*value] on entry)
    and returns the status and the value presented to the guest ([*value] on
    exit).  A writer takes the guest's value ([*val] on entry) and the
    current device value and returns the status, the value to forward to the
    device ([*val] on exit) and the state, in which the register's cell of
    [dev.config] ([*data]) has been updated. *)

Definition xen_pt_common_reg_init (s : XenPCIPassthroughState)
  (reg : XenPTRegInfo) (real_offset : Z) : Z * Z :=
  (0, init_val reg).

Definition xen_pt_byte_reg_read (s : XenPCIPassthroughState) (cfg_entry : XenPTReg)
  (value valid_mask : Z) : Z * Z :=
  let reg := reg cfg_entry in
  let data := pci_get_byte (dev_config s) (ptr cfg_entry) in
  let valid_emu_mask := uint8 (Z.land (emu_mask reg) valid_mask) in
  (0, uint8 (XEN_PT_MERGE_VALUE value data (Z.lnot valid_emu_mask))).

Definition xen_pt_word_reg_read (s : XenPCIPassthroughState) (cfg_entry : XenPTReg)
  (value valid_mask : Z) : Z * Z :=
  let reg := reg cfg_entry in
  let data := pci_get_word (dev_config s) (ptr cfg_entry) in
  let valid_emu_mask := uint16 (Z.land (emu_mask reg) valid_mask) in
  (0, uint16 (XEN_PT_MERGE_VALUE value data (Z.lnot valid_emu_mask))).

Definition xen_pt_long_reg_read (s : XenPCIPassthroughState) (cfg_entry : XenPTReg)
  (value valid_mask : Z) : Z * Z :=
  let reg := reg cfg_entry in
  let data := pci_get_long (dev_config s) (ptr cfg_entry) in
  let valid_emu_mask := uint32 (Z.land (emu_mask reg) valid_mask) in
  (0, uint32 (XEN_PT_MERGE_VALUE value data (Z.lnot valid_emu_mask))).

Definition xen_pt_byte_reg_write (s : XenPCIPassthroughState) (cfg_entry : XenPTReg)
  (val dev_value valid_mask : Z) : Z * Z * XenPCIPassthroughState :=
  let reg := reg cfg_entry in
  let throughable_mask := uint8 (get_throughable_mask s reg valid_mask) in
  let data := pci_get_byte (dev_config s) (ptr cfg_entry) in
  (* modify emulate register *)
  let writable_mask :=
    uint8 (Z.land (Z.land (emu_mask reg) (not32 (ro_mask reg))) valid_mask) in
  let data := uint8 (XEN_PT_MERGE_VALUE val data writable_mask) in
  (* create value for writing to I/O device register *)
  let val :=
    uint8 (XEN_PT_MERGE_VALUE val (Z.land dev_value (not32 (rw1c_mask reg)))
                              throughable_mask) in
  (0, val, set_dev_config s (pci_set_byte (dev_config s) (ptr cfg_entry) data)).

Definition xen_pt_word_reg_write (s : XenPCIPassthroughState) (cfg_entry : XenPTReg)
  (val dev_value valid_mask : Z) : Z * Z * XenPCIPassthroughState :=
  let reg := reg cfg_entry in
  let throughable_mask := uint16 (get_throughable_mask s reg valid_mask) in
  let data := pci_get_word (dev_config s) (ptr cfg_entry) in
  (* modify emulate register *)
  let writable_mask :=
    uint16 (Z.land (Z.land (emu_mask reg) (not32 (ro_mask reg))) valid_mask) in
  let data := uint16 (XEN_PT_MERGE_VALUE val data writable_mask) in
  (* create value for writing to I/O device register *)
  let val :=
    uint16 (XEN_PT_MERGE_VALUE val (Z.land dev_value (not32 (rw1c_mask reg)))
                               throughable_mask) in
  (0, val, set_dev_config s (pci_set_word (dev_config s) (ptr cfg_entry) data)).

Definition xen_pt_long_reg_write (s : XenPCIPassthroughState) (cfg_entry : XenPTReg)
  (val dev_value valid_mask : Z) : Z * Z * XenPCIPassthroughState :=
  let reg := reg cfg_entry in
  let throughable_mask := uint32 (get_throughable_mask s reg valid_mask) in
  let data := pci_get_long (dev_config s) (ptr cfg_entry) in
  (* modify emulate register *)
  let writable_mask :=
    uint32 (Z.land (Z.land (emu_mask reg) (not32 (ro_mask reg))) valid_mask) in
  let data := uint32 (XEN_PT_MERGE_VALUE val data writable_mask) in
  (* create value for writing to I/O device register *)
  let val :=
    uint32 (XEN_PT_MERGE_VALUE val (Z.land dev_value (not32 (rw1c_mask reg)))
                               throughable_mask) in
  (0, val, set_dev_config s (pci_set_long (dev_config s) (ptr cfg_entry) data)).

(** The primitive of the design document, and the two formulas it gives for
    the value forwarded to the device. *)
Definition merge (new old mask : Z) : Z :=
  Z.lor (Z.land new mask) (Z.land old (Z.lnot mask)).

Definition throughable (permissive_mode : bool) (reg : XenPTRegInfo)
  (valid_mask : Z) : Z :=
  let m := Z.land (Z.lnot (Z.lor (emu_mask reg) (ro_mask reg))) valid_mask in
  if permissive_mode then m else Z.land m (Z.lnot (res_mask reg)).

(** *** Register initialisers

    An initialiser either returns a non-zero status and stores nothing
    ([InitErr rc]) or returns 0 after storing [data] ([InitOk data]). *)

Inductive init_result :=
| InitErr (rc : Z)
| InitOk (data : Z).

Definition EINVAL := 22.

Definition xen_pt_vendor_reg_init (s : XenPCIPassthroughState)
  (reg : XenPTRegInfo) (real_offset : Z) : init_result :=
  InitOk (vendor_id (real_device s)).

Definition xen_pt_device_reg_init (s : XenPCIPassthroughState)
  (reg : XenPTRegInfo) (real_offset : Z) : init_result :=
  InitOk (device_id (real_device s)).

Definition xen_pt_status_reg_init (s : XenPCIPassthroughState)
  (reg : XenPTRegInfo) (real_offset : Z) : init_result * XenPCIPassthroughState :=
  let reg_field := 0 in
  (* find Header register group *)
  match xen_pt_find_reg_grp s PCI_CAPABILITY_LIST with
  | Some reg_grp_entry =>
      (* find Capabilities Pointer register *)
      match xen_pt_find_reg reg_grp_entry PCI_CAPABILITY_LIST with
      | Some reg_entry =>
          (* check Capabilities Pointer register: [*reg_entry->ptr.half_word] *)
          let reg_field :=
            if truthy (pci_get_word (dev_config s) (ptr reg_entry))
            then Z.lor reg_field PCI_STATUS_CAP_LIST
            else Z.land reg_field (not32 PCI_STATUS_CAP_LIST) in
          (InitOk reg_field, s)
      | None =>
          (InitErr (-1),
           xen_shutdown_fatal_error
             "Internal error: Couldn't find XenPTReg* for Capabilities Pointer register." s)
      end
  | None =>
      (InitErr (-1),
       xen_shutdown_fatal_error
         "Internal error: Couldn't find XenPTRegGroup for Header." s)
  end.

(** The [for] loop over the catalogue inside [xen_pt_ptr_reg_init], for the
    capability at [reg_field]. *)
Inductive grp_scan :=
| ScanOut            (* [goto out]: an emulated group owns this capability *)
| ScanNext           (* [break], or the table is exhausted: go to the next one *)
| ScanErr (rc : Z).  (* the id could not be read *)

Fixpoint ptr_scan_grps (d : XenHostPCIDevice) (grps : list XenPTRegGroupInfo)
  (reg_field : Z) : grp_scan :=
  match grps with
  | [] => ScanNext
  | g :: rest =>
      if xen_pt_hide_dev_cap d (grp_id g) then ptr_scan_grps d rest reg_field
      else
        match xen_host_pci_get_byte d (reg_field + PCI_CAP_LIST_ID) with
        | None => ScanErr (- EIO)
        | Some cap_id =>
            if grp_id g =? cap_id then
              match grp_type g with
              | XEN_PT_GRP_TYPE_EMU => ScanOut
              | XEN_PT_GRP_TYPE_HARDWIRED => ScanNext
              end
            else ptr_scan_grps d rest reg_field
        end
  end.

(** The loop [while (reg_field) { ... }]; it has no bound of its own, so the
    model runs it for at most [fuel] iterations and answers [None] when that
    does not suffice. *)
Fixpoint ptr_walk (fuel : nat) (s : XenPCIPassthroughState) (reg_field : Z)
  : option (init_result * XenPCIPassthroughState) :=
  if reg_field =? 0 then Some (InitOk reg_field, s)
  else
    match fuel with
    | O => None
    | S fuel' =>
        match ptr_scan_grps (real_device s) xen_pt_emu_reg_grps reg_field with
        | ScanOut => Some (InitOk reg_field, s)
        | ScanErr rc =>
            Some (InitErr rc, XEN_PT_ERR "Failed to read capability" s)
        | ScanNext =>
            (* next capability *)
            match xen_host_pci_get_byte (real_device s)
                    (reg_field + PCI_CAP_LIST_NEXT) with
            | None => Some (InitErr (- EIO), s)
            | Some reg_field => ptr_walk fuel' s reg_field
            end
        end
    end.

(** initialize Capabilities Pointer or Next Pointer register *)
Definition xen_pt_ptr_reg_init (fuel : nat) (s : XenPCIPassthroughState)
  (reg : XenPTRegInfo) (real_offset : Z)
  : option (init_result * XenPCIPassthroughState) :=
  match xen_host_pci_get_byte (real_device s) real_offset with
  | None => Some (InitErr (- EIO), s)
  | Some reg_field => ptr_walk fuel s reg_field
  end.

Definition PCIE_EXT_CAP_NEXT_SHIFT := 4.
Definition PCIE_EXT_CAP_VER_MASK := 0xF.

(** The [for] loop over the catalogue inside [xen_pt_ext_cap_ptr_reg_init]:
    [true] for [goto out]. *)
Fixpoint ext_ptr_scan_grps (d : XenHostPCIDevice) (grps : list XenPTRegGroupInfo)
  (cap_id : Z) : bool :=
  match grps with
  | [] => false
  | g :: rest =>
      let cur_grp_id := grp_id g in
      if negb (IS_PCIE_EXT_CAP_ID cur_grp_id) then ext_ptr_scan_grps d rest cap_id
      else if xen_pt_hide_dev_cap d cur_grp_id then ext_ptr_scan_grps d rest cap_id
      else if GET_PCIE_EXT_CAP_ID cur_grp_id =? cap_id then
        match grp_type g with
        | XEN_PT_GRP_TYPE_EMU => true
        | XEN_PT_GRP_TYPE_HARDWIRED =>
            (* skip TYPE_HARDWIRED capability, move the ptr to next one *)
            false
        end
      else ext_ptr_scan_grps d rest cap_id
  end.

(** The loop [while (cur_offset && cur_offset != 0xFFF) { ... }], unbounded
    in the source, run for at most [fuel] iterations. *)
Fixpoint ext_ptr_walk (fuel : nat) (s : XenPCIPassthroughState)
  (version cur_offset : Z) : option (init_result * XenPCIPassthroughState) :=
  if (cur_offset =? 0) || (cur_offset =? 0xFFF) then
    Some (InitOk (Z.lor (Z.shiftl cur_offset PCIE_EXT_CAP_NEXT_SHIFT) version), s)
  else
    match fuel with
    | O => None
    | S fuel' =>
        match xen_host_pci_get_long (real_device s) cur_offset with
        | None =>
            Some (InitErr (- EIO),
                  XEN_PT_ERR "Failed to read PCIe extended capability" s)
        | Some header =>
            let cap_id := uint16 (PCI_EXT_CAP_ID header) in
            if ext_ptr_scan_grps (real_device s) xen_pt_emu_reg_grps cap_id then
              Some (InitOk (Z.lor (Z.shiftl cur_offset PCIE_EXT_CAP_NEXT_SHIFT)
                                  version), s)
            else
              (* next capability *)
              ext_ptr_walk fuel' s version (uint16 (PCI_EXT_CAP_NEXT header))
        end
    end.

Definition xen_pt_ext_cap_ptr_reg_init (fuel : nat) (s : XenPCIPassthroughState)
  (reg : XenPTRegInfo) (real_offset : Z)
  : option (init_result * XenPCIPassthroughState) :=
  if real_offset <? PCI_CONFIG_SPACE_SIZE then
    Some (InitErr (- EINVAL),
          XEN_PT_ERR "Incorrect PCIe extended capability offset encountered" s)
  else
    match xen_host_pci_get_word (real_device s) real_offset with
    | None => Some (InitErr (- EIO), s)
    | Some reg_field =>
        (* preserve version field *)
        let version := uint16 (Z.land reg_field PCIE_EXT_CAP_VER_MASK) in
        let cur_offset := uint16 (Z.shiftr reg_field PCIE_EXT_CAP_NEXT_SHIFT) in
        ext_ptr_walk fuel s version cur_offset
    end.

(** PCIe Extended Capability ID reg *)
Definition xen_pt_ext_cap_capid_reg_init (s : XenPCIPassthroughState)
  (reg : XenPTRegInfo) (real_offset : Z) : init_result * XenPCIPassthroughState :=
  (* use real device register's value as initial value *)
  match xen_host_pci_get_word (real_device s) real_offset with
  | None => (InitErr (- EIO), s)
  | Some reg_field =>
      match xen_pt_find_reg_grp s real_offset with
      | Some reg_grp_entry =>
          if grp_type_eqb (grp_type (reg_grp reg_grp_entry)) XEN_PT_GRP_TYPE_HARDWIRED
             && (base_offset reg_grp_entry =? PCI_CONFIG_SPACE_SIZE)
          then
            let reg_field := fake_cap_id s in
            (* increment the value in order to have unique Capability IDs *)
            (InitOk reg_field, set_fake_cap_id s (uint16 (fake_cap_id s + 1)))
          else (InitOk reg_field, s)
      | None => (InitOk reg_field, s)
      end
  end.

(** Message Control register.  Where the device has MSI enabled, the word is
    written back to the device with the enable bit cleared; the status that
    [xen_host_pci_set_word] returns is not looked at. *)
Definition xen_pt_msgctrl_reg_init (s : XenPCIPassthroughState)
  (reg : XenPTRegInfo) (real_offset : Z) : init_result * XenPCIPassthroughState :=
  (* use I/O device register's value as initial value *)
  match xen_host_pci_get_word (real_device s) real_offset with
  | None => (InitErr (- EIO), s)
  | Some reg_field =>
      let s :=
        if truthy (Z.land reg_field PCI_MSI_FLAGS_ENABLE)
        then
          let s := XEN_PT_LOG "MSI already enabled, disabling it first" s in
          set_real_device s
            (snd (xen_host_pci_set_word (real_device s) real_offset
                    (uint16 (Z.land reg_field (Z.lnot PCI_MSI_FLAGS_ENABLE)))))
        else s in
      (InitOk (init_val reg),
       set_msi s {| flags := uint32 (Z.lor (flags (msi s)) reg_field);
                    initialized := false; mapped := false;
                    addr_lo := addr_lo (msi s); addr_hi := addr_hi (msi s);
                    msi_data := msi_data (msi s); ctrl_offset := real_offset |})
  end.

(** initialize Message Upper Address register *)
Definition xen_pt_msgaddr64_reg_init (s : XenPCIPassthroughState)
  (reg : XenPTRegInfo) (real_offset : Z) : init_result :=
  (* no need to initialize in case of 32 bit type *)
  if negb (truthy (Z.land (flags (msi s)) PCI_MSI_FLAGS_64BIT))
  then InitOk XEN_PT_INVALID_REG
  else InitOk (init_val reg).

(** [reg->init(s, reg_entry->reg, real_offset, &data)]. *)
Definition run_init (i : RegInit) (fuel : nat) (s : XenPCIPassthroughState)
  (reg : XenPTRegInfo) (real_offset : Z)
  : option (init_result * XenPCIPassthroughState) :=
  match i with
  | Init_common => Some (InitOk (snd (xen_pt_common_reg_init s reg real_offset)), s)
  | Init_vendor => Some (xen_pt_vendor_reg_init s reg real_offset, s)
  | Init_device => Some (xen_pt_device_reg_init s reg real_offset, s)
  | Init_status => Some (xen_pt_status_reg_init s reg real_offset)
  | Init_ptr => xen_pt_ptr_reg_init fuel s reg real_offset
  | Init_msgctrl => Some (xen_pt_msgctrl_reg_init s reg real_offset)
  | Init_msgaddr64 => Some (xen_pt_msgaddr64_reg_init s reg real_offset, s)
  | Init_ext_cap_capid => Some (xen_pt_ext_cap_capid_reg_init s reg real_offset)
  | Init_ext_cap_ptr => xen_pt_ext_cap_ptr_reg_init fuel s reg real_offset
  end.

(** *** Attach-time initialisation of one register *)

(** The value that [xen_pt_config_reg_init] settles on from the initialiser's
    [data] and the host's [val], and whether the mismatch branch was taken. *)
Definition reg_size_mask (reg : XenPTRegInfo) : Z :=
  uint32 (Z.shiftr 0xFFFFFFFF (Z.shiftl (4 - size reg) 3)).

Definition reg_host_mask (reg : XenPTRegInfo) : Z :=
  Z.land (reg_size_mask reg) (not32 (emu_mask reg)).

Definition reg_sync_mismatch (reg : XenPTRegInfo) (data val : Z) : bool :=
  negb (Z.land data (reg_host_mask reg) =? Z.land val (reg_host_mask reg)).

Definition reg_sync_value (reg : XenPTRegInfo) (data val : Z) : Z :=
  let size_mask := reg_size_mask reg in
  let host_mask := reg_host_mask reg in
  if reg_sync_mismatch reg data val then
    (* Mask out host (including past size). *)
    let new_val := Z.land val host_mask in
    (* Merge emulated ones (excluding the non-emulated ones). *)
    let new_val := Z.lor new_val (Z.land data host_mask) in
    (* Leave intact host and emulated values past the size *)
    let new_val := Z.lor new_val (Z.land (Z.lor val data) (not32 size_mask)) in
    new_val
  else data.

(** What the design document asks of the reconciliation: host bits outside
    the emulated mask, initialiser bits inside it, within the width. *)
Definition reg_sync_expected (reg : XenPTRegInfo) (data val : Z) : Z :=
  Z.land (merge data val (emu_mask reg)) (reg_size_mask reg).

(** The host read of [reg->size] bytes into the [uint32_t val], whose bytes
    beyond the register keep what the uninitialised object held ([val0]). *)
Inductive host_read :=
| ReadOk (val : Z)
| ReadErr
| ReadAbort.       (* [default: abort()] *)

Definition read_host_val (d : XenHostPCIDevice) (reg : XenPTRegInfo)
  (offset val0 : Z) : host_read :=
  if size reg =? 1 then
    match xen_host_pci_get_byte d offset with
    | Some v => ReadOk (Z.lor (Z.land val0 (not32 0xFF)) v)
    | None => ReadErr
    end
  else if size reg =? 2 then
    match xen_host_pci_get_word d offset with
    | Some v => ReadOk (Z.lor (Z.land val0 (not32 0xFFFF)) v)
    | None => ReadErr
    end
  else if size reg =? 4 then
    match xen_host_pci_get_long d offset with
    | Some v => ReadOk v
    | None => ReadErr
    end
  else ReadAbort.

Definition write_dev_config (s : XenPCIPassthroughState) (reg : XenPTRegInfo)
  (offset val : Z) : XenPCIPassthroughState :=
  if size reg =? 1 then
    set_dev_config s (pci_set_byte (dev_config s) offset (uint8 val))
  else if size reg =? 2 then
    set_dev_config s (pci_set_word (dev_config s) offset (uint16 val))
  else set_dev_config s (pci_set_long (dev_config s) offset val).

(** [QLIST_INSERT_HEAD(&reg_grp->reg_tbl_list, reg_entry, entries)] for the
    group at position [grp_idx] of [s->reg_grps]. *)
Fixpoint insert_reg_at (grps : list XenPTRegGroup) (grp_idx : nat)
  (reg_entry : XenPTReg) : list XenPTRegGroup :=
  match grps, grp_idx with
  | [], _ => []
  | g :: rest, O =>
      {| reg_grp := reg_grp g; base_offset := base_offset g; grp_sz := grp_sz g;
         reg_tbl_list := reg_entry :: reg_tbl_list g |} :: rest
  | g :: rest, S n => g :: insert_reg_at rest n reg_entry
  end.

Inductive reg_init_outcome :=
| RegAdded               (* the register entry is on the group's list *)
| RegNotPresent          (* the initialiser answered XEN_PT_INVALID_REG *)
| RegFailed (errp : string)
| RegAbort.

(** [xen_pt_config_reg_init(s, reg_grp, reg, errp)], where [reg_grp] points
    to the entry at position [grp_idx] of [s->reg_grps] (a pointer to no
    entry is outside the model: [RegAbort]). *)
Definition xen_pt_config_reg_init (fuel : nat) (val0 : Z)
  (s : XenPCIPassthroughState) (grp_idx : nat) (reg : XenPTRegInfo)
  : option (reg_init_outcome * XenPCIPassthroughState) :=
  match nth_error (reg_grps s) grp_idx with
  | None => Some (RegAbort, s)
  | Some reg_grp =>
      match init reg with
      | None =>
          (* no initialiser: the entry is added with a null value pointer *)
          Some (RegAdded,
                set_reg_grps s (insert_reg_at (reg_grps s) grp_idx
                                              {| reg := reg; ptr := 0 |}))
      | Some i =>
          (* initialize emulate register *)
          match run_init i fuel s reg (uint32 (base_offset reg_grp + offset reg)) with
          | None => None
          | Some (r, s) =>
              let rc := match r with InitErr rc => rc | InitOk _ => 0 end in
              (* [uint32_t data = 0] keeps its value when nothing was stored *)
              let data := match r with InitErr _ => 0 | InitOk data => data end in
              if rc <? 0 then Some (RegFailed "Init emulate register fail", s)
              else if data =? XEN_PT_INVALID_REG then
                (* free unused BAR register entry *)
                Some (RegNotPresent, s)
              else
                (* Sync up the data to dev.config *)
                let offset := uint32 (base_offset reg_grp + offset reg) in
                let size_mask := reg_size_mask reg in
                match read_host_val (real_device s) reg offset val0 with
                | ReadAbort => Some (RegAbort, s)
                | ReadErr => Some (RegFailed "Cannot read host values", s)
                | ReadOk val =>
                    let s :=
                      if reg_sync_mismatch reg data val
                      then XEN_PT_LOG "Offset mismatch! syncing" s else s in
                    let val := reg_sync_value reg data val in
                    if truthy (Z.land val (not32 size_mask)) then
                      Some (RegFailed "expands past register size", s)
                    else
                      let s := write_dev_config s reg offset val in
                      (* set register value pointer to the data. *)
                      Some (RegAdded,
                            set_reg_grps s
                              (insert_reg_at (reg_grps s) grp_idx
                                             {| reg := reg; ptr := offset |}))
                end
          end
      end
  end.

(** The loop of [xen_pt_config_init] over the registers of one group, up to
    the first failure. *)
Fixpoint init_regs (fuel : nat) (val0 : Z) (s : XenPCIPassthroughState)
  (grp_idx : nat) (regs : list XenPTRegInfo)
  : option (reg_init_outcome * XenPCIPassthroughState) :=
  match regs with
  | [] => Some (RegAdded, s)
  | r :: rest =>
      match xen_pt_config_reg_init fuel val0 s grp_idx r with
      | None => None
      | Some (RegFailed e, s) => Some (RegFailed e, s)
      | Some (RegAbort, s) => Some (RegAbort, s)
      | Some (_, s) => init_regs fuel val0 s grp_idx rest
      end
  end.

(** Which registers [xen_pt_config_init] initialises for a catalogue entry
    found at [reg_grp_offset]: those of an emulated group, and those of a
    hardwired group that starts at 0x100, when the entry has a table. *)
Definition regs_initialised (g : XenPTRegGroupInfo) (reg_grp_offset : Z)
  : option EmuRegs :=
  if grp_type_eqb (grp_type g) XEN_PT_GRP_TYPE_EMU
     || (grp_type_eqb (grp_type g) XEN_PT_GRP_TYPE_HARDWIRED
         && (reg_grp_offset =? 0x100))
  then emu_regs g else None.

(** The end of the loop body of [xen_pt_config_init] for a catalogue entry
    whose group has just been put at the head of [s->reg_grps] and sized: the
    registers of the entry's table are initialised in order, up to the first
    failure.  [table] gives the descriptors of a register table. *)
Definition xen_pt_config_init_regs (table : EmuRegs -> list XenPTRegInfo)
  (fuel : nat) (val0 : Z) (s : XenPCIPassthroughState) (g : XenPTRegGroupInfo)
  (reg_grp_offset : Z) : option (reg_init_outcome * XenPCIPassthroughState) :=
  match regs_initialised g reg_grp_offset with
  | Some regs => init_regs fuel val0 s 0 (table regs)
  | None => Some (RegAdded, s)
  end.

(** *** Register descriptors used below *)

Definition reg_info (off sz iv res ro rw1c emu : Z) (i : RegInit) : XenPTRegInfo :=
  {| offset := off; size := sz; init_val := iv; res_mask := res; ro_mask := ro;
     rw1c_mask := rw1c; emu_mask := emu; init := Some i |}.

(** Header Type0: the entries of [xen_pt_emu_reg_header0] from the start of
    the table to the Status register. *)
Definition reg_vendor_id :=       (* xen_pt_word_reg_read / xen_pt_word_reg_write *)
  reg_info PCI_VENDOR_ID 2 0x0000 0 0xFFFF 0 0xFFFF Init_vendor.
Definition reg_device_id :=       (* xen_pt_word_reg_read / xen_pt_word_reg_write *)
  reg_info PCI_DEVICE_ID 2 0x0000 0 0xFFFF 0 0xFFFF Init_device.
Definition reg_command :=         (* xen_pt_word_reg_read / xen_pt_cmd_reg_write *)
  reg_info PCI_COMMAND 2 0x0000 0xF880 0 0 0x0743 Init_common.
Definition reg_cap_ptr :=         (* xen_pt_byte_reg_read / xen_pt_byte_reg_write *)
  reg_info PCI_CAPABILITY_LIST 1 0x00 0 0xFF 0 0xFF Init_ptr.
Definition reg_status :=          (* xen_pt_word_reg_read / xen_pt_word_reg_write *)
  reg_info PCI_STATUS 2 0x0000 0x0007 0x06F8 0xF900 0x0010 Init_status.

Definition xen_pt_emu_reg_header0_to_status : list XenPTRegInfo :=
  [ reg_vendor_id; reg_device_id; reg_command; reg_cap_ptr; reg_status ].

(** Power Management: PCI Power Management Control/Status of
    [xen_pt_emu_reg_pm]. *)
Definition reg_pm_ctrl :=         (* xen_pt_word_reg_read / xen_pt_word_reg_write *)
  reg_info 4 2 0x0008 0x00F0 0x610C 0x8000 0x810B Init_common.

(** MSI: Message Control and Message Upper Address of [xen_pt_emu_reg_msi]. *)
Definition reg_msi_msgctrl :=     (* xen_pt_word_reg_read / xen_pt_msgctrl_reg_write *)
  reg_info PCI_MSI_FLAGS 2 0x0000 0xFE00 0x018E 0 0x017E Init_msgctrl.
Definition reg_msi_addr_hi :=     (* xen_pt_long_reg_read / xen_pt_msgaddr64_reg_write *)
  reg_info PCI_MSI_ADDRESS_HI 4 0x00000000 0 0x00000000 0 0xFFFFFFFF Init_msgaddr64.

(** [xen_pt_ext_cap_emu_reg_dummy]: the header of a pass-through extended
    capability. *)
Definition xen_pt_ext_cap_emu_reg_dummy : list XenPTRegInfo :=
  [ reg_info XEN_PCIE_CAP_ID 2 0x0000 0 0xFFFF 0 0xFFFF Init_ext_cap_capid;
    reg_info XEN_PCIE_CAP_LIST_NEXT 2 0x0000 0 0xFFFF 0 0xFFFF Init_ext_cap_ptr ].

(** *** MSI write handlers *)

Section Msi.

(** The interrupt backend of [xen_pt_msi.c]: each call yields a status and
    the state it leaves. *)
Variable xen_pt_msi_setup : XenPCIPassthroughState -> Z * XenPCIPassthroughState.
Variable xen_pt_msi_update : XenPCIPassthroughState -> Z * XenPCIPassthroughState.
Variable xen_pt_msi_disable : XenPCIPassthroughState -> XenPCIPassthroughState.

Definition set_msi_flags (s : XenPCIPassthroughState) (f : Z) :=
  set_msi s {| flags := f; initialized := initialized (msi s);
               mapped := mapped (msi s); addr_lo := addr_lo (msi s);
               addr_hi := addr_hi (msi s); msi_data := msi_data (msi s);
               ctrl_offset := ctrl_offset (msi s) |}.

Definition set_msi_addr_hi (s : XenPCIPassthroughState) (a : Z) :=
  set_msi s {| flags := flags (msi s); initialized := initialized (msi s);
               mapped := mapped (msi s); addr_lo := addr_lo (msi s);
               addr_hi := a; msi_data := msi_data (msi s);
               ctrl_offset := ctrl_offset (msi s) |}.

Definition set_msi_mapped (s : XenPCIPassthroughState) :=
  set_msi s {| flags := flags (msi s); initialized := true; mapped := true;
               addr_lo := addr_lo (msi s); addr_hi := addr_hi (msi s);
               msi_data := msi_data (msi s); ctrl_offset := ctrl_offset (msi s) |}.

(** The first half of [xen_pt_msgctrl_reg_write]: the emulated register is
    modified and the value for the device is created. *)
Definition msgctrl_emulate (s : XenPCIPassthroughState)
  (cfg_entry : XenPTReg) (val dev_value valid_mask : Z)
  : Z * XenPCIPassthroughState :=
  let reg := reg cfg_entry in
  let throughable_mask := uint16 (get_throughable_mask s reg valid_mask) in
  let data := pci_get_word (dev_config s) (ptr cfg_entry) in
  (* Currently no support for multi-vector *)
  let s :=
    if truthy (Z.land val PCI_MSI_FLAGS_QSIZE)
    then XEN_PT_WARN "Tries to set more than 1 vector ctrl" s else s in
  (* modify emulate register *)
  let writable_mask :=
    uint16 (Z.land (Z.land (emu_mask reg) (not32 (ro_mask reg))) valid_mask) in
  let data := uint16 (XEN_PT_MERGE_VALUE val data writable_mask) in
  let s := set_dev_config s (pci_set_word (dev_config s) (ptr cfg_entry) data) in
  let s :=
    set_msi_flags s (uint32 (Z.lor (flags (msi s))
                                   (Z.land data (Z.lnot PCI_MSI_FLAGS_ENABLE)))) in
  (* create value for writing to I/O device register *)
  let val := uint16 (XEN_PT_MERGE_VALUE val dev_value throughable_mask) in
  (val, s).

(** The second half: update MSI. *)
Definition msgctrl_update_msi (val : Z) (s : XenPCIPassthroughState)
  : Z * Z * XenPCIPassthroughState :=
  if truthy (Z.land val PCI_MSI_FLAGS_ENABLE) then
    (* setup MSI pirq for the first time *)
    if negb (initialized (msi s)) then
      (* Init physical one *)
      let s := XEN_PT_LOG "setup MSI" s in
      let (rc, s) := xen_pt_msi_setup s in
      if truthy rc then
        (* We do not broadcast the error to the framework code *)
        let val := uint16 (Z.land val (Z.lnot PCI_MSI_FLAGS_ENABLE)) in
        (0, val, XEN_PT_WARN "Can not map MSI" s)
      else
        let (rc, s) := xen_pt_msi_update s in
        if truthy rc then
          let val := uint16 (Z.land val (Z.lnot PCI_MSI_FLAGS_ENABLE)) in
          (0, val, XEN_PT_WARN "Can not bind MSI" s)
        else
          let s := set_msi_mapped s in
          (0, val, set_msi_flags s (uint32 (Z.lor (flags (msi s)) PCI_MSI_FLAGS_ENABLE)))
    else
      (0, val, set_msi_flags s (uint32 (Z.lor (flags (msi s)) PCI_MSI_FLAGS_ENABLE)))
  else if mapped (msi s) then (0, val, xen_pt_msi_disable s)
  else (0, val, s).

Definition xen_pt_msgctrl_reg_write (s : XenPCIPassthroughState)
  (cfg_entry : XenPTReg) (val dev_value valid_mask : Z)
  : Z * Z * XenPCIPassthroughState :=
  let (val, s) := msgctrl_emulate s cfg_entry val dev_value valid_mask in
  msgctrl_update_msi val s.

(** write Message Upper Address register *)
Definition xen_pt_msgaddr64_reg_write (s : XenPCIPassthroughState)
  (cfg_entry : XenPTReg) (val dev_value valid_mask : Z)
  : Z * Z * XenPCIPassthroughState :=
  let reg := reg cfg_entry in
  let old_addr := pci_get_long (dev_config s) (ptr cfg_entry) in
  let data := pci_get_long (dev_config s) (ptr cfg_entry) in
  (* check whether the type is 64 bit or not *)
  if negb (truthy (Z.land (flags (msi s)) PCI_MSI_FLAGS_64BIT)) then
    (-1, val,
     XEN_PT_ERR "Can't write to the upper address without 64 bit support" s)
  else
    (* modify emulate register *)
    let writable_mask :=
      uint32 (Z.land (Z.land (emu_mask reg) (not32 (ro_mask reg))) valid_mask) in
    let data := uint32 (XEN_PT_MERGE_VALUE val data writable_mask) in
    let s := set_dev_config s (pci_set_long (dev_config s) (ptr cfg_entry) data) in
    (* update the msi_info too *)
    let s := set_msi_addr_hi s data in
    (* create value for writing to I/O device register *)
    let val := uint32 (XEN_PT_MERGE_VALUE val dev_value 0) in
    (* update MSI *)
    if negb (data =? old_addr) && mapped (msi s)
    then (0, val, snd (xen_pt_msi_update s))
    else (0, val, s).

End Msi.

(** *** Size resolvers of the variable-length extended capabilities

    A resolver returns its status, the size it stored (if it stored one) and
    the state with its messages. *)

Definition log_pcie_extended_cap (s : XenPCIPassthroughState) (cap_name : string)
  (base_offset size : Z) : XenPCIPassthroughState :=
  if truthy size then XEN_PT_LOG ("Found PCIe Extended Capability: " ++ cap_name) s
  else s.

Definition or_zero (r : option Z) : Z :=
  match r with Some v => v | None => 0 end.

(** get Dynamic Power Allocation Extended Capability register group size *)
Definition xen_pt_ext_cap_dpa_size_init (s : XenPCIPassthroughState)
  (base_offset : Z) : Z * Z * XenPCIPassthroughState :=
  let r := xen_host_pci_get_long (real_device s) (uint32 (base_offset + PCI_DPA_CAP)) in
  let dpa_caps := or_zero r in
  let num_entries := uint32 (Z.land dpa_caps PCI_DPA_CAP_SUBSTATE_MASK + 1) in
  let size := uint32 (PCI_DPA_BASE_SIZEOF + num_entries) in
  (host_rc r, size,
   log_pcie_extended_cap s "Dynamic Power Allocation" base_offset size).

(** get TPH Requester Extended Capability register group size *)
Definition xen_pt_ext_cap_tph_size_init (s : XenPCIPassthroughState)
  (base_offset : Z) : Z * Z * XenPCIPassthroughState :=
  let r := xen_host_pci_get_long (real_device s) (uint32 (base_offset + PCI_TPH_CAP)) in
  let tph_caps := or_zero r in
  let num_entries :=
    if Z.land tph_caps PCI_TPH_CAP_LOC_MASK =? PCI_TPH_LOC_CAP then
      uint32 (Z.shiftr (Z.land tph_caps PCI_TPH_CAP_ST_MASK) PCI_TPH_CAP_ST_SHIFT + 1)
    else
      (* not in the capability *)
      0 in
  let size := uint32 (PCI_TPH_BASE_SIZEOF + num_entries * 2) in
  (host_rc r, size, log_pcie_extended_cap s "TPH Requester" base_offset size).

(** get Downstream Port Containment Extended Capability register group size *)
Definition xen_pt_ext_cap_dpc_size_init (s : XenPCIPassthroughState)
  (base_offset : Z) : Z * Z * XenPCIPassthroughState :=
  let r := xen_host_pci_get_word (real_device s) (uint32 (base_offset + PCI_EXP_DPC_CAP)) in
  let dpc_caps := or_zero r in
  let size :=
    if truthy (Z.land dpc_caps PCI_EXP_DPC_CAP_RP_EXT) then
      0x20 + Z.shiftr (Z.land dpc_caps PCI_EXP_DPC_RP_PIO_LOG_SIZE) 8 * 4
    else 0xC in
  (host_rc r, size,
   log_pcie_extended_cap s "Downstream Port Containment" base_offset size).

(** get Protocol Multiplexing Extended Capability register group size *)
Definition PMUX_GET_NUM_ENTRIES (x : Z) : Z := Z.land x 0x3F.

Definition xen_pt_ext_cap_pmux_size_init (s : XenPCIPassthroughState)
  (base_offset : Z) : Z * Z * XenPCIPassthroughState :=
  let r := xen_host_pci_get_long (real_device s) (uint32 (base_offset + 4)) in
  let pmux_caps := or_zero r in
  let size := uint32 (0x10 + PMUX_GET_NUM_ENTRIES pmux_caps * 4) in
  (host_rc r, size, log_pcie_extended_cap s "PMUX" base_offset size).

(** get VC/VC9/MFVC Extended Capability register group size *)

(** [for (n_bit = 7; n_bit >= 0 && !(arb_cap & (1 << n_bit)); n_bit--);]
    started at [n_bit = Z.of_nat k - 1]. *)
Fixpoint arb_highest_bit (arb_cap : Z) (k : nat) : Z :=
  match k with
  | O => -1
  | S k' =>
      if truthy (Z.land arb_cap (Z.shiftl 1 (Z.of_nat k'))) then Z.of_nat k'
      else arb_highest_bit arb_cap k'
  end.

Definition get_arb_table_len_max (s : XenPCIPassthroughState)
  (max_bit_supported arb_cap : Z) : Z * XenPCIPassthroughState :=
  if negb (truthy arb_cap) then (0, s)
  else
    let n_bit := arb_highest_bit arb_cap 8 in
    let s :=
      if uint32 n_bit >? max_bit_supported then
        XEN_PT_ERR "Warning: encountered unknown VC arbitration capability supported" s
      else s in
    if n_bit =? 0 then (0, s)
    else if n_bit =? 1 then (32, s)
    else if n_bit =? 2 then (64, s)
    else if (n_bit =? 3) || (n_bit =? 4) then (128, s)
    else (uint32 (Z.shiftl 8 n_bit), s).

Definition GET_ARB_TABLE_OFFSET (x : Z) : Z := Z.shiftr x 24 * 0x10.
Definition GET_VC_ARB_CAPABILITY (x : Z) : Z := Z.land x 0xFF.
Definition ARB_TABLE_ENTRY_SIZE_BITS (x : Z) : Z :=
  Z.shiftl 1 (Z.shiftr (Z.land x PCI_VC_CAP1_ARB_SIZE) 10).
Definition QEMU_ALIGN_UP (n m : Z) : Z := (n + m - 1) / m * m.

(** The loop over the VC Resource entries, from entry [i] for [n] entries;
    [inl rc] is [goto err_read]. *)
Fixpoint vchan_resources (n : nat) (i : Z) (s : XenPCIPassthroughState)
  (base_offset vc_cap_max_size arb_table_entry_size : Z)
  (arb_table_start_max arb_table_end_max : Z)
  : (Z + Z * Z) * XenPCIPassthroughState :=
  match n with
  | O => (inr (arb_table_start_max, arb_table_end_max), s)
  | S n' =>
      (* read VC Resource Capability *)
      match xen_host_pci_get_long (real_device s)
              (uint32 (base_offset + PCI_VC_RES_CAP + i * PCI_CAP_VC_PER_VC_SIZEOF)) with
      | None => (inl (- EIO), s)
      | Some vc_rsrc_cap =>
          let arb_table_offset := GET_ARB_TABLE_OFFSET vc_rsrc_cap in
          if arb_table_offset >? arb_table_start_max then
            (* check arbitration table offset for validity *)
            let out_of_range := arb_table_offset >=? vc_cap_max_size in
            let s :=
              if out_of_range then
                XEN_PT_ERR "Warning: Port/Function arbitration table offset points outside the expected range" s
              else s in
            (* skip this arbitration table *)
            let arb_table_start_max :=
              if out_of_range then arb_table_start_max else arb_table_offset in
            let arb_table_offset := if out_of_range then 0 else arb_table_offset in
            if truthy arb_table_offset then
              let vc_arb_cap := GET_VC_ARB_CAPABILITY vc_rsrc_cap in
              let (num_phases, s) := get_arb_table_len_max s 5 vc_arb_cap in
              let arb_tbl_sz :=
                uint32 (QEMU_ALIGN_UP (uint32 (num_phases * arb_table_entry_size)) 32) / 8 in
              let arb_table_end_max :=
                uint32 (base_offset + arb_table_offset + arb_tbl_sz) in
              vchan_resources n' (i + 1) s base_offset vc_cap_max_size
                arb_table_entry_size arb_table_start_max arb_table_end_max
            else
              vchan_resources n' (i + 1) s base_offset vc_cap_max_size
                arb_table_entry_size arb_table_start_max arb_table_end_max
          else
            vchan_resources n' (i + 1) s base_offset vc_cap_max_size
              arb_table_entry_size arb_table_start_max arb_table_end_max
      end
  end.

Definition vchan_err_read (rc : Z) (s : XenPCIPassthroughState)
  : Z * option Z * XenPCIPassthroughState :=
  (rc, None, XEN_PT_ERR "Error while reading VC Extended Capability" s).

(** [vc_cap_max_size]: what is left of the extended space, or the distance
    to the next capability when the header names one further on. *)
Definition vchan_cap_max_size (base_offset header : Z) : Z :=
  let vc_cap_max_size := uint32 (PCIE_CONFIG_SPACE_SIZE - base_offset) in
  let next_ptr := PCI_EXT_CAP_NEXT header in
  if truthy next_ptr && (next_ptr >? base_offset)
  then uint32 (next_ptr - base_offset) else vc_cap_max_size.

Definition vchan_known_id (header : Z) : bool :=
  let id := PCI_EXT_CAP_ID header in
  (id =? PCI_EXT_CAP_ID_VC) || (id =? PCI_EXT_CAP_ID_VC9)
  || (id =? PCI_EXT_CAP_ID_MFVC).

Definition xen_pt_ext_cap_vchan_size_init (s : XenPCIPassthroughState)
  (base_offset : Z) : Z * option Z * XenPCIPassthroughState :=
  match xen_host_pci_get_long (real_device s) base_offset with
  | None => vchan_err_read (- EIO) s
  | Some header =>
      if negb (vchan_known_id header) then
        (-1, None, XEN_PT_ERR "Unknown VC Extended Capability ID encountered" s)
      else
        let cap_name :=
          if PCI_EXT_CAP_ID header =? PCI_EXT_CAP_ID_MFVC
          then "Multi-Function VC"%string else "Virtual Channel"%string in
        let vc_cap_max_size := vchan_cap_max_size base_offset header in
        match xen_host_pci_get_long (real_device s)
                (uint32 (base_offset + PCI_VC_PORT_CAP1)) with
        | None => vchan_err_read (- EIO) s
        | Some port_vc_cap1 =>
            match xen_host_pci_get_long (real_device s)
                    (uint32 (base_offset + PCI_VC_PORT_CAP2)) with
            | None => vchan_err_read (- EIO) s
            | Some port_vc_cap2 =>
                let ext_vc_count := Z.land port_vc_cap1 PCI_VC_CAP1_EVCC in
                let arb_table_start_max := GET_ARB_TABLE_OFFSET port_vc_cap2 in
                (* check arbitration table offset for validity *)
                let out_of_range := arb_table_start_max >=? vc_cap_max_size in
                let s :=
                  if out_of_range then
                    XEN_PT_ERR "Warning: VC arbitration table offset points outside the expected range" s
                  else s in
                (* skip this arbitration table *)
                let arb_table_start_max :=
                  if out_of_range then 0 else arb_table_start_max in
                let '(arb_table_end_max, s) :=
                  if truthy arb_table_start_max then
                    let vc_arb_cap := GET_VC_ARB_CAPABILITY port_vc_cap2 in
                    let (num_phases, s) := get_arb_table_len_max s 3 vc_arb_cap in
                    let arb_tbl_sz :=
                      uint32 (QEMU_ALIGN_UP (uint32 (num_phases * 4)) 32) / 8 in
                    (uint32 (base_offset + arb_table_start_max + arb_tbl_sz), s)
                  else (0, s) in
                (* get Function/Port Arbitration Table Entry size *)
                let arb_table_entry_size := ARB_TABLE_ENTRY_SIZE_BITS port_vc_cap1 in
                (* process all VC Resource entries *)
                match vchan_resources (Z.to_nat ext_vc_count) 0 s base_offset
                        vc_cap_max_size arb_table_entry_size
                        arb_table_start_max arb_table_end_max with
                | (inl rc, s) => vchan_err_read rc s
                | (inr (_, arb_table_end_max), s) =>
                    let size :=
                      if truthy arb_table_end_max
                      then uint32 (arb_table_end_max - base_offset)
                      else uint32 (PCI_CAP_VC_BASE_SIZEOF +
                                   ext_vc_count * PCI_CAP_VC_PER_VC_SIZEOF) in
                    (0, Some size, log_pcie_extended_cap s cap_name base_offset size)
                end
            end
        end
  end.

(** The budget of the design document: what is left of the 4 KiB extended
    configuration space from the group's base offset on. *)
Definition ext_space_budget (base_offset : Z) : Z :=
  PCIE_CONFIG_SPACE_SIZE - base_offset.

(** Messages only accumulate, and the device stays the same. *)
Definition log_grows (s s' : XenPCIPassthroughState) : Prop :=
  real_device s' = real_device s /\ forall e, In e (log s) -> In e (log s').

End XenPt.
Import XenPt.

(** ** More of the host device: the extended capability walk *)

Module HostPciExt.

(** [PCI_CAP_SIZEOF] is 4 in [pci_regs.h], so the bound is 3840 / 8. *)
Definition PCI_CAP_SIZEOF := 4.
Definition XEN_HOST_PCI_MAX_EXT_CAP : nat :=
  Z.to_nat ((PCIE_CONFIG_SPACE_SIZE - PCI_CONFIG_SPACE_SIZE) / (PCI_CAP_SIZEOF + 4)).

Definition xen_host_pci_dev_has_pcie_ext_caps (d : XenHostPCIDevice) : bool :=
  match xen_host_pci_get_long d PCI_CONFIG_SPACE_SIZE with
  | None => false
  | Some header =>
      if (header =? 0) || (header =? 0xFFFFFFFF) then false else true
  end.

Section FindNextExtCap.

Variable CAP_ID_ANY : Z.

(** The loop [do { ... } while (--max_cap);] of
    [xen_host_pci_find_next_ext_cap], with [max_cap] the number of times the
    body may still be entered. *)
Fixpoint ext_cap_walk (d : XenHostPCIDevice) (cap : Z) (max_cap : nat) (pos : Z)
  : Z :=
  match max_cap with
  | O => 0
  | S max_cap' =>
      if (pos =? 0) || (pos <? PCI_CONFIG_SPACE_SIZE) then 0
      else
        match xen_host_pci_get_long d pos with
        | None => 0
        | Some header =>
            (* no capabilities, or the extended space is unreadable *)
            if (header =? 0) || (header =? 0xFFFFFFFF) then 0
            else if cap =? CAP_ID_ANY then pos
            else if PCI_EXT_CAP_ID header =? cap then pos
            else ext_cap_walk d cap max_cap' (PCI_EXT_CAP_NEXT header)
        end
  end.

Definition xen_host_pci_find_next_ext_cap (d : XenHostPCIDevice) (pos cap : Z)
  : Z :=
  if negb (has_pcie_ext_caps d) then 0
  else if pos =? 0 then
    ext_cap_walk d cap XEN_HOST_PCI_MAX_EXT_CAP PCI_CONFIG_SPACE_SIZE
  else
    match xen_host_pci_get_long d pos with
    | None => 0
    | Some header =>
        ext_cap_walk d cap XEN_HOST_PCI_MAX_EXT_CAP (PCI_EXT_CAP_NEXT header)
    end.

End FindNextExtCap.

(** What a search of a legacy list for [cap] finds when the list is given by
    the offsets of its capabilities: the first one whose id is [cap], unless an
    id before it cannot be read or is 0xff. *)
Fixpoint chain_search (d : XenHostPCIDevice) (cap : Z) (l : list Z) : Z :=
  match l with
  | [] => 0
  | c :: l' =>
      match xen_host_pci_get_byte d (c + PCI_CAP_LIST_ID) with
      | None => 0
      | Some id =>
          if id =? 0xff then 0
          else if id =? cap then c
          else chain_search d cap l'
      end
  end.

(** A header of an extended capability that ends no walk. *)
Definition ext_header_at (d : XenHostPCIDevice) (pos header : Z) : Prop :=
  xen_host_pci_get_long d pos = Some header /\
  header <> 0 /\ header <> 0xFFFFFFFF.

End HostPciExt.
Import HostPciExt.

(** ** Statements about the generic write functions *)

Module WriteSpec.

Definition writer :=
  XenPCIPassthroughState -> XenPTReg -> Z -> Z -> Z ->
  Z * Z * XenPCIPassthroughState.

(** The software copy after a write: a bit of [emu_mask & ~ro_mask &
    valid_mask] is the guest's, every other bit is the old one; and a bit
    that is stored from the guest is not forwarded from the guest. *)
Definition stores (w : Z) (write : writer) (get : (Z -> byte) -> Z -> Z) : Prop :=
  forall s e val dev_value valid_mask (i : nat),
    let old := get (dev_config s) (ptr e) in
    let out := write s e val dev_value valid_mask in
    let stored_from_guest :=
      Z.testbit (emu_mask (reg e)) (Z.of_nat i) &&
      negb (Z.testbit (ro_mask (reg e)) (Z.of_nat i)) &&
      Z.testbit valid_mask (Z.of_nat i) in
    Z.testbit (get (dev_config (snd out)) (ptr e)) (Z.of_nat i) =
      (Z.of_nat i <? w) &&
      (if stored_from_guest then Z.testbit val (Z.of_nat i)
       else Z.testbit old (Z.of_nat i)) /\
    (stored_from_guest = true ->
     Z.testbit (snd (fst out)) (Z.of_nat i) =
       (Z.of_nat i <? w) &&
       (Z.testbit dev_value (Z.of_nat i) &&
        negb (Z.testbit (rw1c_mask (reg e)) (Z.of_nat i)))).

(** A write touches the [n] bytes of its register in the image and nothing
    else of the state. *)
Definition frames (n : Z) (write : writer) : Prop :=
  forall s e val dev_value valid_mask,
    let s' := snd (write s e val dev_value valid_mask) in
    (forall a, a < ptr e \/ ptr e + n <= a -> dev_config s' a = dev_config s a) /\
    real_device s' = real_device s /\ reg_grps s' = reg_grps s /\
    msi s' = msi s /\ permissive s' = permissive s /\
    fake_cap_id s' = fake_cap_id s /\ log s' = log s.

End WriteSpec.

(** ** Statements about attach-time initialisation *)

Module AttachSpec.

(** The register's cell of the image, read at the register's width. *)
Definition read_dev_config (c : Z -> byte) (reg : XenPTRegInfo) (offset : Z) : Z :=
  if size reg =? 1 then pci_get_byte c offset
  else if size reg =? 2 then pci_get_word c offset
  else pci_get_long c offset.

(** Where a register of the group lives in configuration space. *)
Definition real_offset_of (g : XenPTRegGroup) (reg : XenPTRegInfo) : Z :=
  uint32 (base_offset g + offset reg).

(** A legacy capability that the guest is shown: its id is that of an
    emulated group of the catalogue that the hide policy lets through. *)
Definition exposed_legacy (d : XenHostPCIDevice) (c : Z) : Prop :=
  exists g,
    In g xen_pt_emu_reg_grps /\
    grp_type g = XEN_PT_GRP_TYPE_EMU /\
    xen_pt_hide_dev_cap d (grp_id g) = false /\
    xen_host_pci_get_byte d (c + PCI_CAP_LIST_ID) = Some (grp_id g).

(** The register is fully emulated: no bit of its width is left to the host. *)
Definition fully_emulated (reg : XenPTRegInfo) : Prop :=
  reg_host_mask reg = 0.

(** Every initialiser leaves the image and the groups alone. *)
Definition init_keeps (s s1 : XenPCIPassthroughState) : Prop :=
  dev_config s1 = dev_config s /\ reg_grps s1 = reg_grps s.

(** All but one leave the device alone too. *)
Definition init_keeps_device (s s1 : XenPCIPassthroughState) : Prop :=
  real_device s1 = real_device s /\ init_keeps s s1.

(** The device [d1] is the device [d] but for the two bytes of the word at
    [pos]. *)
Definition same_device_but_word (d d1 : XenHostPCIDevice) (pos : Z) : Prop :=
  vendor_id d1 = vendor_id d /\ device_id d1 = device_id d /\
  has_pcie_ext_caps d1 = has_pcie_ext_caps d /\ pcie_flags d1 = pcie_flags d /\
  forall a, a <> pos -> a <> pos + 1 -> config d1 a = config d a.

(** The device [d1] once the initialiser of [reg] has run at [real_offset] on
    the device [d]: [d] itself, unless the initialiser is Message Control's
    and has read a word with the MSI enable bit set; then the device holds
    that word with the enable bit cleared and is otherwise as before. *)
Definition device_after_init (d d1 : XenHostPCIDevice) (reg : XenPTRegInfo)
  (real_offset : Z) : Prop :=
  match init reg, xen_host_pci_get_word d real_offset with
  | Some Init_msgctrl, Some w =>
      if truthy (Z.land w PCI_MSI_FLAGS_ENABLE)
      then same_device_but_word d d1 real_offset /\
           xen_host_pci_get_word d1 real_offset =
             Some (Z.land w (Z.lnot PCI_MSI_FLAGS_ENABLE))
      else d1 = d
  | _, _ => d1 = d
  end.

End AttachSpec.
Import AttachSpec.

(** ** The MSI capability: size, remaining initialisers and writers *)

Module MsiCap.

(** Modelled from the spec: the offsets of the Message Data, Mask and
    Pending registers in the 32-bit and the 64-bit layout of the MSI
    capability ([pci_regs.h]); the values are those of the PCI
    specification. *)
Definition PCI_MSI_DATA_32 := 8.
Definition PCI_MSI_MASK_32 := 12.
Definition PCI_MSI_PENDING_32 := 16.
Definition PCI_MSI_DATA_64 := 12.
Definition PCI_MSI_MASK_64 := 16.
Definition PCI_MSI_PENDING_64 := 20.

(** [xen_pt_msi_check_type(offset, flags, what)], the two offsets
    [PCI_MSI_what_32] and [PCI_MSI_what_64] being passed in. *)
Definition xen_pt_msi_check_type (offset flags what_32 what_64 : Z) : bool :=
  offset =? (if truthy (Z.land flags PCI_MSI_FLAGS_64BIT) then what_64 else what_32).

(** [g_new0(XenPTMSI, 1)]. *)
Definition msi_new0 : XenPTMSI :=
  {| flags := 0; initialized := false; mapped := false; addr_lo := 0;
     addr_hi := 0; msi_data := 0; ctrl_offset := 0 |}.

(** get MSI Capability Structure register group size.  The result is the
    status, the size when one is stored, and the state; the field [pirq] of
    the fresh [XenPTMSI] is not part of the state here. *)
Definition xen_pt_msi_size_init (s : XenPCIPassthroughState) (base_offset : Z)
  : Z * option Z * XenPCIPassthroughState :=
  let msi_size := 0xa in
  match xen_host_pci_get_word (real_device s) (uint32 (base_offset + PCI_MSI_FLAGS)) with
  | None => (- EIO, None, s)
  | Some msg_ctrl =>
      (* check if 64-bit address is capable of per-vector masking *)
      let msi_size :=
        if truthy (Z.land msg_ctrl PCI_MSI_FLAGS_64BIT)
        then uint8 (msi_size + 4) else msi_size in
      let msi_size :=
        if truthy (Z.land msg_ctrl PCI_MSI_FLAGS_MASKBIT)
        then uint8 (msi_size + 10) else msi_size in
      (0, Some msi_size, set_msi s msi_new0)
  end.

(** initialize Message Data register *)
Definition xen_pt_msgdata_reg_init (s : XenPCIPassthroughState)
  (reg : XenPTRegInfo) (real_offset : Z) : init_result :=
  let flags := flags (msi s) in
  let offset := offset reg in
  (* check the offset whether matches the type or not *)
  if xen_pt_msi_check_type offset flags PCI_MSI_DATA_32 PCI_MSI_DATA_64
  then InitOk (init_val reg)
  else InitOk XEN_PT_INVALID_REG.

(** initialize Mask register *)
Definition xen_pt_mask_reg_init (s : XenPCIPassthroughState)
  (reg : XenPTRegInfo) (real_offset : Z) : init_result :=
  let flags := flags (msi s) in
  (* check the offset whether matches the type or not *)
  if negb (truthy (Z.land flags PCI_MSI_FLAGS_MASKBIT)) then InitOk XEN_PT_INVALID_REG
  else if xen_pt_msi_check_type (offset reg) flags PCI_MSI_MASK_32 PCI_MSI_MASK_64
  then InitOk (init_val reg)
  else InitOk XEN_PT_INVALID_REG.

(** initialize Pending register *)
Definition xen_pt_pending_reg_init (s : XenPCIPassthroughState)
  (reg : XenPTRegInfo) (real_offset : Z) : init_result :=
  let flags := flags (msi s) in
  (* check the offset whether matches the type or not *)
  if negb (truthy (Z.land flags PCI_MSI_FLAGS_MASKBIT)) then InitOk XEN_PT_INVALID_REG
  else if xen_pt_msi_check_type (offset reg) flags PCI_MSI_PENDING_32 PCI_MSI_PENDING_64
  then InitOk (init_val reg)
  else InitOk XEN_PT_INVALID_REG.

(** The initialisers named by the table of the MSI capability. *)
Inductive MsiRegInit :=
| MsiInit_ptr
| MsiInit_msgctrl
| MsiInit_common
| MsiInit_msgaddr64
| MsiInit_msgdata
| MsiInit_mask
| MsiInit_pending.

(** A row of the table: the descriptor and its [.init].  The field [init]
    of the descriptor holds the same initialiser where [RegInit] has a tag
    for it. *)
Definition msi_row (off sz iv res ro rw1c emu : Z) (i : MsiRegInit)
  : XenPTRegInfo * MsiRegInit :=
  ({| offset := off; size := sz; init_val := iv; res_mask := res; ro_mask := ro;
      rw1c_mask := rw1c; emu_mask := emu;
      init := match i with
              | MsiInit_ptr => Some Init_ptr
              | MsiInit_msgctrl => Some Init_msgctrl
              | MsiInit_common => Some Init_common
              | MsiInit_msgaddr64 => Some Init_msgaddr64
              | _ => None
              end |}, i).

(** MSI Capability Structure reg static information table
    ([xen_pt_emu_reg_msi], without the terminating entry of size 0). *)
Definition xen_pt_emu_reg_msi : list (XenPTRegInfo * MsiRegInit) :=
  [ (* Next Pointer reg *)
    msi_row PCI_CAP_LIST_NEXT 1 0x00 0 0xFF 0 0xFF MsiInit_ptr;
    (* Message Control reg *)
    msi_row PCI_MSI_FLAGS 2 0x0000 0xFE00 0x018E 0 0x017E MsiInit_msgctrl;
    (* Message Address reg *)
    msi_row PCI_MSI_ADDRESS_LO 4 0x00000000 0 0x00000003 0 0xFFFFFFFF MsiInit_common;
    (* Message Upper Address reg (if PCI_MSI_FLAGS_64BIT set) *)
    msi_row PCI_MSI_ADDRESS_HI 4 0x00000000 0 0x00000000 0 0xFFFFFFFF MsiInit_msgaddr64;
    (* Message Data reg (16 bits of data for 32-bit devices) *)
    msi_row PCI_MSI_DATA_32 2 0x0000 0 0x0000 0 0xFFFF MsiInit_msgdata;
    (* Message Data reg (16 bits of data for 64-bit devices) *)
    msi_row PCI_MSI_DATA_64 2 0x0000 0 0x0000 0 0xFFFF MsiInit_msgdata;
    (* Mask reg (if PCI_MSI_FLAGS_MASKBIT set, for 32-bit devices) *)
    msi_row PCI_MSI_MASK_32 4 0x00000000 0 0xFFFFFFFF 0 0xFFFFFFFF MsiInit_mask;
    (* Mask reg (if PCI_MSI_FLAGS_MASKBIT set, for 64-bit devices) *)
    msi_row PCI_MSI_MASK_64 4 0x00000000 0 0xFFFFFFFF 0 0xFFFFFFFF MsiInit_mask;
    (* Pending reg (if PCI_MSI_FLAGS_MASKBIT set, for 32-bit devices) *)
    msi_row (PCI_MSI_MASK_32 + 4) 4 0x00000000 0 0xFFFFFFFF 0 0x00000000 MsiInit_pending;
    (* Pending reg (if PCI_MSI_FLAGS_MASKBIT set, for 64-bit devices) *)
    msi_row (PCI_MSI_MASK_64 + 4) 4 0x00000000 0 0xFFFFFFFF 0 0x00000000 MsiInit_pending ].

(** [reg->init(s, reg, real_offset, &data)] for a row of the table. *)
Definition msi_run_init (i : MsiRegInit) (fuel : nat) (s : XenPCIPassthroughState)
  (reg : XenPTRegInfo) (real_offset : Z)
  : option (init_result * XenPCIPassthroughState) :=
  match i with
  | MsiInit_ptr => xen_pt_ptr_reg_init fuel s reg real_offset
  | MsiInit_msgctrl => Some (xen_pt_msgctrl_reg_init s reg real_offset)
  | MsiInit_common => Some (InitOk (snd (xen_pt_common_reg_init s reg real_offset)), s)
  | MsiInit_msgaddr64 => Some (xen_pt_msgaddr64_reg_init s reg real_offset, s)
  | MsiInit_msgdata => Some (xen_pt_msgdata_reg_init s reg real_offset, s)
  | MsiInit_mask => Some (xen_pt_mask_reg_init s reg real_offset, s)
  | MsiInit_pending => Some (xen_pt_pending_reg_init s reg real_offset, s)
  end.

(** The bytes [offset, offset + size) of a descriptor, relative to the base
    of its group. *)
Definition reg_span (reg : XenPTRegInfo) (a : Z) : Prop :=
  offset reg <= a < offset reg + size reg.

Section MsiWrites.

(** [xen_pt_msi_update] of [xen_pt_msi.c]. *)
Variable xen_pt_msi_update : XenPCIPassthroughState -> Z * XenPCIPassthroughState.

Definition set_msi_addr_lo (s : XenPCIPassthroughState) (a : Z) :=
  set_msi s {| flags := flags (msi s); initialized := initialized (msi s);
               mapped := mapped (msi s); addr_lo := a;
               addr_hi := addr_hi (msi s); msi_data := msi_data (msi s);
               ctrl_offset := ctrl_offset (msi s) |}.

Definition set_msi_data (s : XenPCIPassthroughState) (a : Z) :=
  set_msi s {| flags := flags (msi s); initialized := initialized (msi s);
               mapped := mapped (msi s); addr_lo := addr_lo (msi s);
               addr_hi := addr_hi (msi s); msi_data := a;
               ctrl_offset := ctrl_offset (msi s) |}.

(** write Message Address register *)
Definition xen_pt_msgaddr32_reg_write (s : XenPCIPassthroughState)
  (cfg_entry : XenPTReg) (val dev_value valid_mask : Z)
  : Z * Z * XenPCIPassthroughState :=
  let reg := reg cfg_entry in
  let old_addr := pci_get_long (dev_config s) (ptr cfg_entry) in
  let data := pci_get_long (dev_config s) (ptr cfg_entry) in
  (* modify emulate register *)
  let writable_mask :=
    uint32 (Z.land (Z.land (emu_mask reg) (not32 (ro_mask reg))) valid_mask) in
  let data := uint32 (XEN_PT_MERGE_VALUE val data writable_mask) in
  let s := set_dev_config s (pci_set_long (dev_config s) (ptr cfg_entry) data) in
  let s := set_msi_addr_lo s data in
  (* create value for writing to I/O device register *)
  let val := uint32 (XEN_PT_MERGE_VALUE val dev_value 0) in
  (* update MSI *)
  if negb (data =? old_addr) && mapped (msi s)
  then (0, val, snd (xen_pt_msi_update s))
  else (0, val, s).

(** write Message Data register *)
Definition xen_pt_msgdata_reg_write (s : XenPCIPassthroughState)
  (cfg_entry : XenPTReg) (val dev_value valid_mask : Z)
  : Z * Z * XenPCIPassthroughState :=
  let reg := reg cfg_entry in
  let old_data := pci_get_word (dev_config s) (ptr cfg_entry) in
  let offset := offset reg in
  let data := pci_get_word (dev_config s) (ptr cfg_entry) in
  (* check the offset whether matches the type or not *)
  if negb (xen_pt_msi_check_type offset (flags (msi s)) PCI_MSI_DATA_32 PCI_MSI_DATA_64)
  then
    (* exit I/O emulator *)
    (-1, val, XEN_PT_ERR "the offset does not match the 32/64 bit type!" s)
  else
    (* modify emulate register *)
    let writable_mask :=
      uint16 (Z.land (Z.land (emu_mask reg) (not32 (ro_mask reg))) valid_mask) in
    let data := uint16 (XEN_PT_MERGE_VALUE val data writable_mask) in
    let s := set_dev_config s (pci_set_word (dev_config s) (ptr cfg_entry) data) in
    (* update the msi_info too *)
    let s := set_msi_data s data in
    (* create value for writing to I/O device register *)
    let val := uint16 (XEN_PT_MERGE_VALUE val dev_value 0) in
    (* update MSI *)
    if negb (data =? old_data) && mapped (msi s)
    then (0, val, snd (xen_pt_msi_update s))
    else (0, val, s).

End MsiWrites.

(** What a write handler may do to the state on a path that calls no
    backend: the guest-visible image and the MSI record change, nothing
    else. *)
Definition same_but_image_and_msi (s s' : XenPCIPassthroughState) : Prop :=
  real_device s' = real_device s /\ reg_grps s' = reg_grps s /\
  permissive s' = permissive s /\ fake_cap_id s' = fake_cap_id s /\
  log s' = log s.

End MsiCap.
Import MsiCap.

Module MsiLayoutSpec.

(** A row is materialised when its initialiser succeeds with a value other
    than [XEN_PT_INVALID_REG]: [xen_pt_config_reg_init] then creates the
    register. *)
Definition materialises (fuel : nat) (s : XenPCIPassthroughState) (base : Z)
  (row : XenPTRegInfo * MsiRegInit) : Prop :=
  exists data s',
    msi_run_init (snd row) fuel s (fst row) (uint32 (base + offset (fst row)))
    = Some (InitOk data, s') /\
    data <> XEN_PT_INVALID_REG.

(** The rows of [xen_pt_emu_reg_msi] by position. *)
Definition msi_rows (positions : list nat) : list (XenPTRegInfo * MsiRegInit) :=
  flat_map (fun n => match nth_error xen_pt_emu_reg_msi n with
                     | Some row => [row]
                     | None => []
                     end) positions.

(** The rows that belong to a capability with or without 64-bit addresses
    and per-vector masking. *)
Definition msi_layout (is_64bit maskbit : bool) : list (XenPTRegInfo * MsiRegInit) :=
  msi_rows
    (match is_64bit, maskbit with
     | false, false => [0; 1; 2; 4]
     | true, false => [0; 1; 2; 3; 5]
     | false, true => [0; 1; 2; 4; 6; 8]
     | true, true => [0; 1; 2; 3; 5; 7; 9]
     end)%nat.

(** The registers that materialise lie inside the resolved size and do not
    overlap. *)
Definition fits_and_disjoint (fuel : nat) (base w size : Z) : Prop :=
  (forall s row,
     flags (msi s) = w -> In row xen_pt_emu_reg_msi ->
     materialises fuel s base row ->
     0 <= offset (fst row) /\ offset (fst row) + XenPt.size (fst row) <= size) /\
  (forall s s' row row',
     flags (msi s) = w -> flags (msi s') = w ->
     In row xen_pt_emu_reg_msi -> In row' xen_pt_emu_reg_msi -> row <> row' ->
     materialises fuel s base row -> materialises fuel s' base row' ->
     forall a, reg_span (fst row) a -> ~ reg_span (fst row') a).

End MsiLayoutSpec.

(** ** The PCI Express capability *)

Module PcieCap.

(** Modelled from the spec: the layout of the PCI Express capability
    ([pci_regs.h]); the values are those of the PCI Express specification. *)
Definition PCI_EXP_FLAGS := 2.
Definition PCI_EXP_FLAGS_VERS := 0x000f.
Definition PCI_EXP_FLAGS_TYPE := 0x00f0.
Definition PCI_EXP_TYPE_ENDPOINT := 0x0.
Definition PCI_EXP_TYPE_LEG_END := 0x1.
Definition PCI_EXP_TYPE_ROOT_PORT := 0x4.
Definition PCI_EXP_TYPE_UPSTREAM := 0x5.
Definition PCI_EXP_TYPE_DOWNSTREAM := 0x6.
Definition PCI_EXP_TYPE_PCI_BRIDGE := 0x7.
Definition PCI_EXP_TYPE_PCIE_BRIDGE := 0x8.
Definition PCI_EXP_TYPE_RC_END := 0x9.
Definition PCI_EXP_TYPE_RC_EC := 0xa.
Definition PCI_EXP_DEVCAP := 4.
Definition PCI_EXP_DEVCTL := 8.
Definition PCI_EXP_DEVSTA := 10.
Definition PCI_EXP_LNKCAP := 12.
Definition PCI_EXP_LNKCAP_SLS := 0x0000000f.
Definition PCI_EXP_LNKCTL := 16.
Definition PCI_EXP_LNKSTA := 18.
Definition PCI_EXP_DEVCAP2 := 36.

(** The two accessors start with [assert(s->real_device.pcie_flags !=
    0xFFFF)]: [None] is the failed assertion, which aborts the process. *)
Definition get_pcie_capability_version (s : XenPCIPassthroughState) : option Z :=
  if pcie_flags (real_device s) =? 0xFFFF then None
  else Some (uint8 (Z.land (pcie_flags (real_device s)) PCI_EXP_FLAGS_VERS)).

Definition get_pcie_device_type (s : XenPCIPassthroughState) : option Z :=
  if pcie_flags (real_device s) =? 0xFFFF then None
  else Some (uint8 (Z.shiftr (Z.land (pcie_flags (real_device s)) PCI_EXP_FLAGS_TYPE) 4)).

(** The [switch (type)] of either branch of [xen_pt_pcie_size_init]:
    [Some pcie_size], or [None] for the unsupported types. *)
Definition pcie_size_v1 (type : Z) : option Z :=
  if (type =? PCI_EXP_TYPE_ENDPOINT) || (type =? PCI_EXP_TYPE_LEG_END) then Some 0x14
  else if type =? PCI_EXP_TYPE_RC_END then
    (* has no link *)
    Some 0x0C
  else
    (* only EndPoint passthrough is supported *)
    None.

Definition pcie_size_v2 (type : Z) : option Z :=
  if (type =? PCI_EXP_TYPE_ENDPOINT) || (type =? PCI_EXP_TYPE_LEG_END)
     || (type =? PCI_EXP_TYPE_RC_END)
  then Some 0x3C
  else
    (* only EndPoint passthrough is supported *)
    None.

(** get PCI Express Capability Structure register group size.  The outer
    [option] is [None] when an assertion fails; otherwise the status, the size
    when one is stored, and the state. *)
Definition xen_pt_pcie_size_init (s : XenPCIPassthroughState) (base_offset : Z)
  : option (Z * option Z * XenPCIPassthroughState) :=
  match get_pcie_capability_version s, get_pcie_device_type s with
  | Some version, Some type =>
      (* calculate size depend on capability version and device/port type *)
      if version =? 1 then
        (* in case of PCI Express Base Specification Rev 1.x *)
        match pcie_size_v1 type with
        | Some pcie_size => Some (0, Some pcie_size, s)
        | None => Some (-1, None, XEN_PT_ERR "Unsupported device/port type" s)
        end
      else if version =? 2 then
        (* in case of PCI Express Base Specification Rev 2.0 *)
        match pcie_size_v2 type with
        | Some pcie_size => Some (0, Some pcie_size, s)
        | None => Some (-1, None, XEN_PT_ERR "Unsupported device/port type" s)
        end
      else Some (-1, None, XEN_PT_ERR "Unsupported capability version" s)
  | _, _ => None
  end.

(** initialize Link Control register.  The value [XEN_PT_INVALID_REG] stored
    for a Root Complex Integrated Endpoint of version 1 is overwritten by the
    unconditional assignment that follows. *)
Definition xen_pt_linkctrl_reg_init (s : XenPCIPassthroughState)
  (reg : XenPTRegInfo) (real_offset : Z) : option init_result :=
  match get_pcie_capability_version s, get_pcie_device_type s with
  | Some cap_ver, Some dev_type =>
      let data := 0 in
      let data :=
        if (dev_type =? PCI_EXP_TYPE_RC_END) && (cap_ver =? 1)
        then XEN_PT_INVALID_REG else data in
      let data := init_val reg in
      Some (InitOk data)
  | _, _ => None
  end.

(** initialize Device Control 2 register *)
Definition xen_pt_devctrl2_reg_init (s : XenPCIPassthroughState)
  (reg : XenPTRegInfo) (real_offset : Z) : option init_result :=
  match get_pcie_capability_version s with
  | Some cap_ver =>
      let data := 0 in
      (* no need to initialize in case of cap_ver 1.x *)
      let data := if cap_ver =? 1 then XEN_PT_INVALID_REG else data in
      let data := init_val reg in
      Some (InitOk data)
  | None => None
  end.

(** initialize Link Control 2 register *)
Definition xen_pt_linkctrl2_reg_init (s : XenPCIPassthroughState)
  (reg : XenPTRegInfo) (real_offset : Z) : option init_result :=
  match get_pcie_capability_version s with
  | Some cap_ver =>
      let reg_field := 0 in
      (* no need to initialize in case of cap_ver 1.x *)
      if cap_ver =? 1 then Some (InitOk XEN_PT_INVALID_REG)
      else
        (* set Supported Link Speed *)
        match xen_host_pci_get_byte (real_device s)
                (uint32 (real_offset - offset reg + PCI_EXP_LNKCAP)) with
        | None => Some (InitErr (- EIO))
        | Some lnkcap =>
            Some (InitOk (Z.lor reg_field (Z.land PCI_EXP_LNKCAP_SLS lnkcap)))
        end
  | None => None
  end.

(** initialize PCI Express Capabilities register *)
Definition xen_pt_pcie_capabilities_reg_init (s : XenPCIPassthroughState)
  (reg : XenPTRegInfo) (real_offset : Z)
  : option (init_result * XenPCIPassthroughState) :=
  match get_pcie_device_type s with
  | Some dev_type =>
      match xen_host_pci_get_word (real_device s)
              (uint32 (real_offset - offset reg + PCI_EXP_FLAGS)) with
      | None =>
          Some (InitOk 0, XEN_PT_ERR "Error reading PCIe Capabilities reg" s)
      | Some reg_field =>
          (* Q35 workaround for Win7+ pci.sys PCIe topology check: fake the
             device/port type field to the Root Complex integrated device *)
          if (dev_type =? PCI_EXP_TYPE_ENDPOINT) || (dev_type =? PCI_EXP_TYPE_LEG_END)
          then
            let s := XEN_PT_LOG "Original PCIe Capabilities reg" s in
            let reg_field := uint16 (Z.land reg_field (Z.lnot PCI_EXP_FLAGS_TYPE)) in
            let reg_field :=
              uint16 (Z.lor reg_field
                        (Z.land (Z.shiftl PCI_EXP_TYPE_RC_END 4) PCI_EXP_FLAGS_TYPE)) in
            Some (InitOk reg_field,
                  XEN_PT_LOG "Q35 PCIe topology check workaround" s)
          else
            (* do nothing, return as is *)
            Some (InitOk reg_field, s)
      end
  | None => None
  end.

(** The initialisers named by the table of the PCI Express capability. *)
Inductive PcieRegInit :=
| PcieInit_ptr
| PcieInit_pcie_capabilities
| PcieInit_common
| PcieInit_linkctrl
| PcieInit_devctrl2
| PcieInit_linkctrl2.

(** A row of the table: the descriptor and its [.init].  The field [init]
    of the descriptor holds the same initialiser where [RegInit] has a tag
    for it. *)
Definition pcie_row (off sz iv res ro rw1c emu : Z) (i : PcieRegInit)
  : XenPTRegInfo * PcieRegInit :=
  ({| offset := off; size := sz; init_val := iv; res_mask := res; ro_mask := ro;
      rw1c_mask := rw1c; emu_mask := emu;
      init := match i with
              | PcieInit_ptr => Some Init_ptr
              | PcieInit_common => Some Init_common
              | _ => None
              end |}, i).

(** PCI Express Capability Structure reg static information table
    ([xen_pt_emu_reg_pcie], without the terminating entry of size 0). *)
Definition xen_pt_emu_reg_pcie : list (XenPTRegInfo * PcieRegInit) :=
  [ (* Next Pointer reg *)
    pcie_row PCI_CAP_LIST_NEXT 1 0x00 0 0xFF 0 0xFF PcieInit_ptr;
    (* PCI Express Capabilities Register *)
    pcie_row PCI_EXP_FLAGS 2 0x0000 0 0xFFFF 0 0xFFFF PcieInit_pcie_capabilities;
    (* Device Capabilities reg *)
    pcie_row PCI_EXP_DEVCAP 4 0x00000000 0 0xFFFFFFFF 0 0x10000000 PcieInit_common;
    (* Device Control reg *)
    pcie_row PCI_EXP_DEVCTL 2 0x2810 0 0x8400 0 0xFFFF PcieInit_common;
    (* Device Status reg *)
    pcie_row PCI_EXP_DEVSTA 2 0 0xFFC0 0x0030 0x000F 0 PcieInit_common;
    (* Link Control reg *)
    pcie_row PCI_EXP_LNKCTL 2 0x0000 0 0xFC34 0 0xFFFF PcieInit_linkctrl;
    (* Link Status reg *)
    pcie_row PCI_EXP_LNKSTA 2 0 0 0x3FFF 0xC000 0 PcieInit_common;
    (* Device Control 2 reg *)
    pcie_row 0x28 2 0x0000 0 0xFFE0 0 0xFFFF PcieInit_devctrl2;
    (* Link Control 2 reg *)
    pcie_row 0x30 2 0x0000 0 0xE040 0 0xFFFF PcieInit_linkctrl2 ].

(** [reg->init(s, reg, real_offset, &data)] for a row of the table; the outer
    [option] is [None] when an assertion fails or the fuel of the pointer
    walk runs out. *)
Definition pcie_run_init (i : PcieRegInit) (fuel : nat) (s : XenPCIPassthroughState)
  (reg : XenPTRegInfo) (real_offset : Z)
  : option (init_result * XenPCIPassthroughState) :=
  match i with
  | PcieInit_ptr => xen_pt_ptr_reg_init fuel s reg real_offset
  | PcieInit_pcie_capabilities => xen_pt_pcie_capabilities_reg_init s reg real_offset
  | PcieInit_common => Some (InitOk (snd (xen_pt_common_reg_init s reg real_offset)), s)
  | PcieInit_linkctrl =>
      option_map (fun r => (r, s)) (xen_pt_linkctrl_reg_init s reg real_offset)
  | PcieInit_devctrl2 =>
      option_map (fun r => (r, s)) (xen_pt_devctrl2_reg_init s reg real_offset)
  | PcieInit_linkctrl2 =>
      option_map (fun r => (r, s)) (xen_pt_linkctrl2_reg_init s reg real_offset)
  end.

(** Endpoints, the device types that can be passed through. *)
Definition is_endpoint_type (type : Z) : Prop :=
  type = PCI_EXP_TYPE_ENDPOINT \/ type = PCI_EXP_TYPE_LEG_END \/
  type = PCI_EXP_TYPE_RC_END.

End PcieCap.
Import PcieCap.

(** ** The remaining size resolvers *)

Module ExtSizes.

(** Modelled from the spec: field offsets and masks of the capabilities
    below ([pci_regs.h]); the values are those of the PCI Express
    specification. *)
Definition PCI_VNDR_HEADER := 4.
Definition PCI_VNDR_HEADER_LEN (x : Z) : Z := Z.land (Z.shiftr x 20) 0xfff.
Definition PCI_ERR_CAP := 24.
Definition PCI_ACS_CAP := 0x04.
Definition PCI_ACS_EC := 0x20.
Definition PCI_ACS_EGRESS_CTL_V := 0x08.
Definition PCI_EXT_CAP_MCAST_ENDPOINT_SIZEOF := 40.
Definition PCI_REBAR_CTRL := 8.
Definition PCI_REBAR_CTRL_NBAR_MASK := 0x000000E0.
Definition PCI_REBAR_CTRL_NBAR_SHIFT := 5.

(** Defined in the source file itself. *)
Definition PCI_ERR_CAP_TLP_PREFIX_LOG := Z.shiftl 1 11.
Definition PCI_DEVCAP2_END_END_TLP_PREFIX := Z.shiftl 1 21.
Definition RCLD_GET_NUM_ENTRIES (x : Z) : Z := Z.land (Z.shiftr x 8) 0xFF.
Definition ACS_VECTOR_SIZE_BITS (x : Z) : Z :=
  if truthy (Z.land (Z.shiftr x 8) 0xFF) then Z.land (Z.shiftr x 8) 0xFF else 256.

Definition xen_pt_reg_grp_size_init (s : XenPCIPassthroughState)
  (grp_reg : XenPTRegGroupInfo) (base_offset : Z) : Z * Z :=
  (0, grp_size grp_reg).

(** get Vendor Specific Capability Structure register group size *)
Definition xen_pt_vendor_size_init (s : XenPCIPassthroughState) (base_offset : Z)
  : Z * Z :=
  let r := xen_host_pci_get_byte (real_device s) (uint32 (base_offset + 0x02)) in
  let sz := or_zero r in
  (host_rc r, sz).

Definition xen_pt_ext_cap_vendor_size_init (s : XenPCIPassthroughState)
  (base_offset : Z) : Z * Z * XenPCIPassthroughState :=
  let r := xen_host_pci_get_long (real_device s)
             (uint32 (base_offset + PCI_VNDR_HEADER)) in
  let vsec_hdr := or_zero r in
  let size := PCI_VNDR_HEADER_LEN vsec_hdr in
  (host_rc r, size, log_pcie_extended_cap s "Vendor-specific" base_offset size).

Section Aer.

Variable CAP_ID_ANY : Z.

(** get Advanced Error Reporting Extended Capability register group size.
    [devcaps2] is declared without an initial value and is read only when the
    capability version is above 1: [devcaps2_0] is what the object holds
    otherwise.  The outer [option] is [None] when the assertion of
    [get_pcie_device_type] fails. *)
Definition xen_pt_ext_cap_aer_size_init (devcaps2_0 : Z) (s : XenPCIPassthroughState)
  (base_offset : Z) : option (Z * option Z * XenPCIPassthroughState) :=
  match get_pcie_device_type s with
  | None => None
  | Some dev_type =>
      let aer_caps := 0 in
      let sz := 0 in
      let pcie_cap_pos :=
        xen_host_pci_find_next_cap CAP_ID_ANY (real_device s) 0 PCI_CAP_ID_EXP in
      if pcie_cap_pos =? 0 then
        Some (-1, None,
              XEN_PT_ERR "Cannot find a required PCI Express Capability" s)
      else
        match get_pcie_capability_version s with
        | None => None
        | Some version =>
            let r2 :=
              if 1 <? version then
                xen_host_pci_get_long (real_device s)
                  (pcie_cap_pos + PCI_EXP_DEVCAP2)
              else Some devcaps2_0 in
            match r2 with
            | None =>
                Some (-1, None,
                      XEN_PT_ERR "Error while reading Device Capabilities 2 Register" s)
            | Some devcaps2 =>
                let r :=
                  if truthy (Z.land devcaps2 PCI_DEVCAP2_END_END_TLP_PREFIX) then
                    match xen_host_pci_get_long (real_device s)
                            (uint32 (base_offset + PCI_ERR_CAP)) with
                    | None => None
                    | Some aer_caps =>
                        Some (if truthy (Z.land aer_caps PCI_ERR_CAP_TLP_PREFIX_LOG)
                              then 0x48 else sz)
                    end
                  else Some sz in
                match r with
                | None =>
                    Some (-1, None,
                          XEN_PT_ERR "Error while reading AER Extended Capability" s)
                | Some sz =>
                    let sz :=
                      if negb (truthy sz) then
                        if (dev_type =? PCI_EXP_TYPE_ROOT_PORT)
                           || (dev_type =? PCI_EXP_TYPE_RC_EC)
                        then 0x38 else 0x2C
                      else sz in
                    Some (0, Some sz, log_pcie_extended_cap s "AER" base_offset sz)
                end
            end
        end
  end.

End Aer.

(** get Root Complex Link Declaration Extended Capability register group size *)
Definition xen_pt_ext_cap_rcld_size_init (s : XenPCIPassthroughState)
  (base_offset : Z) : Z * Z * XenPCIPassthroughState :=
  let r := xen_host_pci_get_long (real_device s) (uint32 (base_offset + 4)) in
  let elem_self_descr := or_zero r in
  let size := uint32 (0x10 + RCLD_GET_NUM_ENTRIES elem_self_descr * 0x10) in
  (host_rc r, size,
   log_pcie_extended_cap s "Root Complex Link Declaration" base_offset size).

(** get Access Control Services Extended Capability register group size *)
Definition xen_pt_ext_cap_acs_size_init (s : XenPCIPassthroughState)
  (base_offset : Z) : Z * Z * XenPCIPassthroughState :=
  let r := xen_host_pci_get_word (real_device s) (uint32 (base_offset + PCI_ACS_CAP)) in
  let acs_caps := or_zero r in
  let size :=
    if truthy (Z.land acs_caps PCI_ACS_EC) then
      let vector_sz := ACS_VECTOR_SIZE_BITS acs_caps in
      uint32 (PCI_ACS_EGRESS_CTL_V + Z.land (uint32 (vector_sz + 7)) (not32 7) / 8)
    else PCI_ACS_EGRESS_CTL_V in
  (host_rc r, size, log_pcie_extended_cap s "ACS" base_offset size).

(** get Multicast Extended Capability register group size; [None] when the
    assertion of [get_pcie_device_type] fails. *)
Definition xen_pt_ext_cap_multicast_size_init (s : XenPCIPassthroughState)
  (base_offset : Z) : option (Z * Z * XenPCIPassthroughState) :=
  match get_pcie_device_type s with
  | None => None
  | Some dev_type =>
      let size :=
        if (dev_type =? PCI_EXP_TYPE_ROOT_PORT) || (dev_type =? PCI_EXP_TYPE_UPSTREAM)
           || (dev_type =? PCI_EXP_TYPE_DOWNSTREAM)
        then 0x30
        else PCI_EXT_CAP_MCAST_ENDPOINT_SIZEOF in
      Some (0, size, log_pcie_extended_cap s "Multicast" base_offset size)
  end.

(** get Resizable BAR Extended Capability register group size *)
Definition xen_pt_ext_cap_rebar_size_init (s : XenPCIPassthroughState)
  (base_offset : Z) : Z * Z * XenPCIPassthroughState :=
  let r := xen_host_pci_get_long (real_device s)
             (uint32 (base_offset + PCI_REBAR_CTRL)) in
  let rebar_ctl := or_zero r in
  let num_entries :=
    Z.shiftr (Z.land rebar_ctl PCI_REBAR_CTRL_NBAR_MASK) PCI_REBAR_CTRL_NBAR_SHIFT in
  let size := uint32 (num_entries * 8 + 4) in
  (host_rc r, size, log_pcie_extended_cap s "Resizable BAR" base_offset size).

End ExtSizes.
Import ExtSizes.

Module ExtSizesSpec.

(** A resolver that reads one host field: it returns the status of that read,
    its size lies between [lo] and [hi], and a failed read still stores a
    size, the one computed from a field of 0. *)
Definition sized_within (r : option Z) (rc size lo hi at_zero : Z) : Prop :=
  rc = host_rc r /\ lo <= size <= hi /\ (r = None -> size = at_zero).

End ExtSizesSpec.

(** ** Header registers with handlers of their own *)

Module Header.

(** Modelled from the spec: the INTx-disable bit of the Command register
    ([pci_regs.h]). *)
Definition PCI_COMMAND_INTX_DISABLE := 0x400.

(** Command register.  [machine_irq] is the field [s->machine_irq], which the
    state record does not carry. *)
Definition xen_pt_cmd_reg_write (machine_irq : Z) (s : XenPCIPassthroughState)
  (cfg_entry : XenPTReg) (val dev_value valid_mask : Z)
  : Z * Z * XenPCIPassthroughState :=
  let reg := reg cfg_entry in
  let throughable_mask := uint16 (get_throughable_mask s reg valid_mask) in
  let data := pci_get_word (dev_config s) (ptr cfg_entry) in
  (* modify emulate register *)
  let writable_mask := uint16 (Z.land (not32 (ro_mask reg)) valid_mask) in
  let data := uint16 (XEN_PT_MERGE_VALUE val data writable_mask) in
  (* create value for writing to I/O device register *)
  let throughable_mask :=
    if truthy (Z.land val PCI_COMMAND_INTX_DISABLE) then
      uint16 (Z.lor throughable_mask PCI_COMMAND_INTX_DISABLE)
    else if truthy machine_irq then
      uint16 (Z.lor throughable_mask PCI_COMMAND_INTX_DISABLE)
    else throughable_mask in
  let val := uint16 (XEN_PT_MERGE_VALUE val dev_value throughable_mask) in
  (0, val, set_dev_config s (pci_set_word (dev_config s) (ptr cfg_entry) data)).

(** The Command register as attach creates it. *)
Definition command_entry : XenPTReg := {| reg := reg_command; ptr := PCI_COMMAND |}.

End Header.
Import Header.

(** ** Base address registers *)

Module Bar.

(** Modelled from the spec: [XenPTBarFlag], [XEN_PT_BAR_ALLF] and the number
    of regions ([xen_pt.h], [pci.h]). *)
Inductive XenPTBarFlag :=
| XEN_PT_BAR_FLAG_MEM
| XEN_PT_BAR_FLAG_IO
| XEN_PT_BAR_FLAG_UPPER
| XEN_PT_BAR_FLAG_UNUSED.

Definition PCI_NUM_REGIONS := 7.
Definition XEN_PT_BAR_ALLF := 0xFFFFFFFF.

Definition XEN_PT_BAR_MEM_RO_MASK := 0x0000000F.  (* BAR ReadOnly mask(Memory) *)
Definition XEN_PT_BAR_MEM_EMU_MASK := 0xFFFFFFF0. (* BAR emul mask(Memory) *)
Definition XEN_PT_BAR_IO_RO_MASK := 0x00000003.   (* BAR ReadOnly mask(I/O) *)
Definition XEN_PT_BAR_IO_EMU_MASK := 0xFFFFFFFC.  (* BAR emul mask(I/O) *)

(** What the BAR handlers consult outside the state record: the flag of each
    base ([s->bases[i].bar_flag]), the size of each emulated region
    ([PCI_DEVICE(s)->io_regions[i].size], 64 bits wide) and the value of
    [base_address_with_flags(&s->real_device.io_regions[i])]. *)
Record BarRegions := {
  bar_flag : Z -> XenPTBarFlag;
  io_region_size : Z -> Z;
  host_base_address_with_flags : Z -> Z
}.

Section BarHandlers.

(** The two inline helpers of [xen_pt.h]. *)
Variable xen_pt_bar_offset_to_index : Z -> Z.
Variable xen_pt_get_emul_size : XenPTBarFlag -> Z -> Z.

(** The masks that [xen_pt_bar_reg_write] sets from the flag of the base:
    [(bar_emu_mask, bar_ro_mask)], or [None] when [assert(index > 0)] fails
    for the upper half of a 64-bit base. *)
Definition bar_write_masks (b : BarRegions) (index : Z) : option (Z * Z) :=
  let r_size := uint32 (xen_pt_get_emul_size (bar_flag b index) (io_region_size b index)) in
  match bar_flag b index with
  | XEN_PT_BAR_FLAG_MEM =>
      Some (XEN_PT_BAR_MEM_EMU_MASK,
            if negb (truthy r_size) then
              (* low 32 bits mask for 64 bit bars *)
              XEN_PT_BAR_ALLF
            else uint32 (Z.lor XEN_PT_BAR_MEM_RO_MASK (uint32 (r_size - 1))))
  | XEN_PT_BAR_FLAG_IO =>
      Some (XEN_PT_BAR_IO_EMU_MASK,
            uint32 (Z.lor XEN_PT_BAR_IO_RO_MASK (uint32 (r_size - 1))))
  | XEN_PT_BAR_FLAG_UPPER =>
      if 0 <? index then
        let r_size := uint32 (Z.shiftr (io_region_size b (index - 1)) 32) in
        Some (XEN_PT_BAR_ALLF, if truthy r_size then uint32 (r_size - 1) else 0)
      else None
  | XEN_PT_BAR_FLAG_UNUSED => Some (0, 0)
  end.

(** A writer returns the status, the value for the device and the state;
    [None] is a failed assertion. *)
Definition xen_pt_bar_reg_write (b : BarRegions) (s : XenPCIPassthroughState)
  (cfg_entry : XenPTReg) (val dev_value valid_mask : Z)
  : option (Z * Z * XenPCIPassthroughState) :=
  let reg := reg cfg_entry in
  let data := pci_get_long (dev_config s) (ptr cfg_entry) in
  let index := xen_pt_bar_offset_to_index (offset reg) in
  if (index <? 0) || (index >=? PCI_NUM_REGIONS) then
    Some (-1, val, XEN_PT_ERR "Internal error: Invalid BAR index" s)
  else
    (* set emulate mask and read-only mask values depend on the BAR flag *)
    match bar_write_masks b index with
    | None => None
    | Some (bar_emu_mask, bar_ro_mask) =>
        (* modify emulate register *)
        let writable_mask :=
          uint32 (Z.land (Z.land bar_emu_mask (not32 bar_ro_mask)) valid_mask) in
        let data := uint32 (XEN_PT_MERGE_VALUE val data writable_mask) in
        (* create value for writing to I/O device register *)
        let val := uint32 (XEN_PT_MERGE_VALUE val dev_value 0) in
        Some (0, val,
              set_dev_config s (pci_set_long (dev_config s) (ptr cfg_entry) data))
    end.

(** The emulate mask that [xen_pt_bar_reg_read] sets from the flag. *)
Definition bar_read_emu_mask (b : BarRegions) (index : Z) : Z :=
  match bar_flag b index with
  | XEN_PT_BAR_FLAG_MEM => XEN_PT_BAR_MEM_EMU_MASK
  | XEN_PT_BAR_FLAG_IO => XEN_PT_BAR_IO_EMU_MASK
  | XEN_PT_BAR_FLAG_UPPER => XEN_PT_BAR_ALLF
  | XEN_PT_BAR_FLAG_UNUSED => 0
  end.

(** A reader returns the status, the value for the guest and the state. *)
Definition xen_pt_bar_reg_read (b : BarRegions) (s : XenPCIPassthroughState)
  (cfg_entry : XenPTReg) (value valid_mask : Z) : Z * Z * XenPCIPassthroughState :=
  let reg := reg cfg_entry in
  (* get BAR index *)
  let index := xen_pt_bar_offset_to_index (offset reg) in
  if (index <? 0) || (index >=? PCI_NUM_REGIONS - 1) then
    (-1, value, XEN_PT_ERR "Internal error: Invalid BAR index" s)
  else
    (* use fixed-up value from kernel sysfs *)
    let value := uint32 (host_base_address_with_flags b index) in
    (* set emulate mask depend on BAR flag *)
    let bar_emu_mask := bar_read_emu_mask b index in
    (* emulate BAR *)
    let valid_emu_mask := uint32 (Z.land bar_emu_mask valid_mask) in
    let value :=
      uint32 (XEN_PT_MERGE_VALUE value (pci_get_long (dev_config s) (ptr cfg_entry))
                                 (not32 valid_emu_mask)) in
    (0, value, s).

End BarHandlers.

(** The bits of a base that the guest can never change: the type and flag
    bits of a memory or I/O BAR, every bit of an unused one. *)
Definition bar_fixed_bits (f : XenPTBarFlag) : Z :=
  match f with
  | XEN_PT_BAR_FLAG_MEM => XEN_PT_BAR_MEM_RO_MASK
  | XEN_PT_BAR_FLAG_IO => XEN_PT_BAR_IO_RO_MASK
  | XEN_PT_BAR_FLAG_UPPER => 0
  | XEN_PT_BAR_FLAG_UNUSED => 0xFFFFFFFF
  end.

End Bar.
Import Bar.

(** ** Where attach creates the register groups *)

Module ConfigInit.

Section Placement.

Variable CAP_ID_ANY : Z.

(** [pcie_enabled_dev] is the field [s->pcie_enabled_dev], which the state
    record does not carry. *)
Definition find_cap_offset (pcie_enabled_dev : bool) (s : XenPCIPassthroughState)
  (cap : Z) : Z :=
  let retval := 0 in
  if IS_PCIE_EXT_CAP_ID cap then
    if pcie_enabled_dev then
      uint32 (xen_host_pci_find_next_ext_cap CAP_ID_ANY (real_device s) 0
                (GET_PCIE_EXT_CAP_ID cap))
    else retval
  else uint32 (xen_host_pci_find_next_cap CAP_ID_ANY (real_device s) 0 cap).

(** The head of the loop body of [xen_pt_config_init] for one entry of the
    catalogue: [None] when the entry is skipped ([continue]), [Some
    reg_grp_offset] when a group is created for it at that offset. *)
Definition reg_grp_placement (pcie_enabled_dev : bool) (s : XenPCIPassthroughState)
  (g : XenPTRegGroupInfo) : option Z :=
  let reg_grp_offset := 0 in
  if negb (grp_id g =? 0xFF) && negb (grp_id g =? XEN_PCI_INTEL_OPREGION) then
    if xen_pt_hide_dev_cap (real_device s) (grp_id g) then None
    else
      let reg_grp_offset := find_cap_offset pcie_enabled_dev s (grp_id g) in
      if reg_grp_offset =? 0 then None
      else Some reg_grp_offset
  else
    (* By default we will trap up to 0x40 in the cfg space.  If an intel
       device is pass through we need to trap 0xfc *)
    if grp_id g =? XEN_PCI_INTEL_OPREGION then Some XEN_PCI_INTEL_OPREGION
    else Some reg_grp_offset.

End Placement.

(** The group of [g] stands on a capability of the host that carries the id
    of [g]: an id byte for a legacy capability, a plausible header with that
    id at or above 0x100 for an extended one. *)
Definition stands_on_capability (d : XenHostPCIDevice) (g : XenPTRegGroupInfo)
  (off : Z) : Prop :=
  if IS_PCIE_EXT_CAP_ID (grp_id g) then
    PCI_CONFIG_SPACE_SIZE <= off /\
    exists header,
      ext_header_at d off header /\
      PCI_EXT_CAP_ID header = GET_PCIE_EXT_CAP_ID (grp_id g)
  else
    0 < off < 0x100 /\ xen_host_pci_get_byte d (off + PCI_CAP_LIST_ID) = Some (grp_id g).

End ConfigInit.
Import ConfigInit.

(** ** Lists on which the pointer initialisers do not return *)

Module UnboundedWalkSpec.

(** Every capability of [P] lies on the legacy list, is not one that the
    guest is shown (the scan of the catalogue moves on) and names a
    capability of [P] as its next. *)
Definition legacy_cycle_unshown (d : XenHostPCIDevice) (P : Z -> Prop) : Prop :=
  forall c, P c ->
    c <> 0 /\
    ptr_scan_grps d xen_pt_emu_reg_grps c = ScanNext /\
    exists next, xen_host_pci_get_byte d (c + PCI_CAP_LIST_NEXT) = Some next /\ P next.

(** The same for the extended list. *)
Definition ext_cycle_unshown (d : XenHostPCIDevice) (P : Z -> Prop) : Prop :=
  forall c, P c ->
    c <> 0 /\ c <> 0xFFF /\
    exists header,
      xen_host_pci_get_long d c = Some header /\
      ext_ptr_scan_grps d xen_pt_emu_reg_grps (uint16 (PCI_EXT_CAP_ID header)) = false /\
      P (uint16 (PCI_EXT_CAP_NEXT header)).

End UnboundedWalkSpec.

Module LookupSpec.

(** The group, or the register of a group, covers a configuration-space
    address; the upper end is computed in 32 bits, as in the source. *)
Definition grp_covers (g : XenPTRegGroup) (address : Z) : Prop :=
  base_offset g <= address /\ address < uint32 (base_offset g + grp_sz g).

Definition reg_covers (g : XenPTRegGroup) (e : XenPTReg) (address : Z) : Prop :=
  let real_offset := uint32 (base_offset g + offset (reg e)) in
  real_offset <= address /\ address < uint32 (real_offset + size (reg e)).

(** [x] is the first element of [l] that satisfies [P]. *)
Definition first_such {A} (P : A -> Prop) (l : list A) (x : A) : Prop :=
  exists before after,
    l = before ++ x :: after /\ P x /\ forall y, In y before -> ~ P y.

End LookupSpec.

(** ** Statements of the design document *)

Module Spec.

(** Read: the presented value is the device value merged with the software
    copy under [emu_mask & valid_mask]. *)
Definition read_merges (w : Z)
  (read : XenPCIPassthroughState -> XenPTReg -> Z -> Z -> Z * Z)
  (get : (Z -> byte) -> Z -> Z) : Prop :=
  forall s e value valid_mask,
    let data := get (dev_config s) (ptr e) in
    let m := Z.land (emu_mask (reg e)) valid_mask in
    read s e value valid_mask = (0, cast w (merge value data (Z.lnot m))) /\
    forall i : nat,
      Z.testbit (snd (read s e value valid_mask)) (Z.of_nat i) =
      (Z.of_nat i <? w) &&
      (if Z.testbit m (Z.of_nat i) then Z.testbit data (Z.of_nat i)
       else Z.testbit value (Z.of_nat i)).

(** Write, as the design document has it: write-1-to-clear bits stripped from
    the guest value. *)
Definition forwarded_as_claimed (w : Z) (s : XenPCIPassthroughState)
  (e : XenPTReg) (val dev_value valid_mask : Z) : Z :=
  cast w (merge (Z.land val (Z.lnot (rw1c_mask (reg e)))) dev_value
                (throughable (permissive s) (reg e) valid_mask)).

(** Write, as the code has it: write-1-to-clear bits stripped from the device
    value. *)
Definition forwarded_by_code (w : Z) (s : XenPCIPassthroughState)
  (e : XenPTReg) (val dev_value valid_mask : Z) : Z :=
  cast w (merge val (Z.land dev_value (Z.lnot (rw1c_mask (reg e))))
                (throughable (permissive s) (reg e) valid_mask)).

Definition write_forwards (w : Z)
  (write : XenPCIPassthroughState -> XenPTReg -> Z -> Z -> Z -> Z * Z * XenPCIPassthroughState)
  : Prop :=
  forall s e val dev_value valid_mask,
    fst (write s e val dev_value valid_mask) =
    (0, forwarded_by_code w s e val dev_value valid_mask) /\
    forall i : nat,
      Z.testbit (snd (fst (write s e val dev_value valid_mask))) (Z.of_nat i) =
      (Z.of_nat i <? w) &&
      (if Z.testbit (throughable (permissive s) (reg e) valid_mask) (Z.of_nat i)
       then Z.testbit val (Z.of_nat i)
       else Z.testbit dev_value (Z.of_nat i) &&
            negb (Z.testbit (rw1c_mask (reg e)) (Z.of_nat i))).

(** Round trip of a write followed by a read of the same register. *)
Definition round_trip (w : Z)
  (write : XenPCIPassthroughState -> XenPTReg -> Z -> Z -> Z -> Z * Z * XenPCIPassthroughState)
  (read : XenPCIPassthroughState -> XenPTReg -> Z -> Z -> Z * Z) : Prop :=
  forall s e v dev_value valid_mask hw valid_mask' i,
    let s' := snd (write s e v dev_value valid_mask) in
    let back := snd (read s' e hw valid_mask') in
    0 <= i < w ->
    (Z.testbit (emu_mask (reg e)) i = true ->
     Z.testbit (ro_mask (reg e)) i = false ->
     Z.testbit valid_mask i = true ->
     Z.testbit valid_mask' i = true ->
     Z.testbit back i = Z.testbit v i) /\
    (Z.testbit (Z.lor (emu_mask (reg e)) (ro_mask (reg e))) i = false ->
     Z.testbit back i = Z.testbit hw i).

End Spec.

(** The legacy capability walk: bounded, ending at 0 on a list that never
    ends, and not cut short on a well-formed list. *)
Module WalkSpec.

Definition hops_bounded (CAP_ID_ANY : Z) : Prop :=
  forall d pos cap,
    (find_next_cap_hops CAP_ID_ANY d pos cap <= XEN_HOST_PCI_CAP_MAX)%nat.

Definition has_cap_list (d : XenHostPCIDevice) : Prop :=
  exists status,
    xen_host_pci_get_byte d PCI_STATUS = Some status /\
    Z.land status PCI_STATUS_CAP_LIST <> 0.

Definition endless_gives_zero (CAP_ID_ANY : Z) : Prop :=
  forall d pos cap P,
    has_cap_list d -> cap <> CAP_ID_ANY ->
    endless_walk d cap P -> P (cap_walk_start pos) ->
    xen_host_pci_find_next_cap CAP_ID_ANY d pos cap = 0 /\
    find_next_cap_hops CAP_ID_ANY d pos cap = XEN_HOST_PCI_CAP_MAX.

Definition bound_never_cuts (CAP_ID_ANY : Z) : Prop :=
  forall d pos cap l,
    well_formed_cap_list d (cap_walk_start pos) l ->
    (List.length l <= XEN_HOST_PCI_CAP_MAX)%nat /\
    forall max_cap, (XEN_HOST_PCI_CAP_MAX <= max_cap)%nat ->
      fst (find_next_cap_bounded CAP_ID_ANY max_cap d pos cap) =
      xen_host_pci_find_next_cap CAP_ID_ANY d pos cap.

(** A search that matches nothing: every capability of the list has an id
    that can be read and is neither 0xff nor the one sought. *)
Definition no_match (d : XenHostPCIDevice) (cap : Z) (l : list Z) : Prop :=
  Forall (fun c => exists id,
            xen_host_pci_get_byte d (c + PCI_CAP_LIST_ID) = Some id /\
            id <> 0xff /\ id <> cap) l.

(** On a well-formed list the walk follows the list: it makes at most one hop
    for each capability and one more, which reads the terminating zero; the
    search for an id returns the first capability of the list with that id
    (see [chain_search]), and the search for the wildcard the first
    capability of the list; and a search that matches nothing returns 0 on
    the terminating zero, one hop after the last capability, or, on a list of
    48 capabilities, once it has looked at the last of them (its 48 hops
    are used up and the zero pointer is not read). *)
Definition walk_follows_list (CAP_ID_ANY : Z) : Prop :=
  forall d pos cap l,
    has_cap_list d ->
    well_formed_cap_list d (cap_walk_start pos) l ->
    (find_next_cap_hops CAP_ID_ANY d pos cap <= S (List.length l))%nat /\
    (cap <> CAP_ID_ANY ->
     xen_host_pci_find_next_cap CAP_ID_ANY d pos cap = chain_search d cap l) /\
    (cap = CAP_ID_ANY ->
     xen_host_pci_find_next_cap CAP_ID_ANY d pos cap = hd 0 l) /\
    (cap <> CAP_ID_ANY -> no_match d cap l ->
     xen_host_pci_find_next_cap CAP_ID_ANY d pos cap = 0 /\
     find_next_cap_hops CAP_ID_ANY d pos cap =
       Nat.min (S (List.length l)) XEN_HOST_PCI_CAP_MAX).

End WalkSpec.

(** The MSI capability without 64-bit addressing, and a failing interrupt
    backend. *)
Module MsiSpec.

Definition msi_32bit_only (s : XenPCIPassthroughState) : Prop :=
  Z.land (flags (msi s)) PCI_MSI_FLAGS_64BIT = 0.

(** The Message Upper Address register is not materialised and a write that
    reaches its handler is rejected, with nothing but the error message
    changed. *)
Definition upper_address_absent (s : XenPCIPassthroughState) : Prop :=
  msi_32bit_only s ->
  (forall real_offset,
     xen_pt_msgaddr64_reg_init s reg_msi_addr_hi real_offset =
     InitOk XEN_PT_INVALID_REG) /\
  (forall fuel val0 grp_idx,
     grp_idx < List.length (reg_grps s) ->
     xen_pt_config_reg_init fuel val0 s grp_idx reg_msi_addr_hi =
     Some (RegNotPresent, s))%nat /\
  (forall xen_pt_msi_update cfg_entry val dev_value valid_mask,
     exists msg,
       xen_pt_msgaddr64_reg_write xen_pt_msi_update s cfg_entry val dev_value
         valid_mask = (-1, val, XEN_PT_ERR msg s)).

(** The backend call made when MSI is enabled for the first time fails:
    either the setup step, or the bind step after a successful setup. *)
Definition backend_fails
  (xen_pt_msi_setup xen_pt_msi_update
     : XenPCIPassthroughState -> Z * XenPCIPassthroughState)
  (s : XenPCIPassthroughState) (after : XenPCIPassthroughState) : Prop :=
  let s := XEN_PT_LOG "setup MSI" s in
  (fst (xen_pt_msi_setup s) <> 0 /\ after = snd (xen_pt_msi_setup s)) \/
  (fst (xen_pt_msi_setup s) = 0 /\
   fst (xen_pt_msi_update (snd (xen_pt_msi_setup s))) <> 0 /\
   after = snd (xen_pt_msi_update (snd (xen_pt_msi_setup s)))).

(** The failure is contained: status 0, enable bit cleared in the value
    forwarded, a warning as the last message, and the state otherwise as the
    backend left it. *)
Definition enable_failure_contained
  (xen_pt_msi_setup xen_pt_msi_update
     : XenPCIPassthroughState -> Z * XenPCIPassthroughState)
  (xen_pt_msi_disable : XenPCIPassthroughState -> XenPCIPassthroughState)
  : Prop :=
  forall s ptr val dev_value valid_mask after,
    let e := {| reg := reg_msi_msgctrl; ptr := ptr |} in
    let emulated := msgctrl_emulate s e val dev_value valid_mask in
    initialized (msi s) = false ->
    Z.testbit val 0 = true -> Z.testbit valid_mask 0 = true ->
    backend_fails xen_pt_msi_setup xen_pt_msi_update (snd emulated) after ->
    exists msg,
      xen_pt_msgctrl_reg_write xen_pt_msi_setup xen_pt_msi_update
        xen_pt_msi_disable s e val dev_value valid_mask =
      (0, uint16 (Z.land (fst emulated) (Z.lnot PCI_MSI_FLAGS_ENABLE)),
       XEN_PT_WARN msg after) /\
      Z.testbit (uint16 (Z.land (fst emulated) (Z.lnot PCI_MSI_FLAGS_ENABLE))) 0
      = false.

(** Whatever the backend answers, the handler's own status is 0. *)
Definition never_an_error
  (xen_pt_msi_setup xen_pt_msi_update
     : XenPCIPassthroughState -> Z * XenPCIPassthroughState)
  (xen_pt_msi_disable : XenPCIPassthroughState -> XenPCIPassthroughState)
  : Prop :=
  forall s e val dev_value valid_mask,
    fst (fst (xen_pt_msgctrl_reg_write xen_pt_msi_setup xen_pt_msi_update
                xen_pt_msi_disable s e val dev_value valid_mask)) = 0.

End MsiSpec.

(** The size resolvers of the variable-length extended capabilities. *)
Module SizeSpec.

(** As the design document has it: the size never exceeds the budget. *)
Definition capped (size base_offset : Z) : Prop :=
  size <= ext_space_budget base_offset.

(** As the code has it for the four single-word resolvers: the status is that
    of the host read, and the size is a function of the word read alone. *)
Definition sized_from_host_word : Prop :=
  forall s base_offset,
    (let r := xen_host_pci_get_long (real_device s) (uint32 (base_offset + PCI_DPA_CAP)) in
     let '(rc, size, _) := xen_pt_ext_cap_dpa_size_init s base_offset in
     rc = host_rc r /\
     size = PCI_DPA_BASE_SIZEOF + Z.land (or_zero r) PCI_DPA_CAP_SUBSTATE_MASK + 1 /\
     17 <= size <= 48) /\
    (let r := xen_host_pci_get_long (real_device s) (uint32 (base_offset + PCI_TPH_CAP)) in
     let '(rc, size, _) := xen_pt_ext_cap_tph_size_init s base_offset in
     rc = host_rc r /\ 12 <= size <= 4108) /\
    (let r := xen_host_pci_get_word (real_device s) (uint32 (base_offset + PCI_EXP_DPC_CAP)) in
     let '(rc, size, _) := xen_pt_ext_cap_dpc_size_init s base_offset in
     rc = host_rc r /\ 12 <= size <= 92) /\
    (let r := xen_host_pci_get_long (real_device s) (uint32 (base_offset + 4)) in
     let '(rc, size, _) := xen_pt_ext_cap_pmux_size_init s base_offset in
     rc = host_rc r /\
     size = 0x10 + PMUX_GET_NUM_ENTRIES (or_zero r) * 4 /\
     16 <= size <= 268).

(** As the code has it for Virtual Channel: when the words of the structure
    (the header, the two port capability words and the capability word of
    each extended VC) can be read and the id is one of the three known ones,
    the resolver
    returns 0 with a size, whatever offsets the host reports; a VC
    arbitration table offset at or beyond [vchan_cap_max_size] is reported in
    a message. *)
Definition vchan_tolerant : Prop :=
  forall s base_offset header port_vc_cap1 port_vc_cap2,
    let d := real_device s in
    xen_host_pci_get_long d base_offset = Some header ->
    vchan_known_id header = true ->
    xen_host_pci_get_long d (uint32 (base_offset + PCI_VC_PORT_CAP1)) = Some port_vc_cap1 ->
    xen_host_pci_get_long d (uint32 (base_offset + PCI_VC_PORT_CAP2)) = Some port_vc_cap2 ->
    (forall i, 0 <= i < Z.land port_vc_cap1 PCI_VC_CAP1_EVCC ->
       xen_host_pci_get_long d
         (uint32 (base_offset + PCI_VC_RES_CAP + i * PCI_CAP_VC_PER_VC_SIZEOF)) <> None) ->
    exists size s',
      xen_pt_ext_cap_vchan_size_init s base_offset = (0, Some size, s') /\
      (GET_ARB_TABLE_OFFSET port_vc_cap2 >= vchan_cap_max_size base_offset header ->
       In (ERR "Warning: VC arbitration table offset points outside the expected range")
          (log s')).

(** The [n]-bit field of the word [w] that starts at bit [lo]. *)
Definition field (w lo n : Z) : Z := (w / 2 ^ lo) mod 2 ^ n.

(** The sizes in bytes, from the fields of the capability word by their
    positions: Dynamic Power Allocation has 16 bytes and one byte for each
    substate (bits 4:0 hold the highest substate number); TPH Requester has 12
    bytes and, when the ST table is in the capability (bits 10:9 are 01), two
    bytes for each of its entries (bits 26:16 hold the number of entries less
    one); Downstream Port Containment has 12 bytes, or, with the root-port
    extensions (bit 5), 32 bytes and four for each entry of the RP PIO log
    (bits 11:8); Protocol Multiplexing has 16 bytes and four for each entry
    (bits 5:0). *)
Definition dpa_size (w : Z) : Z := 16 + (field w 0 5 + 1).
Definition tph_size (w : Z) : Z :=
  12 + 2 * (if field w 9 2 =? 1 then field w 16 11 + 1 else 0).
Definition dpc_size (w : Z) : Z :=
  if field w 5 1 =? 1 then 32 + 4 * field w 8 4 else 12.
Definition pmux_size (w : Z) : Z := 16 + 4 * field w 0 6.

(** Each of the four single-word resolvers returns the status of its host
    read and exactly the size that the word read (0 when the read fails)
    gives; the base offset plays no part in the size. *)
Definition sized_exactly : Prop :=
  forall s base_offset,
    (let r := xen_host_pci_get_long (real_device s) (uint32 (base_offset + PCI_DPA_CAP)) in
     fst (xen_pt_ext_cap_dpa_size_init s base_offset) =
       (host_rc r, dpa_size (or_zero r))) /\
    (let r := xen_host_pci_get_long (real_device s) (uint32 (base_offset + PCI_TPH_CAP)) in
     fst (xen_pt_ext_cap_tph_size_init s base_offset) =
       (host_rc r, tph_size (or_zero r))) /\
    (let r := xen_host_pci_get_word (real_device s) (uint32 (base_offset + PCI_EXP_DPC_CAP)) in
     fst (xen_pt_ext_cap_dpc_size_init s base_offset) =
       (host_rc r, dpc_size (or_zero r))) /\
    (let r := xen_host_pci_get_long (real_device s) (uint32 (base_offset + 4)) in
     fst (xen_pt_ext_cap_pmux_size_init s base_offset) =
       (host_rc r, pmux_size (or_zero r))).

(** A resolver goes over the budget: for some device and some base offset in
    the extended space it returns 0 with a size larger than what is left of
    the space. *)
Definition exceeds_budget
  (resolver : XenPCIPassthroughState -> Z -> Z * Z * XenPCIPassthroughState) : Prop :=
  exists s base_offset size,
    PCI_CONFIG_SPACE_SIZE <= base_offset < PCIE_CONFIG_SPACE_SIZE /\
    fst (resolver s base_offset) = (0, size) /\
    ~ capped size base_offset.

Definition vchan_size_init (s : XenPCIPassthroughState) (base_offset : Z)
  : Z * Z * XenPCIPassthroughState :=
  let '(rc, size, s') := xen_pt_ext_cap_vchan_size_init s base_offset in
  (rc, or_zero size, s').

Definition none_capped : Prop :=
  exceeds_budget xen_pt_ext_cap_dpa_size_init /\
  exceeds_budget xen_pt_ext_cap_tph_size_init /\
  exceeds_budget xen_pt_ext_cap_dpc_size_init /\
  exceeds_budget xen_pt_ext_cap_pmux_size_init /\
  exceeds_budget vchan_size_init.

(** An arbitration table that takes no part in the size: the structure has
    none (offset 0), or its offset lies at or beyond [vc_cap_max_size]. *)
Definition table_left_out (vc_cap_max_size arb_table_offset : Z) : Prop :=
  arb_table_offset = 0 \/ arb_table_offset >= vc_cap_max_size.

(** As the code has it for the tables of Virtual Channel: when the VC
    arbitration table and the Port/Function arbitration table of every VC
    resource are left out, the resolver returns 0 and the size of the
    structure without tables, 16 bytes and 12 for each extended VC; and each
    table left out for its offset (at or beyond [vc_cap_max_size], and not 0)
    is reported in a message of its kind. *)
Definition vchan_skips_anomalous : Prop :=
  forall s base_offset header port_vc_cap1 port_vc_cap2,
    let d := real_device s in
    let vc_cap_max_size := vchan_cap_max_size base_offset header in
    let ext_vc_count := Z.land port_vc_cap1 PCI_VC_CAP1_EVCC in
    let vc_rsrc_cap i :=
      xen_host_pci_get_long d
        (uint32 (base_offset + PCI_VC_RES_CAP + i * PCI_CAP_VC_PER_VC_SIZEOF)) in
    xen_host_pci_get_long d base_offset = Some header ->
    vchan_known_id header = true ->
    xen_host_pci_get_long d (uint32 (base_offset + PCI_VC_PORT_CAP1)) = Some port_vc_cap1 ->
    xen_host_pci_get_long d (uint32 (base_offset + PCI_VC_PORT_CAP2)) = Some port_vc_cap2 ->
    table_left_out vc_cap_max_size (GET_ARB_TABLE_OFFSET port_vc_cap2) ->
    (forall i, 0 <= i < ext_vc_count ->
       exists c, vc_rsrc_cap i = Some c /\
                 table_left_out vc_cap_max_size (GET_ARB_TABLE_OFFSET c)) ->
    exists s',
      xen_pt_ext_cap_vchan_size_init s base_offset =
        (0, Some (16 + 12 * ext_vc_count), s') /\
      (GET_ARB_TABLE_OFFSET port_vc_cap2 >= vc_cap_max_size ->
       In (ERR "Warning: VC arbitration table offset points outside the expected range")
          (log s')) /\
      (forall i c, 0 <= i < ext_vc_count -> vc_rsrc_cap i = Some c ->
         GET_ARB_TABLE_OFFSET c >= vc_cap_max_size -> GET_ARB_TABLE_OFFSET c > 0 ->
         In (ERR "Warning: Port/Function arbitration table offset points outside the expected range")
            (log s')).

End SizeSpec.

(** The header of a capability hidden at the start of the extended list. *)
Module HideSpec.

Definition hidden_list_head (s : XenPCIPassthroughState) (real_offset : Z) : Prop :=
  exists g,
    xen_pt_find_reg_grp s real_offset = Some g /\
    grp_type (reg_grp g) = XEN_PT_GRP_TYPE_HARDWIRED /\
    base_offset g = PCI_CONFIG_SPACE_SIZE.

(** The id initialiser on a hidden list head: the current counter value is
    the id, and the counter moves on by one modulo 2^16. *)
Definition fake_id_assigned : Prop :=
  forall s reg real_offset v,
    xen_host_pci_get_word (real_device s) real_offset = Some v ->
    hidden_list_head s real_offset ->
    xen_pt_ext_cap_capid_reg_init s reg real_offset =
    (InitOk (fake_cap_id s), set_fake_cap_id s (uint16 (fake_cap_id s + 1))).

(** Two uses in a row give two different ids. *)
Definition successive_ids_differ : Prop :=
  forall s reg real_offset v,
    xen_host_pci_get_word (real_device s) real_offset = Some v ->
    hidden_list_head s real_offset ->
    0 <= fake_cap_id s < 2 ^ 16 ->
    let first := xen_pt_ext_cap_capid_reg_init s reg real_offset in
    let second := xen_pt_ext_cap_capid_reg_init (snd first) reg real_offset in
    exists id1 id2,
      fst first = InitOk id1 /\ fst second = InitOk id2 /\ id1 <> id2.

(** For a hardwired group of the catalogue attach initialises no register,
    wherever the group lies: the end of the loop body leaves the state as it
    is, whatever the register tables hold. *)
Definition hardwired_untouched : Prop :=
  forall table fuel val0 s g reg_grp_offset,
    In g xen_pt_emu_reg_grps ->
    grp_type g = XEN_PT_GRP_TYPE_HARDWIRED ->
    xen_pt_config_init_regs table fuel val0 s g reg_grp_offset = Some (RegAdded, s).

End HideSpec.

(** ** Fixtures: small concrete devices and states *)

Module Fixtures.

Definition config_of (bytes : list (Z * Z)) : Z -> option byte :=
  fun pos =>
    if (0 <=? pos) && (pos <? 0x1000) then
      match find (fun e => fst e =? pos) bytes with
      | Some e => Some (Bytes.of_Z (snd e))
      | None => Some Byte.x00
      end
    else None.

Definition device_of (bytes : list (Z * Z)) : XenHostPCIDevice :=
  {| vendor_id := 0x1AF4; device_id := 0x1000; has_pcie_ext_caps := true;
     pcie_flags := 0x0002; config := config_of bytes |}.

Definition msi_off : XenPTMSI :=
  {| flags := 0; initialized := false; mapped := false; addr_lo := 0;
     addr_hi := 0; msi_data := 0; ctrl_offset := 0 |}.

(** A state at the start of attach: no group yet, the image holding the
    host's values. *)
Definition state_of (d : XenHostPCIDevice) : XenPCIPassthroughState :=
  {| real_device := d;
     dev_config := fun a => match config d a with Some b => b | None => Byte.x00 end;
     reg_grps := [];
     msi := msi_off; permissive := false; fake_cap_id := 0xFE00; log := [] |}.

Definition with_grp (s : XenPCIPassthroughState) (g : XenPTRegGroupInfo)
  (base sz : Z) : XenPCIPassthroughState :=
  set_reg_grps s ({| reg_grp := g; base_offset := base; grp_sz := sz;
                     reg_tbl_list := [] |} :: reg_grps s).

Definition header_grp : XenPTRegGroupInfo :=
  grp 0xFF XEN_PT_GRP_TYPE_EMU 0x40 Size_reg_grp (Some Regs_header0).

Definition rebar_grp : XenPTRegGroupInfo :=
  grp (PCIE_EXT_CAP_ID PCI_EXT_CAP_ID_REBAR) XEN_PT_GRP_TYPE_HARDWIRED 0xFF
      Size_ext_cap_rebar None.

End Fixtures.

Module WalkFixtures.

(** A list that loops: the capability at 0x40 (id 1) names itself as next. *)
Definition looping_device : XenHostPCIDevice :=
  Fixtures.device_of [(0x06, 0x10); (0x34, 0x40); (0x40, 0x01); (0x41, 0x40)].

Definition looping_cells (p : Z) : Prop := p = 0x34 \/ p = 0x41.

(** A well-formed list: Power Management at 0x40, MSI at 0x50, end. *)
Definition two_cap_device : XenHostPCIDevice :=
  Fixtures.device_of
    [(0x06, 0x10); (0x34, 0x40); (0x40, 0x01); (0x41, 0x50);
     (0x50, 0x05); (0x51, 0x00)].

End WalkFixtures.

Module AttachFixtures.

(** A conventional PCI device: Status 0x0290 (capability list, fast
    back-to-back capable, medium DEVSEL timing), Power Management at 0x40 and
    MSI at 0x50. *)
Definition pci_device : XenHostPCIDevice :=
  Fixtures.device_of
    [(0x06, 0x90); (0x07, 0x02); (0x34, 0x40); (0x40, 0x01); (0x41, 0x50);
     (0x50, 0x05); (0x51, 0x00)].

(** Attach has just created the Header group (offset 0, size 0x40). *)
Definition header_created : XenPCIPassthroughState :=
  Fixtures.with_grp (Fixtures.state_of pci_device) Fixtures.header_grp 0 0x40.

Definition status_entry : XenPTReg := {| reg := reg_status; ptr := PCI_STATUS |}.
Definition cap_ptr_entry : XenPTReg :=
  {| reg := reg_cap_ptr; ptr := PCI_CAPABILITY_LIST |}.

End AttachFixtures.

Module MsiFixtures.

(** A backend whose setup step always fails with -1. *)
Definition failing_setup (s : XenPCIPassthroughState) : Z * XenPCIPassthroughState :=
  (-1, s).
Definition ok_update (s : XenPCIPassthroughState) : Z * XenPCIPassthroughState :=
  (0, s).
Definition no_disable (s : XenPCIPassthroughState) : XenPCIPassthroughState := s.

Definition msi_state : XenPCIPassthroughState :=
  Fixtures.state_of AttachFixtures.pci_device.

(** Attach has just created the group of the MSI capability at 0x50 (size
    0xa: 32-bit addresses, no per-vector masking). *)
Definition msi_created : XenPCIPassthroughState :=
  Fixtures.with_grp msi_state
    (grp PCI_CAP_ID_MSI XEN_PT_GRP_TYPE_EMU 0xFF Size_msi (Some Regs_msi)) 0x50 0xa.

End MsiFixtures.

Module SizeFixtures.

(** Extended capabilities: Device Serial Number at 0x100, then Dynamic Power
    Allocation at 0xFF0 reporting 32 substates, then Virtual Channel at 0x200
    whose VC arbitration table offset (0xFF0) lies beyond the space. *)
Definition ext_device : XenHostPCIDevice :=
  Fixtures.device_of
    [(0x100, 0x03); (0x102, 0x01); (0x103, 0xFF);
     (0xFF0, 0x16); (0xFF2, 0x01); (0xFF3, 0x20); (0xFF4, 0x1F);
     (0x200, 0x02); (0x202, 0x01); (0x20B, 0xFF)].

Definition ext_state : XenPCIPassthroughState := Fixtures.state_of ext_device.

(** A capability at 0xFF0, sixteen bytes before the end of the space, whose
    word at 0xFF4 has the bytes given (lowest first). *)
Definition last_cap_state (b0 b1 b2 b3 : Z) : XenPCIPassthroughState :=
  Fixtures.state_of
    (Fixtures.device_of [(0xFF4, b0); (0xFF5, b1); (0xFF6, b2); (0xFF7, b3)]).

(** Virtual Channel at 0xF00, the last capability, with no extended VC and a
    VC arbitration table of 128 phases at offset 0xF0. *)
Definition vc_table_state : XenPCIPassthroughState :=
  Fixtures.state_of
    (Fixtures.device_of
       [(0xF00, 0x02); (0xF02, 0x01); (0xF08, 0x08); (0xF0B, 0x0F)]).

(** Virtual Channel at 0x200, the last capability, with one extended VC; the
    offsets of the VC arbitration table and of the Port arbitration table of
    VC resource 0 are both 0xFF0. *)
Definition vc_anomalous_state : XenPCIPassthroughState :=
  Fixtures.state_of
    (Fixtures.device_of
       [(0x200, 0x02); (0x202, 0x01); (0x204, 0x01); (0x20B, 0xFF);
        (0x213, 0xFF)]).

End SizeFixtures.

Module HideFixtures.

(** Resizable BAR (hardwired) for one BAR at 0x100 with next pointer 0x140;
    at 0x140 a capability that the catalogue does not know (id 0x23) with
    next pointer 0x180; at 0x180 Device Serial Number, the last one. *)
Definition rebar_first_device : XenHostPCIDevice :=
  Fixtures.device_of
    [(0x100, 0x15); (0x102, 0x01); (0x103, 0x14); (0x108, 0x20);
     (0x140, 0x23); (0x142, 0x01); (0x143, 0x18);
     (0x180, 0x03); (0x182, 0x01)].

(** Attach has just created the group of the Resizable BAR capability, 12
    bytes long. *)
Definition rebar_created : XenPCIPassthroughState :=
  Fixtures.with_grp (Fixtures.state_of rebar_first_device) Fixtures.rebar_grp 0x100 12.

Definition capid_reg : XenPTRegInfo :=
  reg_info XEN_PCIE_CAP_ID 2 0x0000 0 0xFFFF 0 0xFFFF Init_ext_cap_capid.

End HideFixtures.

Module HideLegacyFixtures.

(** A virtual function of the Intel 82599: PCI Express (id 0x10) at 0x40,
    then MSI-X (id 0x11) at 0x70. *)
Definition vf_82599 : XenHostPCIDevice :=
  {| vendor_id := PCI_VENDOR_ID_INTEL;
     device_id := PCI_DEVICE_ID_INTEL_82599_SFP_VF;
     has_pcie_ext_caps := false; pcie_flags := 0xFFFF;
     config := Fixtures.config_of
                 [(0x06, 0x10); (0x34, 0x40); (0x40, 0x10); (0x41, 0x70);
                  (0x70, 0x11); (0x71, 0x00)] |}.

Definition vf_state : XenPCIPassthroughState := Fixtures.state_of vf_82599.

End HideLegacyFixtures.

Module MsiCapFixtures.

(** An MSI capability at 0x50 with 64-bit addresses and per-vector masking
    (control word 0x0180), the last of the list. *)
Definition msi64_device : XenHostPCIDevice :=
  Fixtures.device_of
    [(0x06, 0x10); (0x34, 0x50); (0x50, 0x05); (0x51, 0x00);
     (0x52, 0x80); (0x53, 0x01)].

Definition msi64_state : XenPCIPassthroughState := Fixtures.state_of msi64_device.

(** The Message Address and Message Data (64-bit layout) registers of that
    capability, as attach creates them. *)
Definition addr_lo_entry : XenPTReg :=
  {| reg := fst (msi_row PCI_MSI_ADDRESS_LO 4 0 0 0x00000003 0 0xFFFFFFFF MsiInit_common);
     ptr := 0x54 |}.
Definition data64_entry : XenPTReg :=
  {| reg := fst (msi_row PCI_MSI_DATA_64 2 0 0 0 0 0xFFFF MsiInit_msgdata);
     ptr := 0x5C |}.
Definition addr_hi_entry : XenPTReg := {| reg := reg_msi_addr_hi; ptr := 0x58 |}.

Definition id_update (s : XenPCIPassthroughState) : Z * XenPCIPassthroughState :=
  (0, s).

(** A device that comes with MSI enabled: the capability at 0x50, the last
    of the list, with the control word 0x0001; and the state in which attach
    has just created its group (size 0xa). *)
Definition msi_enabled_device : XenHostPCIDevice :=
  Fixtures.device_of
    [(0x06, 0x10); (0x34, 0x50); (0x50, 0x05); (0x51, 0x00);
     (0x52, 0x01); (0x53, 0x00)].

Definition msi_grp : XenPTRegGroupInfo :=
  grp PCI_CAP_ID_MSI XEN_PT_GRP_TYPE_EMU 0xFF Size_msi (Some Regs_msi).

Definition msi_enabled_created : XenPCIPassthroughState :=
  Fixtures.with_grp (Fixtures.state_of msi_enabled_device) msi_grp 0x50 0xa.

End MsiCapFixtures.

Module PcieFixtures.

(** A version-1 PCI Express endpoint: the capability (id 0x10) at 0x60 with
    the flags word 0x0001, the last of the list; and a version-2 legacy
    endpoint with the flags word 0x0012. *)
Definition pcie_device (flags_word : Z) : XenHostPCIDevice :=
  {| vendor_id := 0x1AF4; device_id := 0x1000; has_pcie_ext_caps := false;
     pcie_flags := flags_word;
     config := Fixtures.config_of
                 [(0x06, 0x10); (0x34, 0x60); (0x60, 0x10); (0x61, 0x00);
                  (0x62, Z.land flags_word 0xFF); (0x63, Z.shiftr flags_word 8);
                  (0x6C, 0x12)] |}.

Definition v1_endpoint : XenPCIPassthroughState := Fixtures.state_of (pcie_device 0x0001).
Definition v2_legacy_endpoint : XenPCIPassthroughState :=
  Fixtures.state_of (pcie_device 0x0012).

End PcieFixtures.

Module BarFixtures.

(** [xen_pt_bar_offset_to_index] and [xen_pt_get_emul_size] as [xen_pt.h]
    has them (expansion ROM at 0x30, BAR 0 at 0x10, 4 KiB pages). *)
Definition offset_to_index (offset : Z) : Z :=
  if offset =? 0x30 then 6
  else
    let index := Z.shiftr (offset - 0x10) 2 in
    if index >=? PCI_NUM_REGIONS then -1 else index.

Definition get_emul_size (flag : XenPTBarFlag) (r_size : Z) : Z :=
  match flag with
  | XEN_PT_BAR_FLAG_MEM => Z.land (r_size + 4096 - 1) (Z.lnot 4095)
  | _ => r_size
  end.

(** BAR 0: a 64 KiB memory region; every other base unused. *)
Definition regions : BarRegions :=
  {| bar_flag := fun i => if i =? 0 then XEN_PT_BAR_FLAG_MEM else XEN_PT_BAR_FLAG_UNUSED;
     io_region_size := fun i => if i =? 0 then 0x10000 else 0;
     host_base_address_with_flags := fun i => if i =? 0 then 0xFE000008 else 0 |}.

(** The BAR 0 register; its descriptor has no masks, and its initialiser
    ([xen_pt_bar_reg_init]) is not among the tags of [RegInit]. *)
Definition bar0_entry : XenPTReg :=
  {| reg := {| offset := 0x10; size := 4; init_val := 0; res_mask := 0; ro_mask := 0;
               rw1c_mask := 0; emu_mask := 0; init := None |};
     ptr := 0x10 |}.

End BarFixtures.

Module UnboundedWalkFixtures.

(** A legacy list that loops on a hardwired capability: Slot Identification
    (id 4) at 0x40 names itself as next.  And an extended list that loops on
    the Resizable BAR capability (id 0x15, hardwired) at 0x100. *)
Definition hardwired_loop_device : XenHostPCIDevice :=
  Fixtures.device_of
    [(0x06, 0x10); (0x34, 0x40); (0x40, 0x04); (0x41, 0x40);
     (0x100, 0x15); (0x101, 0x00); (0x102, 0x01); (0x103, 0x10)].

Definition hardwired_loop_state : XenPCIPassthroughState :=
  Fixtures.state_of hardwired_loop_device.

End UnboundedWalkFixtures.

(** * Part II: properties *)

(** ** Bit-level facts *)

Lemma cast_testbit w x i :
  0 <= w -> 0 <= i -> Z.testbit (cast w x) i = (i <? w) && Z.testbit x i.
Proof.
  intros Hw Hi. unfold cast.
  rewrite Z.land_spec, Z.testbit_ones_nonneg by assumption.
  apply andb_comm.
Qed.

Lemma cast_mod w x : 0 <= w -> cast w x = x mod 2 ^ w.
Proof. intros Hw. apply Z.land_ones, Hw. Qed.

Lemma cast_range w x : 0 <= w -> 0 <= cast w x < 2 ^ w.
Proof.
  intros Hw. rewrite cast_mod by assumption.
  apply Z.mod_pos_bound, Z.pow_pos_nonneg; lia.
Qed.

Lemma cast_small w x : 0 <= w -> 0 <= x < 2 ^ w -> cast w x = x.
Proof. intros Hw Hx. rewrite cast_mod by assumption. apply Z.mod_small, Hx. Qed.

Lemma cast_idem w x : 0 <= w -> cast w (cast w x) = cast w x.
Proof. intros Hw. apply cast_small; [assumption | apply cast_range, Hw]. Qed.

(** Bitwise extensionality, with the casts pushed down to single bits. *)
Ltac unfold_uint := unfold not32, uint8, uint16, uint32 in *.

Ltac bits_simpl :=
  repeat first
    [ rewrite cast_testbit by lia
    | rewrite Z.lor_spec
    | rewrite Z.land_spec
    | rewrite Z.lnot_spec by lia ].

Ltac bits_case :=
  repeat match goal with
         | |- context [Z.testbit ?x ?i] =>
             destruct (Z.testbit x i) eqn:?
         | |- context [?i <? ?w] => destruct (Z.ltb_spec i w)
         end;
  simpl in *; try reflexivity; try congruence; try lia.

Ltac bitblast :=
  unfold_uint; apply Z.bits_inj'; intros ?i ?Hi; bits_simpl; bits_case.

Lemma testbit_above x n i : 0 <= x < 2 ^ n -> n <= i -> Z.testbit x i = false.
Proof.
  intros Hx Hi. destruct (Z.eq_dec x 0) as [->|Hne]; [apply Z.bits_0|].
  apply Z.bits_above_log2; [lia|].
  assert (0 <= n) by (destruct (Z.le_gt_cases 0 n); [assumption|];
                      rewrite Z.pow_neg_r in Hx by lia; lia).
  apply Z.lt_le_trans with n; [|assumption].
  apply Z.log2_lt_pow2; lia.
Qed.

Lemma byte_to_Z_range b : 0 <= Bytes.to_Z b < 256.
Proof.
  unfold Bytes.to_Z. pose proof (Byte.to_N_bounded b). lia.
Qed.

Lemma byte_to_of_Z x : Bytes.to_Z (Bytes.of_Z x) = uint8 x.
Proof.
  unfold Bytes.of_Z, Bytes.to_Z.
  pose proof (cast_range 8 x ltac:(lia)) as Hr. fold (uint8 x) in Hr.
  change (2 ^ 8) with 256 in Hr.
  destruct (Byte.of_N (Z.to_N (uint8 x))) as [b|] eqn:E.
  - apply Byte.to_of_N in E. rewrite E. lia.
  - apply Byte.of_N_None_iff in E. lia.
Qed.

(** ** The image: reading back what was stored *)

Lemma get_set_byte c a v : pci_get_byte (pci_set_byte c a v) a = uint8 v.
Proof.
  unfold pci_get_byte, pci_set_byte, upd. rewrite Z.eqb_refl. apply byte_to_of_Z.
Qed.

Lemma get_set_byte_other c a a' v :
  a' <> a -> pci_get_byte (pci_set_byte c a v) a' = pci_get_byte c a'.
Proof.
  intros H. unfold pci_get_byte, pci_set_byte, upd.
  destruct (Z.eqb_spec a' a); [contradiction | reflexivity].
Qed.

Lemma le16_join v :
  Z.lor (uint8 v) (Z.shiftl (uint8 (Z.shiftr v 8)) 8) = uint16 v.
Proof.
  unfold_uint. apply Z.bits_inj'. intros i Hi.
  rewrite Z.lor_spec, Z.shiftl_spec by lia.
  rewrite (cast_testbit 16), (cast_testbit 8 v) by lia.
  destruct (Z.ltb_spec i 8).
  - rewrite (Z.testbit_neg_r _ (i - 8)) by lia.
    destruct (Z.ltb_spec i 16); [|lia]. simpl. apply orb_false_r.
  - rewrite cast_testbit, Z.shiftr_spec by lia.
    replace (i - 8 + 8) with i by lia. simpl.
    destruct (Z.ltb_spec (i - 8) 8), (Z.ltb_spec i 16); try lia; reflexivity.
Qed.

Lemma le32_join v :
  Z.lor (uint16 v) (Z.shiftl (uint16 (Z.shiftr v 16)) 16) = uint32 v.
Proof.
  unfold_uint. apply Z.bits_inj'. intros i Hi.
  rewrite Z.lor_spec, Z.shiftl_spec by lia.
  rewrite (cast_testbit 32), (cast_testbit 16 v) by lia.
  destruct (Z.ltb_spec i 16).
  - rewrite (Z.testbit_neg_r _ (i - 16)) by lia.
    destruct (Z.ltb_spec i 32); [|lia]. simpl. apply orb_false_r.
  - rewrite cast_testbit, Z.shiftr_spec by lia.
    replace (i - 16 + 16) with i by lia. simpl.
    destruct (Z.ltb_spec (i - 16) 16), (Z.ltb_spec i 32); try lia; reflexivity.
Qed.

Lemma get_set_word c a v : pci_get_word (pci_set_word c a v) a = uint16 v.
Proof.
  unfold pci_get_word, pci_set_word.
  rewrite get_set_byte, get_set_byte_other, get_set_byte by lia.
  apply le16_join.
Qed.

Lemma get_set_word_other c a a' v :
  a' + 1 < a \/ a + 1 < a' ->
  pci_get_word (pci_set_word c a v) a' = pci_get_word c a'.
Proof.
  intros H. unfold pci_get_word, pci_set_word.
  rewrite !get_set_byte_other by lia. reflexivity.
Qed.

Lemma get_set_long c a v : pci_get_long (pci_set_long c a v) a = uint32 v.
Proof.
  unfold pci_get_long, pci_set_long.
  rewrite get_set_word, get_set_word_other, get_set_word by lia.
  apply le32_join.
Qed.

(** ** The generic read and write functions *)

Lemma throughable_mask_eq w s r valid_mask :
  0 <= w <= 32 ->
  cast w (get_throughable_mask s r valid_mask) =
  cast w (throughable (permissive s) r valid_mask).
Proof.
  intros Hw. unfold get_throughable_mask, throughable.
  destruct (permissive s); simpl; bitblast.
Qed.

Ltac read_tac :=
  unfold Spec.read_merges; intros s e value valid_mask; cbv zeta; split;
  [ unfold xen_pt_byte_reg_read, xen_pt_word_reg_read, xen_pt_long_reg_read,
      XEN_PT_MERGE_VALUE, merge;
    f_equal; bitblast
  | intros n;
    unfold xen_pt_byte_reg_read, xen_pt_word_reg_read, xen_pt_long_reg_read,
      XEN_PT_MERGE_VALUE; cbn [snd];
    unfold_uint; bits_simpl; bits_case ].

(** C5: every value presented by the generic byte, word and long read
    functions is the device value just read merged with the software-held
    copy under [~(emu_mask & valid_mask)]: a bit of [emu_mask & valid_mask]
    comes from the software copy, every other bit (within the width) from the
    device value passed in. *)
Theorem C5_read_merge :
  Spec.read_merges 8 xen_pt_byte_reg_read pci_get_byte /\
  Spec.read_merges 16 xen_pt_word_reg_read pci_get_word /\
  Spec.read_merges 32 xen_pt_long_reg_read pci_get_long.
Proof.
  split; [|split]; read_tac.
Qed.

Ltac write_tac :=
  unfold Spec.write_forwards, Spec.forwarded_by_code;
  intros s e val dev_value valid_mask; split;
  [ unfold xen_pt_byte_reg_write, xen_pt_word_reg_write, xen_pt_long_reg_write,
      XEN_PT_MERGE_VALUE, merge; cbn [fst];
    f_equal;
    unfold get_throughable_mask, throughable;
    destruct (permissive s); cbn [negb]; bitblast
  | intros n;
    unfold xen_pt_byte_reg_write, xen_pt_word_reg_write, xen_pt_long_reg_write,
      XEN_PT_MERGE_VALUE; cbn [fst snd];
    unfold get_throughable_mask, throughable;
    destruct (permissive s); cbn [negb];
    unfold_uint; bits_simpl; bits_case ].

(** C1 (as the code has it): the value that the generic byte, word and long
    write functions forward to the device is
    [merge(guest_value, device_value & ~rw1c_mask, throughable_mask)] with
    [throughable_mask = ~(emu_mask | ro_mask) & valid_mask], narrowed by
    [& ~res_mask] unless the engine is permissive: a throughable bit is the
    guest's, every other bit is the device's current bit with the
    write-1-to-clear bits forced to 0, so that writing the value back never
    clears such a bit by accident. *)
Theorem C1_forwarded_value :
  Spec.write_forwards 8 xen_pt_byte_reg_write /\
  Spec.write_forwards 16 xen_pt_word_reg_write /\
  Spec.write_forwards 32 xen_pt_long_reg_write.
Proof.
  split; [|split]; write_tac.
Qed.

(** C1 fails as stated: on the Status register (write-1-to-clear bits 0xF900,
    all of them throughable) a guest write of 0x8000 is forwarded as 0x8000,
    where stripping the write-1-to-clear bits from the guest value would give
    0. *)
Lemma C1_counterexample :
  let s := Fixtures.state_of (Fixtures.device_of []) in
  let e := {| reg := reg_status; ptr := PCI_STATUS |} in
  snd (fst (xen_pt_word_reg_write s e 0x8000 0x0000 0xFFFF)) = 0x8000 /\
  Spec.forwarded_as_claimed 16 s e 0x8000 0x0000 0xFFFF = 0 /\
  snd (fst (xen_pt_word_reg_write s e 0x8000 0x0000 0xFFFF)) <>
  Spec.forwarded_as_claimed 16 s e 0x8000 0x0000 0xFFFF.
Proof.
  vm_compute. repeat split; discriminate.
Qed.

Ltac round_trip_tac get_set :=
  unfold Spec.round_trip; intros s e v dev_value valid_mask hw valid_mask' i;
  cbv zeta; intros Hi;
  unfold xen_pt_byte_reg_write, xen_pt_word_reg_write, xen_pt_long_reg_write,
    xen_pt_byte_reg_read, xen_pt_word_reg_read, xen_pt_long_reg_read,
    XEN_PT_MERGE_VALUE;
  cbn [fst snd]; unfold set_dev_config; cbn [dev_config];
  rewrite get_set; unfold_uint; bits_simpl;
  split;
  [ intros He Hr Hv Hv'; rewrite He, Hr, Hv, Hv'; bits_case
  | intros H; apply orb_false_iff in H;
    destruct H as [He Hr]; rewrite He; bits_case ].

(** C8: round trip through a generic write followed by a generic read of the
    same register.  A bit of [emu_mask & ~ro_mask] within the valid masks
    reads back as the guest wrote it, whatever device value the read is
    given; a bit outside [emu_mask | ro_mask] reads back as the device value
    given to the read. *)
Theorem C8_round_trip :
  Spec.round_trip 8 xen_pt_byte_reg_write xen_pt_byte_reg_read /\
  Spec.round_trip 16 xen_pt_word_reg_write xen_pt_word_reg_read /\
  Spec.round_trip 32 xen_pt_long_reg_write xen_pt_long_reg_read.
Proof.
  split; [|split].
  - round_trip_tac get_set_byte.
  - round_trip_tac get_set_word.
  - round_trip_tac get_set_long.
Qed.

(** C8 at work on the Power Management Control/Status register: bit 1 (power
    state, emulated and writable) reads back as written although the device
    reports 0; bit 9 (pass-through) reads back as the device reports it. *)
Lemma C8_round_trip_witness :
  let s := Fixtures.state_of (Fixtures.device_of []) in
  let e := {| reg := reg_pm_ctrl; ptr := 0x44 |} in
  let s' := snd (xen_pt_word_reg_write s e 0x0002 0x0000 0xFFFF) in
  let back := snd (xen_pt_word_reg_read s' e 0x0200 0xFFFF) in
  Z.testbit back 1 = Z.testbit 0x0002 1 /\
  Z.testbit back 9 = Z.testbit 0x0200 9.
Proof.
  cbv zeta. split.
  - apply (proj1 (proj2 C8_round_trip)); [lia | reflexivity ..].
  - apply (proj1 (proj2 C8_round_trip)); [lia | reflexivity].
Defined.

(** ** The legacy capability walk *)

Section Walk.

Variable CAP_ID_ANY : Z.

Lemma cap_walk_hops_le d cap n p :
  (snd (cap_walk CAP_ID_ANY d cap n p) <= n)%nat.
Proof.
  revert p. induction n as [|n IH]; intros p; simpl.
  - lia.
  - destruct (xen_host_pci_get_byte d p) as [c|]; simpl; [|lia].
    destruct (c =? 0); simpl; [lia|].
    destruct (cap =? CAP_ID_ANY); simpl; [lia|].
    destruct (xen_host_pci_get_byte d (c + PCI_CAP_LIST_ID)) as [id|]; simpl; [|lia].
    destruct (id =? 0xff); simpl; [lia|].
    destruct (id =? cap); simpl; [lia|].
    specialize (IH (uint8 (c + PCI_CAP_LIST_NEXT))).
    destruct (cap_walk CAP_ID_ANY d cap n (uint8 (c + PCI_CAP_LIST_NEXT))).
    simpl in *. lia.
Qed.

Lemma cap_walk_endless d cap P :
  cap <> CAP_ID_ANY -> endless_walk d cap P ->
  forall n p, P p -> cap_walk CAP_ID_ANY d cap n p = (0, n).
Proof.
  intros Hany Hend. induction n as [|n IH]; intros p Hp; simpl.
  - reflexivity.
  - destruct (Hend p Hp) as (c & id & Hc & Hc0 & Hid & Hff & Hcap & Hnext).
    rewrite Hc.
    destruct (Z.eqb_spec c 0); [contradiction|].
    destruct (Z.eqb_spec cap CAP_ID_ANY); [contradiction|].
    rewrite Hid.
    destruct (Z.eqb_spec id 0xff); [contradiction|].
    destruct (Z.eqb_spec id cap); [contradiction|].
    rewrite (IH _ Hnext). reflexivity.
Qed.

Lemma cap_walk_chain d cap l :
  Forall cap_slot l ->
  forall p n n',
    cap_chain d p l -> (List.length l <= n)%nat -> (List.length l <= n')%nat ->
    fst (cap_walk CAP_ID_ANY d cap n p) = fst (cap_walk CAP_ID_ANY d cap n' p).
Proof.
  induction 1 as [|c l Hc Hl IH]; intros p n n' Hchain Hn Hn'.
  - simpl in Hchain.
    destruct n, n'; simpl; rewrite ?Hchain; reflexivity.
  - destruct Hchain as (Hp & Hc0 & Hrest). simpl in Hn, Hn'.
    destruct n as [|n]; [lia|]. destruct n' as [|n']; [lia|].
    simpl. rewrite Hp.
    destruct (c =? 0); [reflexivity|].
    destruct (cap =? CAP_ID_ANY); [reflexivity|].
    destruct (xen_host_pci_get_byte d (c + PCI_CAP_LIST_ID)) as [id|]; [|reflexivity].
    destruct (id =? 0xff); [reflexivity|].
    destruct (id =? cap); [reflexivity|].
    assert (Hu : uint8 (c + PCI_CAP_LIST_NEXT) = c + PCI_CAP_LIST_NEXT).
    { destruct Hc as [Hr _]. apply cast_small; [lia|].
      unfold PCI_CAP_LIST_NEXT. change (2 ^ 8) with 256. lia. }
    rewrite Hu.
    specialize (IH (c + PCI_CAP_LIST_NEXT) n n' Hrest ltac:(lia) ltac:(lia)).
    destruct (cap_walk CAP_ID_ANY d cap n (c + PCI_CAP_LIST_NEXT)),
             (cap_walk CAP_ID_ANY d cap n' (c + PCI_CAP_LIST_NEXT)).
    simpl in *. exact IH.
Qed.

End Walk.

Lemma cap_walk_chain_search CAP_ID_ANY d cap l :
  cap <> CAP_ID_ANY -> Forall cap_slot l ->
  forall p n,
    cap_chain d p l -> (List.length l <= n)%nat ->
    fst (cap_walk CAP_ID_ANY d cap n p) = chain_search d cap l.
Proof.
  intros Hany. induction 1 as [|c l Hc Hl IH]; intros p n Hchain Hn.
  - simpl in Hchain. destruct n; simpl; rewrite ?Hchain; reflexivity.
  - destruct Hchain as (Hp & Hc0 & Hrest). simpl in Hn.
    destruct n as [|n]; [lia|].
    cbn [cap_walk chain_search]. rewrite Hp.
    destruct (Z.eqb_spec c 0); [contradiction|].
    destruct (Z.eqb_spec cap CAP_ID_ANY); [contradiction|].
    destruct (xen_host_pci_get_byte d (c + PCI_CAP_LIST_ID)) as [id|]; [|reflexivity].
    destruct (id =? 0xff); [reflexivity|].
    destruct (id =? cap); [reflexivity|].
    assert (Hu : uint8 (c + PCI_CAP_LIST_NEXT) = c + PCI_CAP_LIST_NEXT).
    { destruct Hc as [Hr _]. apply cast_small; [lia|].
      unfold PCI_CAP_LIST_NEXT. change (2 ^ 8) with 256. lia. }
    rewrite Hu.
    specialize (IH (c + PCI_CAP_LIST_NEXT) n Hrest ltac:(lia)).
    destruct (cap_walk CAP_ID_ANY d cap n (c + PCI_CAP_LIST_NEXT)).
    exact IH.
Qed.

Lemma cap_walk_chain_hops CAP_ID_ANY d cap l :
  Forall cap_slot l ->
  forall p n,
    cap_chain d p l ->
    (snd (cap_walk CAP_ID_ANY d cap n p) <= S (List.length l))%nat.
Proof.
  induction 1 as [|c l Hc Hl IH]; intros p n Hchain.
  - simpl in Hchain. destruct n; simpl; [lia|]. rewrite Hchain. simpl. lia.
  - destruct Hchain as (Hp & Hc0 & Hrest).
    destruct n as [|n]; [simpl; lia|].
    cbn [cap_walk List.length]. rewrite Hp.
    destruct (c =? 0); [simpl; lia|].
    destruct (cap =? CAP_ID_ANY); [simpl; lia|].
    destruct (xen_host_pci_get_byte d (c + PCI_CAP_LIST_ID)) as [id|]; [|simpl; lia].
    destruct (id =? 0xff); [simpl; lia|].
    destruct (id =? cap); [simpl; lia|].
    assert (Hu : uint8 (c + PCI_CAP_LIST_NEXT) = c + PCI_CAP_LIST_NEXT).
    { destruct Hc as [Hr _]. apply cast_small; [lia|].
      unfold PCI_CAP_LIST_NEXT. change (2 ^ 8) with 256. lia. }
    rewrite Hu.
    specialize (IH (c + PCI_CAP_LIST_NEXT) n Hrest).
    destruct (cap_walk CAP_ID_ANY d cap n (c + PCI_CAP_LIST_NEXT)).
    simpl in *. lia.
Qed.

Lemma cap_walk_chain_any CAP_ID_ANY d l p n :
  cap_chain d p l -> (List.length l <= n)%nat ->
  fst (cap_walk CAP_ID_ANY d CAP_ID_ANY n p) = hd 0 l.
Proof.
  destruct l as [|c l]; simpl; intros Hchain Hn.
  - destruct n; simpl; [reflexivity|]. rewrite Hchain. reflexivity.
  - destruct Hchain as (Hp & Hc0 & _). destruct n as [|n]; [lia|].
    simpl. rewrite Hp. destruct (Z.eqb_spec c 0); [contradiction|].
    rewrite Z.eqb_refl. reflexivity.
Qed.

Lemma cap_walk_chain_no_match CAP_ID_ANY d cap l :
  cap <> CAP_ID_ANY -> Forall cap_slot l -> WalkSpec.no_match d cap l ->
  forall p n,
    cap_chain d p l ->
    cap_walk CAP_ID_ANY d cap n p = (0, Nat.min (S (List.length l)) n).
Proof.
  intros Hany Hall. unfold WalkSpec.no_match.
  induction Hall as [|c l Hc Hl IH]; intros Hno p n Hchain.
  - simpl in Hchain. destruct n; [reflexivity|].
    cbn [cap_walk List.length]. rewrite Hchain. reflexivity.
  - destruct Hchain as (Hp & Hc0 & Hrest).
    destruct n as [|n]; [reflexivity|].
    inversion Hno as [|c' l' (id & Hid & Hff & Hcap) Hno']; subst.
    cbn [cap_walk List.length]. rewrite Hp.
    destruct (Z.eqb_spec c 0); [contradiction|].
    destruct (Z.eqb_spec cap CAP_ID_ANY); [contradiction|].
    rewrite Hid.
    destruct (Z.eqb_spec id 0xff); [contradiction|].
    destruct (Z.eqb_spec id cap); [contradiction|].
    assert (Hu : uint8 (c + PCI_CAP_LIST_NEXT) = c + PCI_CAP_LIST_NEXT).
    { destruct Hc as [Hr _]. apply cast_small; [lia|].
      unfold PCI_CAP_LIST_NEXT. change (2 ^ 8) with 256. lia. }
    rewrite Hu, (IH Hno' (c + PCI_CAP_LIST_NEXT) n Hrest). reflexivity.
Qed.

(** The 48 places where a capability of a well-formed list can start. *)
Lemma cap_slots_count l :
  NoDup l -> Forall cap_slot l -> (List.length l <= XEN_HOST_PCI_CAP_MAX)%nat.
Proof.
  intros Hnd Hall.
  set (slots := map (fun k => 0x40 + 4 * Z.of_nat k) (seq 0 48)).
  change XEN_HOST_PCI_CAP_MAX with (List.length slots).
  apply NoDup_incl_length; [assumption|].
  intros c Hin. rewrite Forall_forall in Hall.
  destruct (Hall c Hin) as [Hr Hm].
  apply in_map_iff. exists (Z.to_nat ((c - 0x40) / 4)). split.
  - rewrite Z2Nat.id by (apply Z.div_pos; lia).
    pose proof (Z.div_mod c 4 ltac:(lia)) as Hdm. rewrite Hm in Hdm.
    replace ((c - 0x40) / 4) with (c / 4 - 16).
    + lia.
    + replace (c - 0x40) with (c + (-16) * 4) by lia.
      rewrite Z.div_add by lia. lia.
  - apply in_seq. split; [lia|].
    assert ((c - 0x40) / 4 < 48) by (apply Z.div_lt_upper_bound; lia).
    pose proof (Z.div_pos (c - 0x40) 4 ltac:(lia) ltac:(lia)). lia.
Qed.

(** C4: for every host device, start position and capability id the legacy
    walk enters its loop at most 48 times (it is a structural recursion on
    the hop counter, so it always returns); on a list that would keep a
    search going for ever (a cycle that does not hold the id sought) it uses
    up the 48 hops and returns 0; a well-formed list has at most 48
    capabilities, so the bound never changes the result: any larger bound
    gives what 48 gives; and on a well-formed list the walk makes at most one
    hop for each capability and one for the terminating zero, returns the
    first capability with the id sought (the first capability for the
    wildcard), and, when nothing matches, returns 0 on the terminating zero,
    one hop after the last capability.  (A list of exactly 48 capabilities
    none of which matches uses up the 48 hops on its capabilities and the
    zero pointer is not read; the result is 0 as it would be after reading
    it.) *)
Theorem C4_legacy_walk_bounded (CAP_ID_ANY : Z) :
  WalkSpec.hops_bounded CAP_ID_ANY /\
  WalkSpec.endless_gives_zero CAP_ID_ANY /\
  WalkSpec.bound_never_cuts CAP_ID_ANY /\
  WalkSpec.walk_follows_list CAP_ID_ANY.
Proof.
  split; [|split; [|split]].
  - intros d pos cap. unfold find_next_cap_hops, find_next_cap_bounded.
    destruct (xen_host_pci_get_byte d PCI_STATUS) as [status|]; [|cbn [snd]; lia].
    destruct (Z.land status PCI_STATUS_CAP_LIST =? 0); [cbn [snd]; lia|].
    apply cap_walk_hops_le.
  - intros d pos cap P (status & Hst & Hbit) Hany Hend Hp.
    unfold xen_host_pci_find_next_cap, find_next_cap_hops, find_next_cap_bounded.
    rewrite Hst. destruct (Z.eqb_spec (Z.land status PCI_STATUS_CAP_LIST) 0);
      [contradiction|].
    rewrite (cap_walk_endless CAP_ID_ANY d cap P Hany Hend _ _ Hp).
    split; reflexivity.
  - intros d pos cap l (Hchain & Hnd & Hall).
    pose proof (cap_slots_count l Hnd Hall) as Hlen.
    split; [exact Hlen|]. intros max_cap Hmax.
    unfold xen_host_pci_find_next_cap, find_next_cap_bounded.
    destruct (xen_host_pci_get_byte d PCI_STATUS) as [status|]; [|reflexivity].
    destruct (Z.land status PCI_STATUS_CAP_LIST =? 0); [reflexivity|].
    apply (cap_walk_chain CAP_ID_ANY d cap l Hall); [assumption | lia | lia].
  - intros d pos cap l (status & Hst & Hbit) (Hchain & Hnd & Hall).
    pose proof (cap_slots_count l Hnd Hall) as Hlen.
    unfold xen_host_pci_find_next_cap, find_next_cap_hops, find_next_cap_bounded.
    rewrite Hst. destruct (Z.eqb_spec (Z.land status PCI_STATUS_CAP_LIST) 0);
      [contradiction|].
    split; [|split; [|split]].
    + apply cap_walk_chain_hops; assumption.
    + intros Hany. apply cap_walk_chain_search; assumption.
    + intros ->. apply cap_walk_chain_any; assumption.
    + intros Hany Hno.
      rewrite (cap_walk_chain_no_match CAP_ID_ANY d cap l Hany Hall Hno _ _ Hchain).
      split; reflexivity.
Qed.

(** C4 on two devices: the looping list is searched for MSI (id 5) in exactly
    48 hops with result 0; on the two-capability list, which is well formed,
    the bound does not matter, MSI is found at 0x50 in no more than three
    hops, and the search for the id 0x11, which the list does not hold, ends
    on the terminating zero after three hops. *)
Lemma C4_legacy_walk_witness :
  (xen_host_pci_find_next_cap 0xFFFFFFFF WalkFixtures.looping_device 0 5 = 0 /\
   find_next_cap_hops 0xFFFFFFFF WalkFixtures.looping_device 0 5 = 48%nat) /\
  (forall max_cap, (48 <= max_cap)%nat ->
     fst (find_next_cap_bounded 0xFFFFFFFF max_cap WalkFixtures.two_cap_device 0 5) =
     xen_host_pci_find_next_cap 0xFFFFFFFF WalkFixtures.two_cap_device 0 5) /\
  ((find_next_cap_hops 0xFFFFFFFF WalkFixtures.two_cap_device 0 5 <= 3)%nat /\
   xen_host_pci_find_next_cap 0xFFFFFFFF WalkFixtures.two_cap_device 0 5 = 0x50 /\
   (xen_host_pci_find_next_cap 0xFFFFFFFF WalkFixtures.two_cap_device 0 0x11 = 0 /\
    find_next_cap_hops 0xFFFFFFFF WalkFixtures.two_cap_device 0 0x11 = 3%nat)).
Proof.
  assert (Hwf : well_formed_cap_list WalkFixtures.two_cap_device (cap_walk_start 0)
                  [0x40; 0x50]).
  { split; [|split].
    - simpl. repeat split; try discriminate; reflexivity.
    - repeat constructor; simpl; intuition discriminate.
    - repeat constructor; simpl; lia. }
  assert (Hlist : WalkSpec.has_cap_list WalkFixtures.two_cap_device)
    by (exists 0x10; split; [reflexivity | discriminate]).
  split; [|split].
  - apply (proj1 (proj2 (C4_legacy_walk_bounded 0xFFFFFFFF))
             WalkFixtures.looping_device 0 5 WalkFixtures.looping_cells).
    + exists 0x10. split; [reflexivity | discriminate].
    + discriminate.
    + intros p [-> | ->]; exists 0x40, 0x01;
        repeat split; try discriminate; try reflexivity;
        right; reflexivity.
    + left. reflexivity.
  - apply (proj1 (proj2 (proj2 (C4_legacy_walk_bounded 0xFFFFFFFF)))
             WalkFixtures.two_cap_device 0 5 [0x40; 0x50] Hwf).
  - destruct (proj2 (proj2 (proj2 (C4_legacy_walk_bounded 0xFFFFFFFF)))
                WalkFixtures.two_cap_device 0 5 [0x40; 0x50] Hlist Hwf)
      as (Hhops & Hfound & _ & _).
    destruct (proj2 (proj2 (proj2 (C4_legacy_walk_bounded 0xFFFFFFFF)))
                WalkFixtures.two_cap_device 0 0x11 [0x40; 0x50] Hlist Hwf)
      as (_ & _ & _ & Hend).
    split; [exact Hhops|]. split.
    + rewrite Hfound by discriminate. reflexivity.
    + apply Hend.
      * discriminate.
      * repeat constructor.
        -- exists 0x01. split; [reflexivity | split; discriminate].
        -- exists 0x05. split; [reflexivity | split; discriminate].
Defined.

(** ** Attach-time reconciliation *)

(** What the mismatch branch stores, bit by bit: within the width, a bit
    outside the emulated mask is the OR of the host's and the initialiser's
    bit, and a bit inside the emulated mask is 0. *)
Lemma reg_sync_value_bits r data val i :
  reg_sync_mismatch r data val = true ->
  0 <= i -> Z.testbit (reg_size_mask r) i = true ->
  Z.testbit (reg_sync_value r data val) i =
  (Z.testbit val i || Z.testbit data i) && negb (Z.testbit (emu_mask r) i).
Proof.
  intros Hm Hi Hsz. unfold reg_sync_value. rewrite Hm.
  unfold reg_host_mask. set (sm := reg_size_mask r) in *.
  assert (Hlt : i < 32).
  { destruct (Z.ltb_spec i 32); [assumption|].
    unfold sm, reg_size_mask, uint32 in Hsz.
    rewrite cast_testbit in Hsz by lia.
    destruct (Z.ltb_spec i 32); [lia | discriminate]. }
  unfold not32, uint32. bits_simpl. rewrite Hsz.
  destruct (Z.ltb_spec i 32); [|lia].
  destruct (Z.testbit val i), (Z.testbit data i), (Z.testbit (emu_mask r) i);
    reflexivity.
Qed.

(** C2, at the failing input: for the Status register (2 bytes, emulated mask
    0x0010) with initialiser value 0x0010 and host value 0x0280 the two
    differ outside the emulated mask, and the value stored is 0x0280: the
    emulated Capability-List bit of the initialiser is lost, where the
    reconciliation asked for gives 0x0290. *)
Lemma C2_sync_at_failing_input :
  reg_sync_mismatch reg_status 0x0010 0x0280 = true /\
  reg_sync_value reg_status 0x0010 0x0280 = 0x0280 /\
  reg_sync_expected reg_status 0x0010 0x0280 = 0x0290.
Proof.
  vm_compute. repeat split.
Qed.

(** The same defect on a bit outside the emulated mask: with initialiser
    value 0x0002 and host value 0x0280 the value stored has bit 1 set, which
    the host does not have. *)
Lemma reg_sync_invents_host_bit :
  reg_sync_value reg_status 0x0002 0x0280 = 0x0282 /\
  reg_sync_expected reg_status 0x0002 0x0280 = 0x0280.
Proof.
  vm_compute. split; reflexivity.
Qed.

(** ** Status and Capabilities Pointer *)

(** C10, at the failing input: on a host whose Status register reads 0x0290
    and whose capability list starts at 0x40, attach initialises the Header
    registers up to Status without error; the emulated Capabilities Pointer
    then holds 0x40, the initialiser of Status computes 0x0010, and yet the
    Status word of the image is 0x0280 and the guest reads Status with the
    Capability-List bit clear. *)
Lemma C10_status_bit_lost_at_attach :
  exists s',
    init_regs 48 0 AttachFixtures.header_created 0
      xen_pt_emu_reg_header0_to_status = Some (RegAdded, s') /\
    pci_get_byte (dev_config s') PCI_CAPABILITY_LIST = 0x40 /\
    pci_get_word (dev_config s') PCI_STATUS = 0x0280 /\
    xen_pt_word_reg_read s' AttachFixtures.status_entry 0x0290 0xFFFF = (0, 0x0280) /\
    Z.land 0x0280 PCI_STATUS_CAP_LIST = 0.
Proof.
  eexists. split; [vm_compute; reflexivity|].
  vm_compute. repeat split.
Qed.

(** The initialiser of Status tests the half word at the Capabilities
    Pointer: with the pointer 0 and the reserved byte behind it non-zero in
    the image, it still answers 0x0010. *)
Lemma status_init_tests_half_word :
  let d := Fixtures.device_of [(0x06, 0x10); (0x35, 0x01)] in
  let s := Fixtures.with_grp (Fixtures.state_of d) Fixtures.header_grp 0 0x40 in
  exists s',
    init_regs 48 0 s 0 [reg_cap_ptr] = Some (RegAdded, s') /\
    pci_get_byte (dev_config s') PCI_CAPABILITY_LIST = 0 /\
    fst (xen_pt_status_reg_init s' reg_status PCI_STATUS) = InitOk 0x0010.
Proof.
  eexists. split; [vm_compute; reflexivity|]. vm_compute. split; reflexivity.
Qed.

Lemma merge_mask_zero value data : XEN_PT_MERGE_VALUE value data 0 = data.
Proof.
  unfold XEN_PT_MERGE_VALUE. rewrite Z.land_0_r, Z.lor_0_l.
  change (Z.lnot 0) with (-1). apply Z.land_m1_r.
Qed.

(** Guest writes keep what attach left: a write through the handlers of the
    two registers leaves the emulated copy of Status and of the Capabilities
    Pointer as it was, whatever is written. *)
Lemma status_and_cap_ptr_survive_writes s val dev_value valid_mask :
  pci_get_word
    (dev_config (snd (xen_pt_word_reg_write s AttachFixtures.status_entry
                        val dev_value valid_mask))) PCI_STATUS =
  uint16 (pci_get_word (dev_config s) PCI_STATUS) /\
  pci_get_byte
    (dev_config (snd (xen_pt_byte_reg_write s AttachFixtures.cap_ptr_entry
                        val dev_value valid_mask))) PCI_CAPABILITY_LIST =
  uint8 (pci_get_byte (dev_config s) PCI_CAPABILITY_LIST).
Proof.
  unfold xen_pt_word_reg_write, xen_pt_byte_reg_write.
  cbn [snd fst]. unfold set_dev_config. cbn [dev_config].
  unfold AttachFixtures.status_entry, AttachFixtures.cap_ptr_entry. cbn [ptr reg].
  rewrite get_set_word, get_set_byte.
  unfold reg_status, reg_cap_ptr, reg_info. cbn [emu_mask ro_mask].
  change (Z.land 0x0010 (not32 0x06F8)) with 0.
  change (Z.land 0xFF (not32 0xFF)) with 0.
  rewrite Z.land_0_l.
  change (uint16 0) with 0. change (uint8 0) with 0.
  rewrite !merge_mask_zero.
  unfold uint16, uint8. rewrite !cast_idem by lia. split; reflexivity.
Qed.

(** ** MSI *)

(** C9: when the 64-bit-address flag of the MSI state is clear, the
    initialiser of Message Upper Address reports the not-present value, so
    [xen_pt_config_reg_init] creates no register for it in any group of the
    state and leaves the state as it was; and the write handler of that
    register returns -1 with the guest value, the image and the MSI address
    and data fields untouched (only the error message is added). *)
Theorem C9_upper_address_absent s : MsiSpec.upper_address_absent s.
Proof.
  unfold MsiSpec.upper_address_absent, MsiSpec.msi_32bit_only. intros H64.
  assert (Hinit : forall ro,
             xen_pt_msgaddr64_reg_init s reg_msi_addr_hi ro =
             InitOk XEN_PT_INVALID_REG).
  { intros ro. unfold xen_pt_msgaddr64_reg_init. rewrite H64. reflexivity. }
  split; [exact Hinit|]. split.
  - intros fuel val0 grp_idx Hidx. unfold xen_pt_config_reg_init.
    destruct (nth_error (reg_grps s) grp_idx) as [g|] eqn:Hg.
    + cbn [init reg_msi_addr_hi reg_info run_init]. rewrite Hinit. reflexivity.
    + apply nth_error_None in Hg. lia.
  - intros upd e val dev_value valid_mask. eexists.
    unfold xen_pt_msgaddr64_reg_write. rewrite H64. reflexivity.
Qed.

(** C9 on a device whose MSI state has no flag set. *)
Lemma C9_upper_address_absent_witness :
  xen_pt_config_reg_init 1 0 MsiFixtures.msi_created 0 reg_msi_addr_hi =
  Some (RegNotPresent, MsiFixtures.msi_created).
Proof.
  apply (proj1 (proj2 (C9_upper_address_absent MsiFixtures.msi_created eq_refl))).
  simpl. lia.
Defined.

Lemma msgctrl_emulate_initialized s e val dev_value valid_mask :
  initialized (msi (snd (msgctrl_emulate s e val dev_value valid_mask))) =
  initialized (msi s).
Proof.
  unfold msgctrl_emulate. cbn [snd].
  destruct (truthy (Z.land val PCI_MSI_FLAGS_QSIZE)); reflexivity.
Qed.

Lemma msgctrl_enable_forwarded s p val dev_value valid_mask :
  Z.testbit val 0 = true -> Z.testbit valid_mask 0 = true ->
  Z.testbit (fst (msgctrl_emulate s {| reg := reg_msi_msgctrl; ptr := p |}
                    val dev_value valid_mask)) 0 = true.
Proof.
  intros Hv Hm. unfold msgctrl_emulate. cbn [fst reg].
  unfold XEN_PT_MERGE_VALUE, get_throughable_mask.
  unfold reg_msi_msgctrl, reg_info. cbn [emu_mask ro_mask res_mask].
  destruct (permissive s); cbn [negb];
    unfold_uint; bits_simpl; rewrite Hv, Hm; reflexivity.
Qed.

Lemma enable_bit_set val :
  Z.testbit val 0 = true -> truthy (Z.land val PCI_MSI_FLAGS_ENABLE) = true.
Proof.
  intros H. unfold truthy. destruct (Z.eqb_spec (Z.land val PCI_MSI_FLAGS_ENABLE) 0) as [E|]; [|reflexivity].
  assert (Hb : Z.testbit (Z.land val PCI_MSI_FLAGS_ENABLE) 0 = true).
  { rewrite Z.land_spec, H. reflexivity. }
  rewrite E in Hb. discriminate.
Qed.

Lemma enable_bit_cleared val :
  Z.testbit (uint16 (Z.land val (Z.lnot PCI_MSI_FLAGS_ENABLE))) 0 = false.
Proof.
  unfold uint16. rewrite cast_testbit, Z.land_spec, Z.lnot_spec by lia.
  change (Z.testbit PCI_MSI_FLAGS_ENABLE 0) with true.
  rewrite andb_false_r. reflexivity.
Qed.

Lemma msgctrl_write_never_fails setup update disable :
  MsiSpec.never_an_error setup update disable.
Proof.
  intros s e val dev_value valid_mask. unfold xen_pt_msgctrl_reg_write.
  destruct (msgctrl_emulate s e val dev_value valid_mask) as [val1 s1].
  unfold msgctrl_update_msi.
  destruct (truthy (Z.land val1 PCI_MSI_FLAGS_ENABLE)).
  - destruct (negb (initialized (msi s1))); [|reflexivity].
    destruct (setup (XEN_PT_LOG "setup MSI" s1)) as [rc s2].
    destruct (truthy rc); [reflexivity|].
    destruct (update s2) as [rc' s3].
    destruct (truthy rc'); reflexivity.
  - destruct (mapped (msi s1)); reflexivity.
Qed.

(** C6: a guest write to Message Control that sets the enable flag while MSI
    has not been set up, and for which the backend's setup step or bind step
    fails, returns 0 with the enable bit cleared in the value it forwards and
    a warning as its last message; and the handler returns 0 in every case,
    so the backend's failure code never reaches the caller. *)
Theorem C6_msi_enable_failure_contained setup update disable :
  MsiSpec.enable_failure_contained setup update disable /\
  MsiSpec.never_an_error setup update disable.
Proof.
  split; [|apply msgctrl_write_never_fails].
  unfold MsiSpec.enable_failure_contained, MsiSpec.backend_fails.
  intros s p val dev_value valid_mask after. cbv zeta.
  intros Hinit Hv Hm Hfail.
  pose proof (msgctrl_enable_forwarded s p val dev_value valid_mask Hv Hm) as Hen.
  pose proof (msgctrl_emulate_initialized s {| reg := reg_msi_msgctrl; ptr := p |}
                val dev_value valid_mask) as Hini.
  unfold xen_pt_msgctrl_reg_write.
  destruct (msgctrl_emulate s {| reg := reg_msi_msgctrl; ptr := p |} val dev_value
              valid_mask) as [val1 s1].
  cbn [fst snd] in *. rewrite Hinit in Hini.
  unfold msgctrl_update_msi.
  rewrite (enable_bit_set val1 Hen), Hini. cbn [negb].
  destruct (setup (XEN_PT_LOG "setup MSI" s1)) as [rc s2]. cbn [fst snd] in Hfail.
  destruct Hfail as [[Hrc ->] | (Hrc & Hrc' & ->)].
  - unfold truthy. destruct (Z.eqb_spec rc 0); [contradiction|]. cbn [negb].
    eexists. split; [reflexivity | apply enable_bit_cleared].
  - subst rc. cbn [truthy Z.eqb negb].
    destruct (update s2) as [rc' s3]. cbn [fst snd] in *.
    unfold truthy. destruct (Z.eqb_spec rc' 0); [contradiction|]. cbn [negb].
    eexists. split; [reflexivity | apply enable_bit_cleared].
Qed.

(** C6 with a backend whose setup step fails: the guest writes 0x0001. *)
Lemma C6_msi_enable_failure_witness :
  exists msg s',
    xen_pt_msgctrl_reg_write MsiFixtures.failing_setup MsiFixtures.ok_update
      MsiFixtures.no_disable MsiFixtures.msi_state
      {| reg := reg_msi_msgctrl; ptr := 0x52 |} 0x0001 0x0000 0xFFFF =
    (0, 0, XEN_PT_WARN msg s').
Proof.
  destruct (proj1 (C6_msi_enable_failure_contained MsiFixtures.failing_setup
              MsiFixtures.ok_update MsiFixtures.no_disable)
              MsiFixtures.msi_state 0x52 0x0001 0x0000 0xFFFF
              (XEN_PT_LOG "setup MSI"
                 (snd (msgctrl_emulate MsiFixtures.msi_state
                         {| reg := reg_msi_msgctrl; ptr := 0x52 |}
                         0x0001 0x0000 0xFFFF)))
              eq_refl eq_refl eq_refl)
    as (msg & Heq & _).
  - left. split; [discriminate | reflexivity].
  - exists msg. eexists. exact Heq.
Defined.

(** ** Size resolvers *)

(** C3 fails as stated: for a Dynamic Power Allocation capability at 0xFF0
    that reports 32 substates the resolver returns 0 and the size 48, with 16
    bytes of extended space left. *)
Lemma C3_counterexample :
  fst (xen_pt_ext_cap_dpa_size_init SizeFixtures.ext_state 0xFF0) = (0, 48) /\
  ext_space_budget 0xFF0 = 16 /\
  ~ SizeSpec.capped 48 0xFF0.
Proof.
  split; [vm_compute; reflexivity|].
  split; [reflexivity|]. unfold SizeSpec.capped. vm_compute. intros H. apply H. reflexivity.
Qed.

Lemma land_ones_range x k : 0 <= k -> 0 <= Z.land x (Z.ones k) < 2 ^ k.
Proof. intros Hk. apply (cast_range k x Hk). Qed.

Lemma shiftr_land_range x m sh k :
  0 <= sh -> 0 <= k -> m = Z.shiftl (Z.ones k) sh ->
  0 <= Z.shiftr (Z.land x m) sh < 2 ^ k.
Proof.
  intros Hsh Hk ->.
  rewrite Z.shiftr_land, Z.shiftr_shiftl_l, Z.sub_diag, Z.shiftl_0_r by lia.
  apply land_ones_range, Hk.
Qed.

Lemma sized_dpa s base_offset :
  let r := xen_host_pci_get_long (real_device s) (uint32 (base_offset + PCI_DPA_CAP)) in
  let '(rc, size, _) := xen_pt_ext_cap_dpa_size_init s base_offset in
  rc = host_rc r /\
  size = PCI_DPA_BASE_SIZEOF + Z.land (or_zero r) PCI_DPA_CAP_SUBSTATE_MASK + 1 /\
  17 <= size <= 48.
Proof.
  cbv zeta. unfold xen_pt_ext_cap_dpa_size_init.
  set (r := xen_host_pci_get_long _ _).
  pose proof (land_ones_range (or_zero r) 5 ltac:(lia)) as Hr.
  change (Z.ones 5) with PCI_DPA_CAP_SUBSTATE_MASK in Hr. change (2 ^ 5) with 32 in Hr.
  unfold uint32. rewrite (cast_small 32 (_ + 1)) by (change (2 ^ 32) with 4294967296; lia).
  rewrite cast_small by (unfold PCI_DPA_BASE_SIZEOF; change (2 ^ 32) with 4294967296; lia).
  unfold PCI_DPA_BASE_SIZEOF. repeat split; lia.
Qed.

Lemma sized_tph s base_offset :
  let r := xen_host_pci_get_long (real_device s) (uint32 (base_offset + PCI_TPH_CAP)) in
  let '(rc, size, _) := xen_pt_ext_cap_tph_size_init s base_offset in
  rc = host_rc r /\ 12 <= size <= 4108.
Proof.
  cbv zeta. unfold xen_pt_ext_cap_tph_size_init.
  set (r := xen_host_pci_get_long _ _).
  pose proof (shiftr_land_range (or_zero r) PCI_TPH_CAP_ST_MASK PCI_TPH_CAP_ST_SHIFT 11
                ltac:(unfold PCI_TPH_CAP_ST_SHIFT; lia) ltac:(lia) eq_refl) as Hr.
  change (2 ^ 11) with 2048 in Hr.
  split; [reflexivity|].
  destruct (Z.land (or_zero r) PCI_TPH_CAP_LOC_MASK =? PCI_TPH_LOC_CAP).
  - unfold uint32.
    rewrite (cast_small 32 (_ + 1)) by (change (2 ^ 32) with 4294967296; lia).
    rewrite cast_small by (unfold PCI_TPH_BASE_SIZEOF; change (2 ^ 32) with 4294967296; lia).
    unfold PCI_TPH_BASE_SIZEOF. lia.
  - vm_compute. split; discriminate.
Qed.

Lemma sized_dpc s base_offset :
  let r := xen_host_pci_get_word (real_device s) (uint32 (base_offset + PCI_EXP_DPC_CAP)) in
  let '(rc, size, _) := xen_pt_ext_cap_dpc_size_init s base_offset in
  rc = host_rc r /\ 12 <= size <= 92.
Proof.
  cbv zeta. unfold xen_pt_ext_cap_dpc_size_init.
  set (r := xen_host_pci_get_word _ _).
  pose proof (shiftr_land_range (or_zero r) PCI_EXP_DPC_RP_PIO_LOG_SIZE 8 4
                ltac:(lia) ltac:(lia) eq_refl) as Hr.
  change (2 ^ 4) with 16 in Hr.
  split; [reflexivity|].
  destruct (truthy (Z.land (or_zero r) PCI_EXP_DPC_CAP_RP_EXT)); lia.
Qed.

Lemma sized_pmux s base_offset :
  let r := xen_host_pci_get_long (real_device s) (uint32 (base_offset + 4)) in
  let '(rc, size, _) := xen_pt_ext_cap_pmux_size_init s base_offset in
  rc = host_rc r /\
  size = 0x10 + PMUX_GET_NUM_ENTRIES (or_zero r) * 4 /\
  16 <= size <= 268.
Proof.
  cbv zeta. unfold xen_pt_ext_cap_pmux_size_init, PMUX_GET_NUM_ENTRIES.
  set (r := xen_host_pci_get_long _ _).
  pose proof (land_ones_range (or_zero r) 6 ltac:(lia)) as Hr.
  change (Z.ones 6) with 0x3F in Hr. change (2 ^ 6) with 64 in Hr.
  unfold uint32. rewrite cast_small by (change (2 ^ 32) with 4294967296; lia).
  repeat split; lia.
Qed.

Lemma log_grows_refl s : log_grows s s.
Proof. split; auto. Qed.

Lemma log_grows_trans s1 s2 s3 :
  log_grows s1 s2 -> log_grows s2 s3 -> log_grows s1 s3.
Proof.
  intros [Hd1 Hl1] [Hd2 Hl2]. split; [congruence | auto].
Qed.

Lemma log_grows_emit e s : log_grows s (emit e s).
Proof. split; [reflexivity | intros e' H; right; exact H]. Qed.

Lemma log_grows_arb_len s m c :
  log_grows s (snd (get_arb_table_len_max s m c)).
Proof.
  unfold get_arb_table_len_max.
  destruct (negb (truthy c)); [apply log_grows_refl|].
  set (s1 := if _ >? m then _ else s).
  assert (H1 : log_grows s s1).
  { unfold s1. destruct (_ >? m); [apply log_grows_emit | apply log_grows_refl]. }
  repeat match goal with
         | |- context [if ?b then _ else _] => destruct b
         end; exact H1.
Qed.

Lemma log_grows_ext_cap s name base size :
  log_grows s (log_pcie_extended_cap s name base size).
Proof.
  unfold log_pcie_extended_cap.
  destruct (truthy size); [apply log_grows_emit | apply log_grows_refl].
Qed.

Lemma vchan_resources_total n :
  forall i s base vcm esz smax emax,
    (forall j, i <= j < i + Z.of_nat n ->
       xen_host_pci_get_long (real_device s)
         (uint32 (base + PCI_VC_RES_CAP + j * PCI_CAP_VC_PER_VC_SIZEOF)) <> None) ->
    exists r s',
      vchan_resources n i s base vcm esz smax emax = (inr r, s') /\
      log_grows s s'.
Proof.
  induction n as [|n IH]; intros i s base vcm esz smax emax Hread;
    cbn [vchan_resources].
  - eexists _, _. split; [reflexivity | apply log_grows_refl].
  - specialize (Hread i ltac:(lia)) as Hi.
    destruct (xen_host_pci_get_long (real_device s)
                (uint32 (base + PCI_VC_RES_CAP + i * PCI_CAP_VC_PER_VC_SIZEOF)))
      as [cap|]; [clear Hi | contradiction].
    destruct (GET_ARB_TABLE_OFFSET cap >? smax);
      [|apply IH; intros j Hj; apply Hread; lia].
    set (s1 := if GET_ARB_TABLE_OFFSET cap >=? vcm then _ else s).
    assert (H1 : log_grows s s1).
    { unfold s1. destruct (_ >=? vcm); [apply log_grows_emit | apply log_grows_refl]. }
    destruct (truthy _).
    + pose proof (log_grows_arb_len s1 5 (GET_VC_ARB_CAPABILITY cap)) as H2.
      destruct (get_arb_table_len_max s1 5 (GET_VC_ARB_CAPABILITY cap)) as [np s2].
      cbn [snd] in H2.
      pose proof (log_grows_trans _ _ _ H1 H2) as H12.
      edestruct (IH (i + 1) s2) as (r & s' & Heq & Hg).
      { intros j Hj. rewrite (proj1 H12). apply Hread. lia. }
      rewrite Heq. eexists _, _. split; [reflexivity|].
      eapply log_grows_trans; eassumption.
    + edestruct (IH (i + 1) s1) as (r & s' & Heq & Hg).
      { intros j Hj. rewrite (proj1 H1). apply Hread. lia. }
      rewrite Heq. eexists _, _. split; [reflexivity|].
      eapply log_grows_trans; eassumption.
Qed.

Lemma vchan_tolerant_holds : SizeSpec.vchan_tolerant.
Proof.
  unfold SizeSpec.vchan_tolerant.
  intros s base header cap1 cap2. cbv zeta. intros Hh Hid H1 H2 Hres.
  unfold xen_pt_ext_cap_vchan_size_init.
  rewrite Hh, Hid. cbn [negb]. rewrite H1, H2.
  set (vcm := vchan_cap_max_size base header).
  set (s1 := if GET_ARB_TABLE_OFFSET cap2 >=? vcm then _ else s).
  assert (Hs1 : log_grows s s1).
  { unfold s1. destruct (_ >=? vcm); [apply log_grows_emit | apply log_grows_refl]. }
  assert (Hwarn : GET_ARB_TABLE_OFFSET cap2 >= vcm ->
                  In (ERR "Warning: VC arbitration table offset points outside the expected range")
                     (log s1)).
  { intros Hge. unfold s1.
    destruct (Z.geb_spec (GET_ARB_TABLE_OFFSET cap2) vcm); [left; reflexivity | lia]. }
  set (smax := if GET_ARB_TABLE_OFFSET cap2 >=? vcm then 0 else _).
  assert (Hphase :
            exists em s2,
              (if truthy smax
               then
                 let (num_phases, s0) :=
                   get_arb_table_len_max s1 3 (GET_VC_ARB_CAPABILITY cap2) in
                 (uint32 (base + smax +
                          uint32 (QEMU_ALIGN_UP (uint32 (num_phases * 4)) 32) / 8), s0)
               else (0, s1)) = (em, s2) /\ log_grows s1 s2).
  { destruct (truthy smax).
    - pose proof (log_grows_arb_len s1 3 (GET_VC_ARB_CAPABILITY cap2)) as Hg.
      destruct (get_arb_table_len_max s1 3 (GET_VC_ARB_CAPABILITY cap2)) as [np s2].
      eexists _, _. split; [reflexivity | exact Hg].
    - eexists _, _. split; [reflexivity | apply log_grows_refl]. }
  destruct Hphase as (em & s2 & Heq & Hs2). rewrite Heq.
  pose proof (log_grows_trans _ _ _ Hs1 Hs2) as Hs12.
  edestruct (vchan_resources_total (Z.to_nat (Z.land cap1 PCI_VC_CAP1_EVCC)) 0 s2 base vcm
               (ARB_TABLE_ENTRY_SIZE_BITS cap1) smax em)
    as ([sm' em'] & s3 & Hloop & Hs3).
  { pose proof (land_ones_range cap1 3 ltac:(lia)) as Hc.
    change (Z.ones 3) with PCI_VC_CAP1_EVCC in Hc. change (2 ^ 3) with 8 in Hc.
    intros j Hj. rewrite Z2Nat.id in Hj by lia.
    rewrite (proj1 Hs12). apply Hres. lia. }
  rewrite Hloop.
  eexists _, _. split; [reflexivity|].
  intros Hge.
  apply (proj2 (log_grows_ext_cap s3 _ base _)).
  apply (proj2 Hs3). apply (proj2 Hs2). apply Hwarn, Hge.
Qed.

Lemma field_range w lo n : 0 <= n -> 0 <= SizeSpec.field w lo n < 2 ^ n.
Proof.
  intros Hn. unfold SizeSpec.field. apply Z.mod_pos_bound, Z.pow_pos_nonneg; lia.
Qed.

Lemma land_ones_field w n : 0 <= n -> Z.land w (Z.ones n) = SizeSpec.field w 0 n.
Proof.
  intros Hn. unfold SizeSpec.field. rewrite Z.land_ones by assumption.
  change (2 ^ 0) with 1. rewrite Z.div_1_r. reflexivity.
Qed.

Lemma shiftr_land_field w lo n :
  0 <= lo -> 0 <= n ->
  Z.shiftr (Z.land w (Z.shiftl (Z.ones n) lo)) lo = SizeSpec.field w lo n.
Proof.
  intros Hlo Hn. unfold SizeSpec.field.
  rewrite Z.shiftr_land, Z.shiftr_shiftl_l, Z.sub_diag, Z.shiftl_0_r by lia.
  rewrite Z.land_ones, Z.shiftr_div_pow2 by assumption. reflexivity.
Qed.

Lemma land_shiftl_field w lo n :
  0 <= lo -> 0 <= n ->
  Z.land w (Z.shiftl (Z.ones n) lo) = SizeSpec.field w lo n * 2 ^ lo.
Proof.
  intros Hlo Hn. rewrite <- shiftr_land_field by assumption.
  rewrite <- Z.shiftl_mul_pow2 by assumption.
  apply Z.bits_inj'. intros i Hi.
  rewrite Z.shiftl_spec by assumption.
  destruct (Z.ltb_spec i lo).
  - rewrite (Z.testbit_neg_r _ (i - lo)) by lia.
    rewrite Z.land_spec, Z.shiftl_spec_low by assumption. apply andb_false_r.
  - rewrite Z.shiftr_spec by lia. f_equal. lia.
Qed.

Lemma sized_exactly_holds : SizeSpec.sized_exactly.
Proof.
  intros s base_offset. cbv zeta. repeat split.
  - unfold xen_pt_ext_cap_dpa_size_init, SizeSpec.dpa_size. cbn [fst]. f_equal.
    set (w := or_zero _).
    change PCI_DPA_CAP_SUBSTATE_MASK with (Z.ones 5).
    rewrite land_ones_field by lia.
    pose proof (field_range w 0 5 ltac:(lia)) as Hr. change (2 ^ 5) with 32 in Hr.
    unfold uint32, PCI_DPA_BASE_SIZEOF.
    rewrite (cast_small 32 (_ + 1)) by (change (2 ^ 32) with 4294967296; lia).
    rewrite cast_small by (change (2 ^ 32) with 4294967296; lia).
    reflexivity.
  - unfold xen_pt_ext_cap_tph_size_init, SizeSpec.tph_size. cbn [fst]. f_equal.
    set (w := or_zero _).
    change PCI_TPH_CAP_LOC_MASK with (Z.shiftl (Z.ones 2) 9).
    change PCI_TPH_CAP_ST_MASK with (Z.shiftl (Z.ones 11) PCI_TPH_CAP_ST_SHIFT).
    unfold PCI_TPH_CAP_ST_SHIFT, PCI_TPH_LOC_CAP, PCI_TPH_BASE_SIZEOF.
    rewrite land_shiftl_field, shiftr_land_field by lia.
    pose proof (field_range w 9 2 ltac:(lia)) as Hl.
    pose proof (field_range w 16 11 ltac:(lia)) as Hr. change (2 ^ 11) with 2048 in Hr.
    change (2 ^ 9) with 512.
    destruct (Z.eqb_spec (SizeSpec.field w 9 2 * 512) 512) as [E | E];
      destruct (Z.eqb_spec (SizeSpec.field w 9 2) 1) as [E1 | E1]; try lia.
    + unfold uint32.
      rewrite (cast_small 32 (_ + 1)) by (change (2 ^ 32) with 4294967296; lia).
      rewrite cast_small by (change (2 ^ 32) with 4294967296; lia). lia.
    + reflexivity.
  - unfold xen_pt_ext_cap_dpc_size_init, SizeSpec.dpc_size. cbn [fst]. f_equal.
    set (w := or_zero _).
    change PCI_EXP_DPC_CAP_RP_EXT with (Z.shiftl (Z.ones 1) 5).
    change PCI_EXP_DPC_RP_PIO_LOG_SIZE with (Z.shiftl (Z.ones 4) 8).
    rewrite land_shiftl_field, shiftr_land_field by lia.
    pose proof (field_range w 5 1 ltac:(lia)) as Hl. change (2 ^ 1) with 2 in Hl.
    unfold truthy. change (2 ^ 5) with 32.
    destruct (Z.eqb_spec (SizeSpec.field w 5 1 * 32) 0) as [E | E];
      destruct (Z.eqb_spec (SizeSpec.field w 5 1) 1) as [E1 | E1]; cbn [negb]; lia.
  - unfold xen_pt_ext_cap_pmux_size_init, SizeSpec.pmux_size, PMUX_GET_NUM_ENTRIES.
    cbn [fst]. f_equal.
    set (w := or_zero _).
    change 0x3F with (Z.ones 6).
    rewrite land_ones_field by lia.
    pose proof (field_range w 0 6 ltac:(lia)) as Hr. change (2 ^ 6) with 64 in Hr.
    unfold uint32. rewrite cast_small by (change (2 ^ 32) with 4294967296; lia).
    lia.
Qed.

Lemma none_capped_holds : SizeSpec.none_capped.
Proof.
  unfold SizeSpec.none_capped, SizeSpec.exceeds_budget, SizeSpec.capped.
  repeat split.
  - exists (SizeFixtures.last_cap_state 0x1F 0 0 0), 0xFF0, 48.
    split; [vm_compute; split; [discriminate | reflexivity]|].
    split; [vm_compute; reflexivity | vm_compute; intros H; apply H; reflexivity].
  - exists (SizeFixtures.last_cap_state 0 0x02 0x07 0), 0xFF0, 28.
    split; [vm_compute; split; [discriminate | reflexivity]|].
    split; [vm_compute; reflexivity | vm_compute; intros H; apply H; reflexivity].
  - exists (SizeFixtures.last_cap_state 0x20 0x04 0 0), 0xFF0, 48.
    split; [vm_compute; split; [discriminate | reflexivity]|].
    split; [vm_compute; reflexivity | vm_compute; intros H; apply H; reflexivity].
  - exists (SizeFixtures.last_cap_state 0x08 0 0 0), 0xFF0, 48.
    split; [vm_compute; split; [discriminate | reflexivity]|].
    split; [vm_compute; reflexivity | vm_compute; intros H; apply H; reflexivity].
  - exists SizeFixtures.vc_table_state, 0xF00, 0x130.
    split; [vm_compute; split; [discriminate | reflexivity]|].
    split; [vm_compute; reflexivity | vm_compute; intros H; apply H; reflexivity].
Qed.

Lemma vchan_resources_left_out n :
  forall i s base vcm esz,
    (forall j, i <= j < i + Z.of_nat n ->
       exists c,
         xen_host_pci_get_long (real_device s)
           (uint32 (base + PCI_VC_RES_CAP + j * PCI_CAP_VC_PER_VC_SIZEOF)) = Some c /\
         SizeSpec.table_left_out vcm (GET_ARB_TABLE_OFFSET c)) ->
    exists s',
      vchan_resources n i s base vcm esz 0 0 = (inr (0, 0), s') /\
      log_grows s s' /\
      (forall j c, i <= j < i + Z.of_nat n ->
         xen_host_pci_get_long (real_device s)
           (uint32 (base + PCI_VC_RES_CAP + j * PCI_CAP_VC_PER_VC_SIZEOF)) = Some c ->
         GET_ARB_TABLE_OFFSET c >= vcm -> GET_ARB_TABLE_OFFSET c > 0 ->
         In (ERR "Warning: Port/Function arbitration table offset points outside the expected range")
            (log s')).
Proof.
  induction n as [|n IH]; intros i s base vcm esz Hres.
  - exists s. split; [reflexivity|]. split; [apply log_grows_refl|].
    intros j c Hj. simpl in Hj. lia.
  - cbn [vchan_resources].
    destruct (Hres i ltac:(lia)) as (c & Hc & Hout). rewrite Hc. cbv zeta.
    destruct (Z.gtb_spec (GET_ARB_TABLE_OFFSET c) 0) as [Hgt | Hle].
    + destruct Hout as [E | Hge]; [lia|].
      destruct (Z.geb_spec (GET_ARB_TABLE_OFFSET c) vcm) as [_ | Hlt]; [|lia].
      change (truthy 0) with false. cbv iota.
      set (s1 := XEN_PT_ERR _ s).
      destruct (IH (i + 1) s1 base vcm esz) as (s' & Heq & Hg & Hw).
      { intros j Hj. apply Hres. lia. }
      exists s'. split; [exact Heq|]. split.
      * eapply log_grows_trans; [apply log_grows_emit | exact Hg].
      * intros j c' Hj Hc' Hge' Hgt'.
        destruct (Z.eq_dec j i) as [-> | Hne].
        -- apply (proj2 Hg). left. reflexivity.
        -- apply (Hw j c'); [lia | exact Hc' | assumption | assumption].
    + destruct (IH (i + 1) s base vcm esz) as (s' & Heq & Hg & Hw).
      { intros j Hj. apply Hres. lia. }
      exists s'. split; [exact Heq|]. split; [exact Hg|].
      intros j c' Hj Hc' Hge' Hgt'.
      destruct (Z.eq_dec j i) as [-> | Hne].
      * rewrite Hc in Hc'. injection Hc' as <-. lia.
      * apply (Hw j c'); [lia | exact Hc' | assumption | assumption].
Qed.

Lemma vchan_skips_anomalous_holds : SizeSpec.vchan_skips_anomalous.
Proof.
  unfold SizeSpec.vchan_skips_anomalous.
  intros s base header cap1 cap2. cbv zeta. intros Hh Hid H1 H2 Hvc Hres.
  unfold xen_pt_ext_cap_vchan_size_init.
  rewrite Hh, Hid. cbn [negb]. rewrite H1, H2.
  set (vcm := vchan_cap_max_size base header) in *.
  set (off := GET_ARB_TABLE_OFFSET cap2) in *.
  set (n := Z.land cap1 PCI_VC_CAP1_EVCC) in *.
  assert (Hn : 0 <= n < 8).
  { pose proof (land_ones_range cap1 3 ltac:(lia)) as Hc.
    change (Z.ones 3) with PCI_VC_CAP1_EVCC in Hc. exact Hc. }
  assert (Hsize : uint32 (PCI_CAP_VC_BASE_SIZEOF + n * PCI_CAP_VC_PER_VC_SIZEOF) =
                  16 + 12 * n).
  { unfold PCI_CAP_VC_BASE_SIZEOF, PCI_CAP_VC_PER_VC_SIZEOF, uint32.
    rewrite cast_small by (change (2 ^ 32) with 4294967296; lia). lia. }
  assert (Hloop : forall s1, real_device s1 = real_device s ->
            exists s',
              vchan_resources (Z.to_nat n) 0 s1 base vcm
                (ARB_TABLE_ENTRY_SIZE_BITS cap1) 0 0 = (inr (0, 0), s') /\
              log_grows s1 s' /\
              (forall j c, 0 <= j < n ->
                 xen_host_pci_get_long (real_device s)
                   (uint32 (base + PCI_VC_RES_CAP + j * PCI_CAP_VC_PER_VC_SIZEOF)) = Some c ->
                 GET_ARB_TABLE_OFFSET c >= vcm -> GET_ARB_TABLE_OFFSET c > 0 ->
                 In (ERR "Warning: Port/Function arbitration table offset points outside the expected range")
                    (log s'))).
  { intros s1 Hd.
    destruct (vchan_resources_left_out (Z.to_nat n) 0 s1 base vcm
                (ARB_TABLE_ENTRY_SIZE_BITS cap1)) as (s' & Heq & Hg & Hw).
    - intros j Hj. rewrite Hd. apply Hres. rewrite Z2Nat.id in Hj by lia. lia.
    - exists s'. split; [exact Heq|]. split; [exact Hg|].
      intros j c Hj Hc Hge' Hgt'.
      apply (Hw j c); [rewrite Z2Nat.id by lia; lia | | assumption | assumption].
      rewrite Hd. exact Hc. }
  destruct (Z.geb_spec off vcm) as [Hge | Hlt].
  - change (truthy 0) with false. cbv iota.
    set (s1 := XEN_PT_ERR _ s).
    destruct (Hloop s1 eq_refl) as (s' & Heq & Hg & Hw).
    rewrite Heq. change (truthy 0) with false. cbv iota. rewrite Hsize.
    eexists. split; [reflexivity|]. split.
    + intros _. apply (proj2 (log_grows_ext_cap s' _ base _)).
      apply (proj2 Hg). left. reflexivity.
    + intros j c Hj Hc Hge' Hgt'.
      apply (proj2 (log_grows_ext_cap s' _ base _)).
      apply (Hw j c); assumption.
  - assert (E : off = 0) by (destruct Hvc as [E | E]; [exact E | lia]).
    rewrite E. change (truthy 0) with false. cbv iota.
    destruct (Hloop s eq_refl) as (s' & Heq & Hg & Hw).
    rewrite Heq. change (truthy 0) with false. cbv iota. rewrite Hsize.
    eexists. split; [reflexivity|]. split.
    + intros Hge. lia.
    + intros j c Hj Hc Hge' Hgt'.
      apply (proj2 (log_grows_ext_cap s' _ base _)).
      apply (Hw j c); assumption.
Qed.

(** C3 (as the code has it): none of the five resolvers compares its result
    with the budget, and each of them goes over it on some device.  Dynamic
    Power Allocation, TPH Requester, Downstream Port Containment and Protocol
    Multiplexing return the status of their one host read and exactly the
    size that the fields of the word read give (16 bytes and one for each
    substate; 12 bytes and two for each entry of an ST table in the
    capability; 12 bytes, or 32 and four for each entry of the RP PIO log;
    16 bytes and four for each entry), at most 48, 4108, 92 and 268 bytes.
    Virtual Channel uses the budget (or the distance to the next capability)
    to check the arbitration-table offsets only: an offset at or beyond it is
    reported in a message and the resolver still returns 0 with a size,
    provided its host reads succeed and the id is VC, VC9 or MFVC; and when
    the VC arbitration table and every Port/Function arbitration table is
    absent or has such an offset, the size is that of the structure without
    tables, 16 bytes and 12 for each extended VC, with a message for each
    table left out for its offset. *)
Theorem C3_sizes_from_host_fields :
  SizeSpec.sized_from_host_word /\ SizeSpec.vchan_tolerant /\
  SizeSpec.sized_exactly /\ SizeSpec.none_capped /\
  SizeSpec.vchan_skips_anomalous.
Proof.
  split; [|split; [exact vchan_tolerant_holds|]].
  - intros s base_offset.
    split; [exact (sized_dpa s base_offset)|].
    split; [exact (sized_tph s base_offset)|].
    split; [exact (sized_dpc s base_offset) | exact (sized_pmux s base_offset)].
  - split; [exact sized_exactly_holds|].
    split; [exact none_capped_holds | exact vchan_skips_anomalous_holds].
Qed.

(** C3 on two fixtures.  The Virtual Channel capability at 0x200 whose VC
    arbitration table offset 0xFF0 lies beyond the 0xE00 bytes left: the
    resolver returns 0 and the base size 0x10, and the offset is reported.
    The one with an extended VC whose Port arbitration table offset is 0xFF0
    as well: the resolver returns 0 and the size 0x1C of the structure
    without tables, and both offsets are reported. *)
Lemma C3_sizes_witness :
  (exists s',
     xen_pt_ext_cap_vchan_size_init SizeFixtures.ext_state 0x200 = (0, Some 0x10, s') /\
     In (ERR "Warning: VC arbitration table offset points outside the expected range")
        (log s')) /\
  (exists s',
     xen_pt_ext_cap_vchan_size_init SizeFixtures.vc_anomalous_state 0x200 =
       (0, Some 0x1C, s') /\
     In (ERR "Warning: VC arbitration table offset points outside the expected range")
        (log s') /\
     In (ERR "Warning: Port/Function arbitration table offset points outside the expected range")
        (log s')).
Proof.
  split.
  - destruct (proj1 (proj2 C3_sizes_from_host_fields) SizeFixtures.ext_state 0x200
                0x00010002 0 0xFF000000 eq_refl eq_refl eq_refl eq_refl)
      as (size & s' & Heq & Hlog).
    + intros i Hi. change (Z.land 0 PCI_VC_CAP1_EVCC) with 0 in Hi. lia.
    + exists s'. split.
      * rewrite Heq. f_equal. f_equal.
        assert (Hsz : snd (fst (xen_pt_ext_cap_vchan_size_init SizeFixtures.ext_state 0x200))
                      = Some 0x10) by (vm_compute; reflexivity).
        rewrite Heq in Hsz. exact Hsz.
      * apply Hlog. vm_compute. discriminate.
  - destruct (proj2 (proj2 (proj2 (proj2 C3_sizes_from_host_fields)))
                SizeFixtures.vc_anomalous_state 0x200
                0x00010002 1 0xFF000000 eq_refl eq_refl eq_refl eq_refl)
      as (s' & Heq & Hvc & Hpf).
    + right. vm_compute. discriminate.
    + intros i Hi. change (Z.land 1 PCI_VC_CAP1_EVCC) with 1 in Hi.
      assert (i = 0) by lia. subst i.
      exists 0xFF000000. split; [reflexivity|]. right. vm_compute. discriminate.
    + exists s'. split; [exact Heq|]. split.
      * apply Hvc. vm_compute. discriminate.
      * apply (Hpf 0 0xFF000000).
        -- change (Z.land 1 PCI_VC_CAP1_EVCC) with 1. lia.
        -- reflexivity.
        -- vm_compute. discriminate.
        -- vm_compute. reflexivity.
Defined.

(** ** Hidden capabilities *)

(** In the catalogue no hardwired group has a register table, so for such a
    group [xen_pt_config_init] has no register to initialise, at 0x100 or
    elsewhere. *)
Lemma hardwired_groups_have_no_registers g reg_grp_offset :
  In g xen_pt_emu_reg_grps ->
  grp_type g = XEN_PT_GRP_TYPE_HARDWIRED ->
  regs_initialised g reg_grp_offset = None.
Proof.
  intros Hin Ht. unfold regs_initialised.
  assert (He : emu_regs g = None).
  { unfold xen_pt_emu_reg_grps in Hin. simpl in Hin.
    repeat (destruct Hin as [<- | Hin]; [first [reflexivity | discriminate Ht]|]).
    contradiction. }
  rewrite He. destruct (_ || _); reflexivity.
Qed.

Lemma get_word_range d pos v :
  xen_host_pci_get_word d pos = Some v -> 0 <= v < 2 ^ 16.
Proof.
  unfold xen_host_pci_get_word.
  destruct (config d pos) as [b0|]; [|discriminate].
  destruct (config d (pos + 1)) as [b1|]; [|discriminate].
  intros Hv.
  assert (Hv' : v = Z.lor (Bytes.to_Z b0) (Z.shiftl (Bytes.to_Z b1) 8)) by congruence.
  rewrite Hv'. clear Hv Hv'.
  pose proof (byte_to_Z_range b0). pose proof (byte_to_Z_range b1).
  rewrite Z.shiftl_mul_pow2 by lia.
  assert (Hdisj : Z.land (Bytes.to_Z b0) (Bytes.to_Z b1 * 2 ^ 8) = 0).
  { apply Z.bits_inj'. intros i Hi. rewrite Z.land_spec, Z.bits_0.
    destruct (Z.ltb_spec i 8).
    - rewrite Z.mul_pow2_bits_low by lia. apply andb_false_r.
    - rewrite (Z.bits_above_log2 (Bytes.to_Z b0)); [reflexivity | lia |].
      destruct (Z.eq_dec (Bytes.to_Z b0) 0) as [->|]; [simpl; lia|].
      apply Z.lt_le_trans with 8; [|assumption].
      apply Z.log2_lt_pow2; [lia|]. change (2 ^ 8) with 256. lia. }
  rewrite <- Z.lxor_lor, <- Z.add_nocarry_lxor by exact Hdisj.
  change (2 ^ 8) with 256. change (2 ^ 16) with 65536. lia.
Qed.

Lemma lor_shiftl_add c ver k :
  0 <= k -> 0 <= ver < 2 ^ k -> Z.lor (Z.shiftl c k) ver = c * 2 ^ k + ver.
Proof.
  intros Hk Hver. rewrite Z.shiftl_mul_pow2 by assumption.
  assert (Hdisj : Z.land (c * 2 ^ k) ver = 0).
  { destruct (Z.eq_dec ver 0) as [->|Hne]; [apply Z.land_0_r|].
    apply Z.bits_inj'. intros i Hi. rewrite Z.land_spec, Z.bits_0.
    destruct (Z.ltb_spec i k).
    - rewrite Z.mul_pow2_bits_low by lia. reflexivity.
    - rewrite (Z.bits_above_log2 ver); [apply andb_false_r | lia |].
      apply Z.lt_le_trans with k; [|assumption].
      apply Z.log2_lt_pow2; lia. }
  rewrite <- Z.lxor_lor, <- Z.add_nocarry_lxor by exact Hdisj. reflexivity.
Qed.

(** C7, at the failing input: a device with PCI Express extended
    capabilities whose list starts with Resizable BAR, the one extended
    capability that the catalogue hardwires.  Attach creates the group at
    0x100, 12 bytes long, and then initialises no register for it: the group
    is hardwired and at 0x100, as the condition of the loop body asks, but its
    catalogue entry has no register table, and so it is for every hardwired
    group of the catalogue.  The group stays without registers ([xen_pt_find_reg]
    finds none at any address), the image is as it was, and so is the fake-id
    counter.  The branch of the id initialiser that was written for
    this case assigns the counter's value and advances the counter, with
    different ids for two uses in a row, whenever it runs on a hidden list
    head; run on this group with the header table of the emulated extended
    groups, it would put the fake id 0xFE00 at 0x100 and move the counter to
    0xFE01 (the next-pointer word would be 0x1801, where the device has
    0x1401).  Attach never runs it there. *)
Theorem C7_hidden_head_header_not_emulated :
  HideSpec.hardwired_untouched /\
  HideSpec.fake_id_assigned /\
  HideSpec.successive_ids_differ /\
  (ConfigInit.reg_grp_placement 0xFFFFFFFF true
     (Fixtures.state_of HideFixtures.rebar_first_device) Fixtures.rebar_grp = Some 0x100 /\
   fst (xen_pt_ext_cap_rebar_size_init
          (Fixtures.state_of HideFixtures.rebar_first_device) 0x100) = (0, 12) /\
   In Fixtures.rebar_grp xen_pt_emu_reg_grps /\
   grp_type Fixtures.rebar_grp = XEN_PT_GRP_TYPE_HARDWIRED /\
   emu_regs Fixtures.rebar_grp = None) /\
  (forall table fuel val0,
     exists s' g,
       xen_pt_config_init_regs table fuel val0 HideFixtures.rebar_created
         Fixtures.rebar_grp 0x100 = Some (RegAdded, s') /\
       dev_config s' = dev_config HideFixtures.rebar_created /\
       fake_cap_id s' = fake_cap_id HideFixtures.rebar_created /\
       xen_pt_find_reg_grp s' 0x100 = Some g /\
       base_offset g = 0x100 /\ reg_tbl_list g = [] /\
       forall address, xen_pt_find_reg g address = None) /\
  (exists s',
     init_regs 8 0 HideFixtures.rebar_created 0 xen_pt_ext_cap_emu_reg_dummy =
       Some (RegAdded, s') /\
     pci_get_word (dev_config s') 0x100 = 0xFE00 /\
     fake_cap_id s' = 0xFE01 /\
     pci_get_word (dev_config s') 0x102 = 0x1801 /\
     xen_host_pci_get_word HideFixtures.rebar_first_device 0x102 = Some 0x1401).
Proof.
  assert (Hfake : HideSpec.fake_id_assigned).
  { intros s r ro v Hv (g & Hf & Ht & Hb).
    unfold xen_pt_ext_cap_capid_reg_init. rewrite Hv, Hf, Ht, Hb. reflexivity. }
  split; [|split; [exact Hfake|split; [|split; [|split]]]].
  - intros table fuel val0 s g off Hin Ht. unfold xen_pt_config_init_regs.
    rewrite (hardwired_groups_have_no_registers g off Hin Ht). reflexivity.
  - intros s r ro v Hv Hhid Hrange. cbv zeta.
    rewrite (Hfake s r ro v Hv Hhid). cbn [fst snd].
    rewrite (Hfake (set_fake_cap_id s (uint16 (fake_cap_id s + 1))) r ro v Hv Hhid).
    cbn [fst fake_cap_id set_fake_cap_id].
    exists (fake_cap_id s), (uint16 (fake_cap_id s + 1)).
    split; [reflexivity|]. split; [reflexivity|].
    unfold uint16. rewrite cast_mod by lia. change (2 ^ 16) with 65536 in *.
    destruct (Z.eq_dec (fake_cap_id s) 65535) as [-> | Hne].
    + discriminate.
    + rewrite Z.mod_small by lia. lia.
  - split; [vm_compute; reflexivity|]. split; [vm_compute; reflexivity|].
    split; [|split; reflexivity].
    unfold xen_pt_emu_reg_grps, Fixtures.rebar_grp.
    repeat first [left; reflexivity | right].
  - intros table fuel val0. exists HideFixtures.rebar_created. eexists.
    split; [reflexivity|]. split; [reflexivity|]. split; [reflexivity|].
    split; [vm_compute; reflexivity|]. cbn [base_offset reg_tbl_list].
    split; [reflexivity|]. split; reflexivity.
  - eexists. split; [vm_compute; reflexivity|].
    split; [vm_compute; reflexivity|]. split; [reflexivity|].
    split; vm_compute; reflexivity.
Qed.

(** C7 on the fixture: with the header table of the emulated extended groups
    at hand, attach leaves the Resizable BAR group at 0x100 as it created it;
    the id initialiser, run there, gives 0xFE00 and moves the counter to
    0xFE01. *)
Lemma C7_hidden_head_witness :
  xen_pt_config_init_regs (fun _ => xen_pt_ext_cap_emu_reg_dummy) 8 0
    HideFixtures.rebar_created Fixtures.rebar_grp 0x100 =
    Some (RegAdded, HideFixtures.rebar_created) /\
  xen_pt_ext_cap_capid_reg_init HideFixtures.rebar_created HideFixtures.capid_reg 0x100 =
    (InitOk 0xFE00, set_fake_cap_id HideFixtures.rebar_created 0xFE01).
Proof.
  split.
  - apply (proj1 C7_hidden_head_header_not_emulated).
    + exact (proj1 (proj2 (proj2 (proj1 (proj2 (proj2 (proj2
               C7_hidden_head_header_not_emulated))))))).
    + reflexivity.
  - apply (proj1 (proj2 C7_hidden_head_header_not_emulated) HideFixtures.rebar_created
             HideFixtures.capid_reg 0x100 0x0015 eq_refl).
    eexists. split; [reflexivity|]. split; reflexivity.
Defined.

(** * Part III: further properties of the code *)

(** ** The legacy walk finds the first capability with the id sought *)

(** X1: on a device whose Status register announces a capability list and
    whose list, read from the start position, is well formed, the legacy
    search for an id other than the wildcard returns the offset of the first
    capability of the list with that id (0 when there is none, or when an id
    before it is unreadable or 0xff). *)
Theorem X1_find_next_cap_first_match CAP_ID_ANY d pos cap l :
  WalkSpec.has_cap_list d -> cap <> CAP_ID_ANY ->
  well_formed_cap_list d (cap_walk_start pos) l ->
  xen_host_pci_find_next_cap CAP_ID_ANY d pos cap = chain_search d cap l.
Proof.
  intros (status & Hst & Hbit) Hany (Hchain & Hnd & Hall).
  unfold xen_host_pci_find_next_cap, find_next_cap_bounded. rewrite Hst.
  destruct (Z.eqb_spec (Z.land status PCI_STATUS_CAP_LIST) 0); [contradiction|].
  apply cap_walk_chain_search; try assumption.
  apply cap_slots_count; assumption.
Qed.

(** X1 on the two-capability device: MSI (id 5) is found at 0x50. *)
Lemma X1_find_next_cap_witness :
  xen_host_pci_find_next_cap 0xFFFFFFFF WalkFixtures.two_cap_device 0 5 = 0x50.
Proof.
  rewrite (X1_find_next_cap_first_match 0xFFFFFFFF WalkFixtures.two_cap_device 0 5
             [0x40; 0x50]).
  - reflexivity.
  - exists 0x10. split; [reflexivity | discriminate].
  - discriminate.
  - split; [|split].
    + simpl. repeat split; try discriminate; reflexivity.
    + repeat constructor; simpl; intuition discriminate.
    + repeat constructor; simpl; lia.
Defined.

(** ** The extended walk *)

Lemma ext_cap_walk_sound CAP_ID_ANY d cap n :
  forall pos,
    let r := ext_cap_walk CAP_ID_ANY d cap n pos in
    r = 0 \/
    (PCI_CONFIG_SPACE_SIZE <= r /\
     exists header,
       ext_header_at d r header /\
       (cap = CAP_ID_ANY \/ PCI_EXT_CAP_ID header = cap)).
Proof.
  induction n as [|n IH]; intros pos; cbn [ext_cap_walk]; [left; reflexivity|].
  destruct ((pos =? 0) || (pos <? PCI_CONFIG_SPACE_SIZE)) eqn:E; [left; reflexivity|].
  apply orb_false_iff in E. destruct E as [_ E].
  destruct (xen_host_pci_get_long d pos) as [header|] eqn:Hh; [|left; reflexivity].
  destruct ((header =? 0) || (header =? 0xFFFFFFFF)) eqn:E2; [left; reflexivity|].
  apply orb_false_iff in E2. destruct E2 as [E0 E1].
  assert (Hat : ext_header_at d pos header).
  { split; [exact Hh|]. split; lia. }
  destruct (Z.eqb_spec cap CAP_ID_ANY).
  - right. split; [lia|]. exists header. split; [exact Hat | left; assumption].
  - destruct (Z.eqb_spec (PCI_EXT_CAP_ID header) cap).
    + right. split; [lia|]. exists header. split; [exact Hat | right; assumption].
    + apply IH.
Qed.

(** X2: the extended search returns 0 on a device without extended
    capabilities; any other result is an offset of at least 0x100 whose header
    can be read, is neither all zeroes nor all ones, and carries the id sought
    (or any id, for the wildcard); and on a device with extended capabilities
    a wildcard search from the start returns 0x100 as soon as the header there
    is such a header. *)
Theorem X2_find_next_ext_cap_result CAP_ID_ANY d pos cap :
  let r := xen_host_pci_find_next_ext_cap CAP_ID_ANY d pos cap in
  (has_pcie_ext_caps d = false -> r = 0) /\
  (r = 0 \/
   (has_pcie_ext_caps d = true /\ PCI_CONFIG_SPACE_SIZE <= r /\
    exists header,
      ext_header_at d r header /\
      (cap = CAP_ID_ANY \/ PCI_EXT_CAP_ID header = cap))) /\
  (has_pcie_ext_caps d = true ->
   xen_host_pci_dev_has_pcie_ext_caps d = true ->
   xen_host_pci_find_next_ext_cap CAP_ID_ANY d 0 CAP_ID_ANY = PCI_CONFIG_SPACE_SIZE).
Proof.
  cbv zeta. unfold xen_host_pci_find_next_ext_cap. split; [|split].
  - intros ->. reflexivity.
  - destruct (has_pcie_ext_caps d); [|left; reflexivity]. cbn [negb].
    destruct (pos =? 0).
    + destruct (ext_cap_walk_sound CAP_ID_ANY d cap XEN_HOST_PCI_MAX_EXT_CAP
                  PCI_CONFIG_SPACE_SIZE) as [H | H]; [left; exact H | right].
      split; [reflexivity | exact H].
    + destruct (xen_host_pci_get_long d pos) as [header|]; [|left; reflexivity].
      destruct (ext_cap_walk_sound CAP_ID_ANY d cap XEN_HOST_PCI_MAX_EXT_CAP
                  (PCI_EXT_CAP_NEXT header)) as [H | H]; [left; exact H | right].
      split; [reflexivity | exact H].
  - intros -> Hfirst. cbn [negb Z.eqb].
    unfold xen_host_pci_dev_has_pcie_ext_caps in Hfirst.
    change XEN_HOST_PCI_MAX_EXT_CAP with (S 479). cbn [ext_cap_walk].
    change ((PCI_CONFIG_SPACE_SIZE =? 0) || (PCI_CONFIG_SPACE_SIZE <? PCI_CONFIG_SPACE_SIZE))
      with false. cbv iota.
    destruct (xen_host_pci_get_long d PCI_CONFIG_SPACE_SIZE) as [header|];
      [|discriminate].
    destruct ((header =? 0) || (header =? 0xFFFFFFFF)); [discriminate|].
    rewrite Z.eqb_refl. reflexivity.
Qed.

(** X2 on the fixture with three extended capabilities: the wildcard search
    from the start stops at 0x100. *)
Lemma X2_find_next_ext_cap_witness :
  xen_host_pci_find_next_ext_cap 0xFFFFFFFF SizeFixtures.ext_device 0 0xFFFFFFFF
  = PCI_CONFIG_SPACE_SIZE.
Proof.
  apply (proj2 (proj2 (X2_find_next_ext_cap_result 0xFFFFFFFF SizeFixtures.ext_device
                          0 0xFFFFFFFF)) eq_refl eq_refl).
Defined.

(** ** What a generic write stores and what it leaves alone *)

Ltac stores_tac get_set :=
  unfold WriteSpec.stores; intros s e val dev_value valid_mask i; cbv zeta;
  unfold xen_pt_byte_reg_write, xen_pt_word_reg_write, xen_pt_long_reg_write,
    XEN_PT_MERGE_VALUE;
  cbn [fst snd]; unfold set_dev_config; cbn [dev_config];
  rewrite get_set; unfold get_throughable_mask;
  split;
  [ unfold_uint; bits_simpl; bits_case
  | destruct (permissive s); cbn [negb]; unfold_uint; bits_simpl;
    intros H; apply andb_true_iff in H; destruct H as [H Hv];
    apply andb_true_iff in H; destruct H as [He Hr];
    apply negb_true_iff in Hr; rewrite He, Hr, Hv; bits_case ].

(** X4: after a generic byte, word or long write the software copy of the
    register holds the guest's bit where [emu_mask & ~ro_mask & valid_mask] is
    set and its former bit everywhere else, so read-only and non-emulated bits
    of the copy never change; and a bit taken into the copy is not forwarded
    from the guest: the device is sent its own current bit there (0 for a
    write-1-to-clear bit). *)
Theorem X4_write_stores_emulated_bits :
  WriteSpec.stores 8 xen_pt_byte_reg_write pci_get_byte /\
  WriteSpec.stores 16 xen_pt_word_reg_write pci_get_word /\
  WriteSpec.stores 32 xen_pt_long_reg_write pci_get_long.
Proof.
  split; [|split].
  - stores_tac get_set_byte.
  - stores_tac get_set_word.
  - stores_tac get_set_long.
Qed.

(** X4 on the Power Management Control/Status register: bit 0 of the guest
    value 0x0003 is stored, and is sent to the device as the device has it. *)
Lemma X4_write_stores_witness :
  let s := Fixtures.state_of (Fixtures.device_of []) in
  let e := {| reg := reg_pm_ctrl; ptr := 0x44 |} in
  Z.testbit (snd (fst (xen_pt_word_reg_write s e 0x0003 0x0000 0xFFFF))) 0 = false.
Proof.
  cbv zeta.
  apply (proj2 (proj1 (proj2 X4_write_stores_emulated_bits)
                  (Fixtures.state_of (Fixtures.device_of []))
                  {| reg := reg_pm_ctrl; ptr := 0x44 |} 0x0003 0x0000 0xFFFF 0%nat)).
  reflexivity.
Defined.

Lemma upd_other c a b x : x <> a -> upd c a b x = c x.
Proof.
  intros H. unfold upd. destruct (Z.eqb_spec x a); [contradiction | reflexivity].
Qed.

Lemma set_byte_frame c a v x : x <> a -> pci_set_byte c a v x = c x.
Proof. apply upd_other. Qed.

Lemma set_word_frame c a v x : x < a \/ a + 2 <= x -> pci_set_word c a v x = c x.
Proof.
  intros H. unfold pci_set_word. rewrite !set_byte_frame by lia. reflexivity.
Qed.

Lemma set_long_frame c a v x : x < a \/ a + 4 <= x -> pci_set_long c a v x = c x.
Proof.
  intros H. unfold pci_set_long. rewrite !set_word_frame by lia. reflexivity.
Qed.

(** X5: a generic byte, word or long write changes the 1, 2 or 4 bytes of its
    register in the guest-visible image and nothing else: every other byte of
    the image, the device, the register groups, the MSI state, the mode, the
    fake-id counter and the messages are as before. *)
Theorem X5_write_frame :
  WriteSpec.frames 1 xen_pt_byte_reg_write /\
  WriteSpec.frames 2 xen_pt_word_reg_write /\
  WriteSpec.frames 4 xen_pt_long_reg_write.
Proof.
  split; [|split]; intros s e val dev_value valid_mask; cbv zeta;
    unfold xen_pt_byte_reg_write, xen_pt_word_reg_write, xen_pt_long_reg_write;
    cbn [snd]; unfold set_dev_config;
    cbn [dev_config real_device reg_grps msi permissive fake_cap_id log];
    (split; [|repeat split]); intros a Ha.
  - apply set_byte_frame. lia.
  - apply set_word_frame. lia.
  - apply set_long_frame. lia.
Qed.

(** X5 on the Status register at offset 6: the byte at 0x34 is untouched. *)
Lemma X5_write_frame_witness :
  let s := Fixtures.state_of AttachFixtures.pci_device in
  dev_config (snd (xen_pt_word_reg_write s AttachFixtures.status_entry 0xFFFF 0 0xFFFF)) 0x34
  = dev_config s 0x34.
Proof.
  cbv zeta.
  apply (proj1 (proj1 (proj2 X5_write_frame) (Fixtures.state_of AttachFixtures.pci_device)
                  AttachFixtures.status_entry 0xFFFF 0 0xFFFF)).
  right. vm_compute. discriminate.
Defined.

(** ** Attach: what initialising a register changes *)

Lemma init_keeps_refl s : init_keeps_device s s.
Proof. repeat split. Qed.

Lemma init_keeps_emit e s : init_keeps_device s (emit e s).
Proof. repeat split. Qed.

Lemma ptr_walk_keeps fuel :
  forall s reg_field r s1,
    ptr_walk fuel s reg_field = Some (r, s1) -> init_keeps_device s s1.
Proof.
  induction fuel as [|fuel IH]; intros s rf r s1 H; cbn [ptr_walk] in H.
  - destruct (rf =? 0); [|discriminate]. injection H as _ <-. apply init_keeps_refl.
  - destruct (rf =? 0); [injection H as _ <-; apply init_keeps_refl|].
    destruct (ptr_scan_grps (real_device s) xen_pt_emu_reg_grps rf).
    + injection H as _ <-. apply init_keeps_refl.
    + destruct (xen_host_pci_get_byte (real_device s) (rf + PCI_CAP_LIST_NEXT)).
      * eapply IH, H.
      * injection H as _ <-. apply init_keeps_refl.
    + injection H as _ <-. apply init_keeps_emit.
Qed.

Lemma ext_ptr_walk_keeps fuel :
  forall s version cur r s1,
    ext_ptr_walk fuel s version cur = Some (r, s1) -> init_keeps_device s s1.
Proof.
  induction fuel as [|fuel IH]; intros s version cur r s1 H; cbn [ext_ptr_walk] in H.
  - destruct ((cur =? 0) || (cur =? 0xFFF)); [|discriminate].
    injection H as _ <-. apply init_keeps_refl.
  - destruct ((cur =? 0) || (cur =? 0xFFF));
      [injection H as _ <-; apply init_keeps_refl|].
    destruct (xen_host_pci_get_long (real_device s) cur) as [header|].
    + destruct (ext_ptr_scan_grps _ _ _).
      * injection H as _ <-. apply init_keeps_refl.
      * eapply IH, H.
    + injection H as _ <-. apply init_keeps_emit.
Qed.

Lemma run_init_keeps_device i fuel s r ro res s1 :
  i <> Init_msgctrl ->
  run_init i fuel s r ro = Some (res, s1) -> init_keeps_device s s1.
Proof.
  intros Hi. destruct i; cbn [run_init]; intros H.
  - injection H as _ <-. apply init_keeps_refl.
  - injection H as _ <-. apply init_keeps_refl.
  - injection H as _ <-. apply init_keeps_refl.
  - unfold xen_pt_status_reg_init in H.
    destruct (xen_pt_find_reg_grp s PCI_CAPABILITY_LIST) as [g|].
    + destruct (xen_pt_find_reg g PCI_CAPABILITY_LIST).
      * injection H as _ <-. apply init_keeps_refl.
      * injection H as _ <-. apply init_keeps_emit.
    + injection H as _ <-. apply init_keeps_emit.
  - unfold xen_pt_ptr_reg_init in H.
    destruct (xen_host_pci_get_byte (real_device s) ro).
    + eapply ptr_walk_keeps, H.
    + injection H as _ <-. apply init_keeps_refl.
  - contradiction.
  - injection H as _ <-. apply init_keeps_refl.
  - unfold xen_pt_ext_cap_capid_reg_init in H.
    destruct (xen_host_pci_get_word (real_device s) ro) as [v|].
    + destruct (xen_pt_find_reg_grp s ro) as [g|].
      * destruct (_ && _); injection H as _ <-; repeat split.
      * injection H as _ <-. apply init_keeps_refl.
    + injection H as _ <-. apply init_keeps_refl.
  - unfold xen_pt_ext_cap_ptr_reg_init in H.
    destruct (ro <? PCI_CONFIG_SPACE_SIZE).
    + injection H as _ <-. apply init_keeps_emit.
    + destruct (xen_host_pci_get_word (real_device s) ro).
      * eapply ext_ptr_walk_keeps, H.
      * injection H as _ <-. apply init_keeps_refl.
Qed.

Lemma msgctrl_init_keeps s r ro :
  init_keeps s (snd (xen_pt_msgctrl_reg_init s r ro)).
Proof.
  unfold xen_pt_msgctrl_reg_init.
  destruct (xen_host_pci_get_word (real_device s) ro) as [v|]; [|split; reflexivity].
  destruct (truthy (Z.land v PCI_MSI_FLAGS_ENABLE)); split; reflexivity.
Qed.

Lemma run_init_keeps i fuel s r ro res s1 :
  run_init i fuel s r ro = Some (res, s1) -> init_keeps s s1.
Proof.
  intros H.
  destruct i;
    try (refine (proj2 (run_init_keeps_device _ _ _ _ _ _ _ _ H)); discriminate).
  cbn [run_init] in H.
  apply (f_equal (fun o => match o with Some p => snd p | None => s end)) in H.
  change (snd (xen_pt_msgctrl_reg_init s r ro) = s1) in H. rewrite <- H.
  apply msgctrl_init_keeps.
Qed.

(** The host write of a word: what it changes and what a read then yields. *)
Lemma set_word_same_but_word d pos data :
  same_device_but_word d (snd (xen_host_pci_set_word d pos data)) pos.
Proof.
  unfold xen_host_pci_set_word, same_device_but_word.
  destruct (config d pos); [|repeat split].
  destruct (config d (pos + 1)); [|repeat split].
  cbn [snd set_config vendor_id device_id has_pcie_ext_caps pcie_flags config].
  repeat split. intros a H0 H1.
  destruct (Z.eqb_spec a pos); [contradiction|].
  destruct (Z.eqb_spec a (pos + 1)); [contradiction | reflexivity].
Qed.

Lemma set_word_reads_back d pos data w :
  xen_host_pci_get_word d pos = Some w ->
  xen_host_pci_get_word (snd (xen_host_pci_set_word d pos data)) pos =
    Some (uint16 data).
Proof.
  unfold xen_host_pci_get_word, xen_host_pci_set_word.
  destruct (config d pos); [|discriminate].
  destruct (config d (pos + 1)); [|discriminate]. intros _.
  cbn [snd set_config config]. rewrite Z.eqb_refl.
  destruct (Z.eqb_spec (pos + 1) pos); [lia|]. rewrite Z.eqb_refl.
  rewrite !byte_to_of_Z. f_equal. apply le16_join.
Qed.

Lemma msgctrl_init_device s r ro :
  init r = Some Init_msgctrl ->
  device_after_init (real_device s)
    (real_device (snd (xen_pt_msgctrl_reg_init s r ro))) r ro.
Proof.
  intros Hi. unfold device_after_init, xen_pt_msgctrl_reg_init. rewrite Hi.
  destruct (xen_host_pci_get_word (real_device s) ro) as [w|] eqn:Hw; [|reflexivity].
  destruct (truthy (Z.land w PCI_MSI_FLAGS_ENABLE)); [|reflexivity].
  cbn [snd real_device set_msi set_real_device XEN_PT_LOG emit].
  split; [apply set_word_same_but_word|].
  rewrite (set_word_reads_back _ _ _ _ Hw). f_equal.
  unfold uint16. rewrite cast_idem by lia.
  apply get_word_range in Hw. apply Z.bits_inj'. intros i Hi'.
  rewrite cast_testbit, !Z.land_spec by lia.
  destruct (Z.ltb_spec i 16); [reflexivity|].
  rewrite (testbit_above w 16 i) by lia. reflexivity.
Qed.

Lemma write_dev_config_frame s r off val a :
  a < off \/ off + size r <= a ->
  size r = 1 \/ size r = 2 \/ size r = 4 ->
  dev_config (write_dev_config s r off val) a = dev_config s a.
Proof.
  intros Ha Hsz. unfold write_dev_config.
  destruct Hsz as [E | [E | E]]; rewrite E in *; cbn [Z.eqb Pos.eqb];
    unfold set_dev_config; cbn [dev_config].
  - apply set_byte_frame. lia.
  - apply set_word_frame. lia.
  - apply set_long_frame. lia.
Qed.

Lemma write_dev_config_device s r off val :
  real_device (write_dev_config s r off val) = real_device s /\
  reg_grps (write_dev_config s r off val) = reg_grps s.
Proof.
  unfold write_dev_config.
  destruct (size r =? 1); [split; reflexivity|].
  destruct (size r =? 2); split; reflexivity.
Qed.

Lemma read_host_val_size d r off val0 val :
  read_host_val d r off val0 = ReadOk val ->
  size r = 1 \/ size r = 2 \/ size r = 4.
Proof.
  unfold read_host_val.
  destruct (Z.eqb_spec (size r) 1); [auto|].
  destruct (Z.eqb_spec (size r) 2); [auto|].
  destruct (Z.eqb_spec (size r) 4); [auto | discriminate].
Qed.

Lemma run_init_device_after i fuel s r ro res s1 :
  init r = Some i ->
  run_init i fuel s r ro = Some (res, s1) ->
  device_after_init (real_device s) (real_device s1) r ro.
Proof.
  intros Hi H.
  assert (Hsame : real_device s1 = real_device s ->
                  i <> Init_msgctrl ->
                  device_after_init (real_device s) (real_device s1) r ro).
  { intros E Hn. unfold device_after_init. rewrite Hi, E.
    destruct i; try reflexivity. contradiction. }
  destruct i;
    try (apply Hsame;
         [refine (proj1 (run_init_keeps_device _ _ _ _ _ _ _ _ H)) |]; discriminate).
  cbn [run_init] in H.
  apply (f_equal (fun o => match o with Some p => snd p | None => s end)) in H.
  change (snd (xen_pt_msgctrl_reg_init s r ro) = s1) in H. rewrite <- H.
  apply msgctrl_init_device, Hi.
Qed.

(** X6: what [xen_pt_config_reg_init] changes, for a register without
    initialiser or with one of those of [RegInit].  The device is as before,
    unless the register's initialiser is Message Control's and it has read a
    word with the MSI enable bit set: then the device holds that word with
    the enable bit cleared, and nothing else of the device has changed.
    Unless the function adds the register, the image and the register groups
    are as before (a failed or not-present initialisation changes neither);
    and when it adds the register, no byte of the image outside the
    register's own cell has changed. *)
Theorem X6_reg_init_frame fuel val0 s grp_idx r o s' :
  xen_pt_config_reg_init fuel val0 s grp_idx r = Some (o, s') ->
  (nth_error (reg_grps s) grp_idx = None -> real_device s' = real_device s) /\
  (forall g,
     nth_error (reg_grps s) grp_idx = Some g ->
     device_after_init (real_device s) (real_device s') r (real_offset_of g r)) /\
  (o <> RegAdded -> dev_config s' = dev_config s /\ reg_grps s' = reg_grps s) /\
  (forall g a,
     nth_error (reg_grps s) grp_idx = Some g ->
     a < real_offset_of g r \/ real_offset_of g r + size r <= a ->
     dev_config s' a = dev_config s a).
Proof.
  unfold xen_pt_config_reg_init, real_offset_of. intros H.
  destruct (nth_error (reg_grps s) grp_idx) as [g|] eqn:Hg.
  2:{ injection H as <- <-. repeat split; intros; discriminate. }
  split; [discriminate|].
  destruct (init r) as [i|] eqn:Hi.
  2:{ injection H as <- <-. split.
      - intros g0 _. unfold device_after_init. rewrite Hi. reflexivity.
      - split; [intros Hn; contradiction | intros g0 a _ _; reflexivity]. }
  destruct (run_init i fuel s r (uint32 (base_offset g + offset r)))
    as [[res s1]|] eqn:Hinit; [|discriminate].
  pose proof (run_init_device_after _ _ _ _ _ _ _ Hi Hinit) as Hdev.
  apply run_init_keeps in Hinit. destruct Hinit as (Hc & Hgr).
  assert (Hdev' : forall g0, Some g = Some g0 ->
                    device_after_init (real_device s) (real_device s1) r
                      (uint32 (base_offset g0 + offset r)))
    by (intros g0 E; injection E as <-; exact Hdev).
  destruct (_ <? 0).
  { injection H as <- <-. rewrite Hc, Hgr. repeat split. exact Hdev'. }
  destruct (_ =? XEN_PT_INVALID_REG).
  { injection H as <- <-. rewrite Hc, Hgr. repeat split. exact Hdev'. }
  destruct (read_host_val (real_device s1) r (uint32 (base_offset g + offset r)) val0)
    as [val| |] eqn:Hread.
  - apply read_host_val_size in Hread.
    set (s2 := if reg_sync_mismatch r _ val then _ else s1) in H.
    assert (H2 : init_keeps_device s1 s2).
    { unfold s2. destruct (reg_sync_mismatch r _ val);
        [apply init_keeps_emit | apply init_keeps_refl]. }
    destruct H2 as (Hd2 & Hc2 & Hgr2).
    destruct (truthy _).
    + injection H as <- <-. rewrite Hd2, Hc2, Hgr2, Hc, Hgr. repeat split.
      exact Hdev'.
    + injection H as <- <-. cbn [real_device dev_config set_reg_grps].
      rewrite (proj1 (write_dev_config_device s2 r _ _)), Hd2.
      split; [exact Hdev'|]. split; [intros Hn; contradiction|].
      intros g0 a Hg0 Ha. injection Hg0 as <-.
      rewrite write_dev_config_frame by assumption.
      rewrite Hc2, Hc. reflexivity.
  - injection H as <- <-. rewrite Hc, Hgr. repeat split. exact Hdev'.
  - injection H as <- <-. rewrite Hc, Hgr. repeat split. exact Hdev'.
Qed.

(** X6 on the MSI group of the fixture whose device has MSI enabled (Message
    Control 0x0001 at 0x52): adding Message Control leaves the device's
    capability id at 0x50 and the image's Status byte at 6 as they were, and
    the device then reads Message Control as 0. *)
Lemma X6_reg_init_frame_witness :
  exists s',
    xen_pt_config_reg_init 48 0 MsiCapFixtures.msi_enabled_created 0 reg_msi_msgctrl =
      Some (RegAdded, s') /\
    xen_host_pci_get_word (real_device s') 0x52 = Some 0 /\
    config (real_device s') 0x50 = config MsiCapFixtures.msi_enabled_device 0x50 /\
    dev_config s' 0x06 = dev_config MsiCapFixtures.msi_enabled_created 0x06.
Proof.
  assert (E : exists s',
             xen_pt_config_reg_init 48 0 MsiCapFixtures.msi_enabled_created 0
               reg_msi_msgctrl = Some (RegAdded, s'))
    by (eexists; vm_compute; reflexivity).
  destruct E as [s' E]. exists s'. split; [exact E|].
  destruct (X6_reg_init_frame _ _ _ _ _ _ _ E) as (_ & Hdev & _ & Himg).
  specialize (Hdev _ eq_refl).
  change (same_device_but_word MsiCapFixtures.msi_enabled_device (real_device s') 0x52 /\
          xen_host_pci_get_word (real_device s') 0x52 = Some 0) in Hdev.
  destruct Hdev as ((_ & _ & _ & _ & Hcfg) & Hw).
  split; [exact Hw|]. split.
  - apply Hcfg; lia.
  - apply (Himg _ 0x06 eq_refl). left. vm_compute. reflexivity.
Defined.

(** ** Attach: the register that was added can be found *)

Lemma nth_error_insert_reg_at grps :
  forall idx g e,
    nth_error grps idx = Some g ->
    nth_error (insert_reg_at grps idx e) idx =
    Some {| reg_grp := reg_grp g; base_offset := base_offset g; grp_sz := grp_sz g;
            reg_tbl_list := e :: reg_tbl_list g |} /\
    List.length (insert_reg_at grps idx e) = List.length grps.
Proof.
  induction grps as [|g0 grps IH]; intros idx g e H.
  - destruct idx; discriminate.
  - destruct idx as [|idx]; cbn [insert_reg_at nth_error] in *.
    + injection H as <-. split; reflexivity.
    + destruct (IH idx g e H) as [H1 H2]. split; [exact H1|].
      cbn [List.length]. rewrite H2. reflexivity.
Qed.

(** X7: when [xen_pt_config_reg_init] adds a register that has an
    initialiser, the group it was asked to fill holds the new entry at the
    head of its list, pointing at base offset + register offset in the image,
    the number of groups is unchanged, and [xen_pt_find_reg] on that group at
    that address returns the new entry. *)
Theorem X7_added_register_is_found fuel val0 s grp_idx r g s' :
  xen_pt_config_reg_init fuel val0 s grp_idx r = Some (RegAdded, s') ->
  nth_error (reg_grps s) grp_idx = Some g ->
  init r <> None ->
  0 <= base_offset g + offset r -> base_offset g + offset r + size r < 2 ^ 32 ->
  let e := {| reg := r; ptr := base_offset g + offset r |} in
  exists g',
    nth_error (reg_grps s') grp_idx = Some g' /\
    base_offset g' = base_offset g /\
    reg_tbl_list g' = e :: reg_tbl_list g /\
    List.length (reg_grps s') = List.length (reg_grps s) /\
    xen_pt_find_reg g' (base_offset g + offset r) = Some e.
Proof.
  unfold xen_pt_config_reg_init. intros H Hg Hi Hlo Hhi. cbv zeta.
  rewrite Hg in H.
  destruct (init r) as [i|]; [clear Hi | contradiction].
  destruct (run_init i fuel s r (uint32 (base_offset g + offset r)))
    as [[res s1]|] eqn:Hinit; [|discriminate].
  apply run_init_keeps in Hinit. destruct Hinit as (Hc & Hgr).
  destruct (_ <? 0); [discriminate|].
  destruct (_ =? XEN_PT_INVALID_REG); [discriminate|].
  destruct (read_host_val (real_device s1) r (uint32 (base_offset g + offset r)) val0)
    as [val| |] eqn:Hread; [|discriminate|discriminate].
  apply read_host_val_size in Hread.
  set (s2 := if reg_sync_mismatch r _ val then _ else s1) in H.
  assert (Hgr2 : reg_grps s2 = reg_grps s1).
  { unfold s2. destruct (reg_sync_mismatch r _ val); reflexivity. }
  destruct (truthy _); [discriminate|].
  injection H as <-. cbn [reg_grps set_reg_grps].
  rewrite (proj2 (write_dev_config_device s2 r _ _)), Hgr2, Hgr.
  assert (Hoff : uint32 (base_offset g + offset r) = base_offset g + offset r).
  { apply cast_small; [lia|]. destruct Hread as [E | [E | E]]; rewrite E in Hhi; lia. }
  rewrite Hoff.
  destruct (nth_error_insert_reg_at (reg_grps s) grp_idx g
              {| reg := r; ptr := base_offset g + offset r |} Hg) as [Hn Hl].
  eexists. split; [exact Hn|]. cbn [base_offset reg_tbl_list].
  split; [reflexivity|]. split; [reflexivity|]. split; [exact Hl|].
  unfold xen_pt_find_reg. cbn [reg_tbl_list base_offset find reg].
  rewrite Hoff.
  assert (Hend : uint32 (base_offset g + offset r + size r) =
                 base_offset g + offset r + size r).
  { apply cast_small; [lia|].
    destruct Hread as [E | [E | E]]; rewrite E in *; lia. }
  rewrite Hend.
  destruct (Z.leb_spec (base_offset g + offset r) (base_offset g + offset r)); [|lia].
  destruct (Z.ltb_spec (base_offset g + offset r) (base_offset g + offset r + size r));
    [reflexivity|].
  destruct Hread as [E | [E | E]]; rewrite E in *; lia.
Qed.

(** X7 on the Header group of the fixture: the Capabilities Pointer is found
    at 0x34 after it was added. *)
Lemma X7_added_register_witness :
  exists s' g',
    nth_error (reg_grps s') 0 = Some g' /\
    xen_pt_find_reg g' 0x34 = Some {| reg := reg_cap_ptr; ptr := 0x34 |}.
Proof.
  assert (E : exists s',
             xen_pt_config_reg_init 48 0 AttachFixtures.header_created 0 reg_cap_ptr =
             Some (RegAdded, s')) by (eexists; vm_compute; reflexivity).
  destruct E as [s' E].
  destruct (X7_added_register_is_found _ _ _ _ _
              {| reg_grp := Fixtures.header_grp; base_offset := 0; grp_sz := 0x40;
                 reg_tbl_list := [] |} _ E eq_refl)
    as (g' & Hn & _ & _ & _ & Hf).
  - discriminate.
  - vm_compute. discriminate.
  - vm_compute. reflexivity.
  - exists s', g'. split; [exact Hn | exact Hf].
Defined.

(** ** Attach: what the image holds for a register that was added *)

Lemma narrow_cast w v :
  0 <= w <= 32 -> Z.land v (not32 (Z.ones w)) = 0 -> cast w v = uint32 v.
Proof.
  intros Hw H. unfold uint32. apply Z.bits_inj'. intros i Hi.
  rewrite !cast_testbit by lia.
  destruct (Z.ltb_spec i w), (Z.ltb_spec i 32); try lia; try reflexivity.
  assert (Hb : Z.testbit (Z.land v (not32 (Z.ones w))) i = false)
    by (rewrite H; apply Z.bits_0).
  unfold not32, uint32 in Hb.
  rewrite Z.land_spec, cast_testbit, Z.lnot_spec, Z.testbit_ones_nonneg in Hb by lia.
  destruct (Z.ltb_spec i 32); [|lia]. destruct (Z.ltb_spec i w); [lia|].
  cbn [negb andb] in Hb. rewrite andb_true_r in Hb. simpl. congruence.
Qed.

Lemma truthy_false x : truthy x = false -> x = 0.
Proof.
  unfold truthy. destruct (Z.eqb_spec x 0); [auto | discriminate].
Qed.

(** X8: when [xen_pt_config_reg_init] adds a register whose initialiser
    stored [data] and whose host value, read once the initialiser has run
    (and so after Message Control's has cleared the enable bit in the
    device), is [val], the register's cell of the image reads back the value
    the reconciliation settled on; and for a fully emulated register (no bit
    of its width outside the emulated mask) that value is [data], whatever
    the host holds. *)
Theorem X8_image_holds_synced_value fuel val0 s grp_idx r g i data s1 val s' :
  nth_error (reg_grps s) grp_idx = Some g ->
  init r = Some i ->
  run_init i fuel s r (real_offset_of g r) = Some (InitOk data, s1) ->
  read_host_val (real_device s1) r (real_offset_of g r) val0 = ReadOk val ->
  xen_pt_config_reg_init fuel val0 s grp_idx r = Some (RegAdded, s') ->
  read_dev_config (dev_config s') r (real_offset_of g r) =
    uint32 (reg_sync_value r data val) /\
  (fully_emulated r -> reg_sync_value r data val = data).
Proof.
  unfold real_offset_of. intros Hg Hi Hinit Hread H. split.
  - unfold xen_pt_config_reg_init in H. rewrite Hg, Hi, Hinit in H.
    change (0 <? 0) with false in H. cbv iota in H.
    destruct (data =? XEN_PT_INVALID_REG); [discriminate|].
    rewrite Hread in H.
    set (s2 := if reg_sync_mismatch r data val then _ else s1) in H.
    destruct (truthy _) eqn:Hfit; [discriminate|].
    apply truthy_false in Hfit.
    injection H as <-. cbn [dev_config set_reg_grps].
    unfold read_dev_config, write_dev_config, reg_size_mask in *.
    apply read_host_val_size in Hread.
    destruct Hread as [E | [E | E]]; rewrite E in *; cbn [Z.eqb Pos.eqb];
      unfold set_dev_config; cbn [dev_config].
    + rewrite get_set_byte. unfold uint8. rewrite cast_idem by lia.
      apply (narrow_cast 8); [lia | exact Hfit].
    + rewrite get_set_word. unfold uint16. rewrite cast_idem by lia.
      apply (narrow_cast 16); [lia | exact Hfit].
    + apply get_set_long.
  - unfold fully_emulated, reg_sync_value, reg_sync_mismatch. intros ->.
    rewrite !Z.land_0_r, Z.eqb_refl. reflexivity.
Qed.

(** X8 on the MSI group of the fixture whose device has MSI enabled (Message
    Control 0x0001): the initialiser clears the enable bit in the device
    before the host value is read, so that value is 0, there is no mismatch,
    and the image holds 0 for Message Control. *)
Lemma X8_image_witness :
  exists s',
    xen_pt_config_reg_init 48 0 MsiCapFixtures.msi_enabled_created 0 reg_msi_msgctrl =
      Some (RegAdded, s') /\
    read_dev_config (dev_config s') reg_msi_msgctrl 0x52 = 0 /\
    log s' = [LOG "MSI already enabled, disabling it first"].
Proof.
  assert (E : exists s',
             xen_pt_config_reg_init 48 0 MsiCapFixtures.msi_enabled_created 0
               reg_msi_msgctrl = Some (RegAdded, s') /\
             log s' = [LOG "MSI already enabled, disabling it first"])
    by (eexists; vm_compute; split; reflexivity).
  destruct E as (s' & E & Hlog). exists s'. split; [exact E|]. split; [|exact Hlog].
  apply (proj1 (X8_image_holds_synced_value 48 0 MsiCapFixtures.msi_enabled_created 0
                  reg_msi_msgctrl
                  {| reg_grp := MsiCapFixtures.msi_grp; base_offset := 0x50;
                     grp_sz := 0xa; reg_tbl_list := [] |}
                  Init_msgctrl 0
                  (snd (xen_pt_msgctrl_reg_init MsiCapFixtures.msi_enabled_created
                          reg_msi_msgctrl 0x52))
                  0 s' eq_refl eq_refl eq_refl eq_refl E)).
Defined.

(** X9: in the mismatch branch of the reconciliation every bit of the stored
    value within the register's width is, outside the emulated mask, the OR
    of the host's bit and the initialiser's bit, and, inside the emulated
    mask, 0. *)
Theorem X9_mismatch_branch_bits r data val i :
  reg_sync_mismatch r data val = true ->
  0 <= i -> Z.testbit (reg_size_mask r) i = true ->
  Z.testbit (reg_sync_value r data val) i =
  (Z.testbit val i || Z.testbit data i) && negb (Z.testbit (emu_mask r) i).
Proof.
  intros Hm Hi Hsz. unfold reg_sync_value. rewrite Hm.
  unfold reg_host_mask. set (sm := reg_size_mask r) in *.
  assert (Hlt : i < 32).
  { destruct (Z.ltb_spec i 32); [assumption|].
    unfold sm, reg_size_mask, uint32 in Hsz.
    rewrite cast_testbit in Hsz by lia.
    destruct (Z.ltb_spec i 32); [lia | discriminate]. }
  unfold not32, uint32. bits_simpl. rewrite Hsz.
  destruct (Z.ltb_spec i 32); [|lia].
  destruct (Z.testbit val i), (Z.testbit data i), (Z.testbit (emu_mask r) i);
    reflexivity.
Qed.

(** X9 on the Command register (emulated mask 0x0743): with initialiser value
    0 and host value 0x0007, bit 2 (bus master, not emulated) is stored as the
    host has it. *)
Lemma X9_mismatch_branch_witness :
  Z.testbit (reg_sync_value reg_command 0 0x0007) 2 = true.
Proof.
  rewrite (X9_mismatch_branch_bits reg_command 0 0x0007 2 eq_refl ltac:(lia) eq_refl).
  reflexivity.
Defined.

(** X10: the initialiser of Status needs the Capabilities Pointer register:
    when no group of the state covers offset 0x34, or the group that does has
    no register there, initialising Status fails the attach of the register
    with a fatal message and leaves image and groups unchanged. *)
Theorem X10_status_needs_cap_ptr fuel val0 s grp_idx g :
  nth_error (reg_grps s) grp_idx = Some g ->
  (forall grp, xen_pt_find_reg_grp s PCI_CAPABILITY_LIST = Some grp ->
               xen_pt_find_reg grp PCI_CAPABILITY_LIST = None) ->
  exists msg,
    xen_pt_config_reg_init fuel val0 s grp_idx reg_status =
    Some (RegFailed "Init emulate register fail", xen_shutdown_fatal_error msg s).
Proof.
  intros Hg Hno. unfold xen_pt_config_reg_init. rewrite Hg.
  cbn [init reg_status reg_info run_init]. unfold xen_pt_status_reg_init.
  destruct (xen_pt_find_reg_grp s PCI_CAPABILITY_LIST) as [grp|] eqn:Hgrp.
  - rewrite (Hno grp eq_refl). eexists. reflexivity.
  - eexists. reflexivity.
Qed.

(** X10 on the fixture: Status before the Capabilities Pointer. *)
Lemma X10_status_needs_cap_ptr_witness :
  exists msg,
    xen_pt_config_reg_init 48 0 AttachFixtures.header_created 0 reg_status =
    Some (RegFailed "Init emulate register fail",
          xen_shutdown_fatal_error msg AttachFixtures.header_created).
Proof.
  apply (X10_status_needs_cap_ptr 48 0 AttachFixtures.header_created 0
           {| reg_grp := Fixtures.header_grp; base_offset := 0; grp_sz := 0x40;
              reg_tbl_list := [] |} eq_refl).
  intros grp Hgrp. vm_compute in Hgrp. injection Hgrp as <-. reflexivity.
Defined.

(** ** The emulated legacy pointers *)

Lemma ptr_scan_out d grps reg_field :
  ptr_scan_grps d grps reg_field = ScanOut ->
  exists g,
    In g grps /\ grp_type g = XEN_PT_GRP_TYPE_EMU /\
    xen_pt_hide_dev_cap d (grp_id g) = false /\
    xen_host_pci_get_byte d (reg_field + PCI_CAP_LIST_ID) = Some (grp_id g).
Proof.
  induction grps as [|g grps IH]; cbn [ptr_scan_grps]; [discriminate|].
  destruct (xen_pt_hide_dev_cap d (grp_id g)) eqn:Hh.
  - intros H. destruct (IH H) as (g' & Hin & Hrest). exists g'. split; [right|]; assumption.
  - destruct (xen_host_pci_get_byte d (reg_field + PCI_CAP_LIST_ID)) as [cap_id|] eqn:Hid;
      [|discriminate].
    destruct (Z.eqb_spec (grp_id g) cap_id) as [E|].
    + destruct (grp_type g) eqn:Ht; [discriminate|]. intros _.
      exists g. rewrite E. repeat split; try assumption.
      * left. reflexivity.
      * rewrite <- E. exact Hh.
    + intros H. destruct (IH H) as (g' & Hin & Hrest). exists g'. split; [right|]; assumption.
Qed.

Lemma ptr_walk_sound fuel :
  forall s reg_field data s',
    ptr_walk fuel s reg_field = Some (InitOk data, s') ->
    s' = s /\ (data = 0 \/ exposed_legacy (real_device s) data).
Proof.
  induction fuel as [|fuel IH]; intros s rf data s' H; cbn [ptr_walk] in H.
  - destruct (Z.eqb_spec rf 0); [|discriminate].
    injection H as <- <-. split; [reflexivity | left; assumption].
  - destruct (Z.eqb_spec rf 0).
    { injection H as <- <-. split; [reflexivity | left; assumption]. }
    destruct (ptr_scan_grps (real_device s) xen_pt_emu_reg_grps rf) eqn:Hscan.
    + injection H as <- <-. split; [reflexivity|]. right.
      apply ptr_scan_out in Hscan. exact Hscan.
    + destruct (xen_host_pci_get_byte (real_device s) (rf + PCI_CAP_LIST_NEXT));
        [|discriminate].
      exact (IH _ _ _ _ H).
    + discriminate.
Qed.

Lemma ptr_walk_returns fuel :
  forall s l p reg_field,
    cap_chain (real_device s) p l ->
    xen_host_pci_get_byte (real_device s) p = Some reg_field ->
    (List.length l <= fuel)%nat ->
    ptr_walk fuel s reg_field <> None.
Proof.
  induction fuel as [|fuel IH]; intros s l p rf Hchain Hp Hlen.
  - destruct l as [|c l]; [|simpl in Hlen; lia].
    simpl in Hchain. rewrite Hchain in Hp. injection Hp as <-. discriminate.
  - cbn [ptr_walk]. destruct (rf =? 0) eqn:E0; [discriminate|].
    destruct l as [|c l].
    { simpl in Hchain. rewrite Hchain in Hp. injection Hp as <-. discriminate. }
    destruct Hchain as (Hc & Hc0 & Hrest).
    rewrite Hc in Hp. injection Hp as <-.
    destruct (ptr_scan_grps _ _ c); try discriminate.
    destruct (xen_host_pci_get_byte (real_device s) (c + PCI_CAP_LIST_NEXT))
      as [next|] eqn:Hnext; [|discriminate].
    apply (IH s l (c + PCI_CAP_LIST_NEXT) next Hrest Hnext).
    simpl in Hlen. lia.
Qed.

(** X11: the initialiser of the Capabilities Pointer and of the legacy Next
    Pointer registers leaves the state as it was when it succeeds, and yields
    0 or the offset of a capability that the guest is shown (its id is that of
    an emulated group of the catalogue that the hide policy lets through);
    and it returns on every list that ends: for a host list of [n]
    capabilities behind the pointer, [n] rounds of its loop suffice. *)
Theorem X11_legacy_pointer_init s r real_offset :
  (forall fuel data s',
     xen_pt_ptr_reg_init fuel s r real_offset = Some (InitOk data, s') ->
     s' = s /\ (data = 0 \/ exposed_legacy (real_device s) data)) /\
  (forall l,
     cap_chain (real_device s) real_offset l ->
     xen_pt_ptr_reg_init (List.length l) s r real_offset <> None).
Proof.
  split.
  - intros fuel data s' H. unfold xen_pt_ptr_reg_init in H.
    destruct (xen_host_pci_get_byte (real_device s) real_offset); [|discriminate].
    apply ptr_walk_sound in H. exact H.
  - intros l Hchain. unfold xen_pt_ptr_reg_init.
    destruct (xen_host_pci_get_byte (real_device s) real_offset) as [rf|] eqn:Hp;
      [|discriminate].
    apply (ptr_walk_returns _ s l real_offset rf Hchain Hp). lia.
Qed.

(** X11 on the two-capability device: two rounds suffice. *)
Lemma X11_legacy_pointer_witness :
  xen_pt_ptr_reg_init 2 (Fixtures.state_of WalkFixtures.two_cap_device) reg_cap_ptr 0x34
  <> None.
Proof.
  apply (proj2 (X11_legacy_pointer_init (Fixtures.state_of WalkFixtures.two_cap_device)
                  reg_cap_ptr 0x34) [0x40; 0x50]).
  simpl. repeat split; try discriminate; reflexivity.
Defined.

(** X12: on a virtual function of the Intel 82599 the emulated legacy
    pointers never designate a PCI Express capability: whatever pointer such
    an initialiser yields, the id found there is not [PCI_CAP_ID_EXP]. *)
Theorem X12_vf_82599_hides_pcie fuel s r real_offset data s' :
  vendor_id (real_device s) = PCI_VENDOR_ID_INTEL ->
  device_id (real_device s) = PCI_DEVICE_ID_INTEL_82599_SFP_VF ->
  xen_pt_ptr_reg_init fuel s r real_offset = Some (InitOk data, s') ->
  data <> 0 ->
  xen_host_pci_get_byte (real_device s) (data + PCI_CAP_LIST_ID) <> Some PCI_CAP_ID_EXP.
Proof.
  intros Hv Hd H Hnz.
  unfold xen_pt_ptr_reg_init in H.
  destruct (xen_host_pci_get_byte (real_device s) real_offset); [|discriminate].
  destruct (ptr_walk_sound _ _ _ _ _ H)
    as [_ [H0 | (g & _ & _ & Hhide & Hid)]]; [contradiction|].
  rewrite Hid. intros Heq. injection Heq as Hg.
  rewrite Hg in Hhide. unfold xen_pt_hide_dev_cap in Hhide.
  rewrite Hv, Hd in Hhide. vm_compute in Hhide. discriminate.
Qed.

(** X12 on the fixture: the Capabilities Pointer of the virtual function is
    0x70 (MSI-X), past the PCI Express capability at 0x40. *)
Lemma X12_vf_82599_witness :
  xen_pt_ptr_reg_init 8 HideLegacyFixtures.vf_state reg_cap_ptr 0x34 =
    Some (InitOk 0x70, HideLegacyFixtures.vf_state) /\
  xen_host_pci_get_byte HideLegacyFixtures.vf_82599 (0x70 + PCI_CAP_LIST_ID)
  <> Some PCI_CAP_ID_EXP.
Proof.
  assert (E : xen_pt_ptr_reg_init 8 HideLegacyFixtures.vf_state reg_cap_ptr 0x34 =
              Some (InitOk 0x70, HideLegacyFixtures.vf_state))
    by (vm_compute; reflexivity).
  split; [exact E|].
  apply (X12_vf_82599_hides_pcie 8 HideLegacyFixtures.vf_state reg_cap_ptr 0x34 0x70
           HideLegacyFixtures.vf_state eq_refl eq_refl E).
  discriminate.
Defined.

(** ** The MSI capability *)

Lemma msi_materialised_in_layout fuel s base row :
  In row xen_pt_emu_reg_msi ->
  MsiLayoutSpec.materialises fuel s base row ->
  In row (MsiLayoutSpec.msi_layout
            (truthy (Z.land (flags (msi s)) PCI_MSI_FLAGS_64BIT))
            (truthy (Z.land (flags (msi s)) PCI_MSI_FLAGS_MASKBIT))).
Proof.
  intros Hin (data & s' & Hrun & Hdata).
  unfold xen_pt_emu_reg_msi in Hin. cbn [In] in Hin.
  unfold msi_run_init, xen_pt_msgaddr64_reg_init, xen_pt_msgdata_reg_init,
    xen_pt_mask_reg_init, xen_pt_pending_reg_init, xen_pt_msi_check_type in Hrun.
  cbv zeta in Hrun.
  destruct (truthy (Z.land (flags (msi s)) PCI_MSI_FLAGS_64BIT)) eqn:E64;
    destruct (truthy (Z.land (flags (msi s)) PCI_MSI_FLAGS_MASKBIT)) eqn:Em;
    repeat (destruct Hin as [<- | Hin]);
    try contradiction;
    try (vm_compute; intuition reflexivity).
  all: exfalso; cbn [snd fst msi_row offset init_val negb] in Hrun.
  all: vm_compute in Hrun.
  all: unfold XEN_PT_INVALID_REG in Hdata; congruence.
Qed.

Lemma msi_size_of_flags s base w :
  xen_host_pci_get_word (real_device s) (uint32 (base + PCI_MSI_FLAGS)) = Some w ->
  xen_pt_msi_size_init s base =
    (0,
     Some (match truthy (Z.land w PCI_MSI_FLAGS_64BIT),
                 truthy (Z.land w PCI_MSI_FLAGS_MASKBIT) with
           | false, false => 0xa
           | true, false => 0xe
           | false, true => 0x14
           | true, true => 0x18
           end),
     set_msi s msi_new0).
Proof.
  intros Hw. unfold xen_pt_msi_size_init. rewrite Hw.
  destruct (truthy (Z.land w PCI_MSI_FLAGS_64BIT));
    destruct (truthy (Z.land w PCI_MSI_FLAGS_MASKBIT)); reflexivity.
Qed.

(** X13: the MSI group is sized for the registers that attach creates in it.
    From the host's Message Control word the size resolver answers 10, 14, 20
    or 24 bytes, and the resolver followed by the Message Control initialiser
    leaves that word in [msi->flags]; with these flags every register of
    [xen_pt_emu_reg_msi] whose initialiser answers a value other than
    [XEN_PT_INVALID_REG] lies inside the resolved size, and no two of them
    overlap. *)
Theorem X13_msi_registers_fit_resolved_size fuel s base w :
  xen_host_pci_get_word (real_device s) (uint32 (base + PCI_MSI_FLAGS)) = Some w ->
  exists size s0,
    xen_pt_msi_size_init s base = (0, Some size, s0) /\
    In size [0xa; 0xe; 0x14; 0x18] /\
    flags (msi (snd (xen_pt_msgctrl_reg_init s0 reg_msi_msgctrl
                       (uint32 (base + PCI_MSI_FLAGS))))) = w /\
    MsiLayoutSpec.fits_and_disjoint fuel base w size.
Proof.
  intros Hw. eexists _, _. split; [apply (msi_size_of_flags _ _ _ Hw)|].
  split; [|split; [|split]].
  - destruct (truthy _), (truthy _); cbn [In]; auto.
  - unfold xen_pt_msgctrl_reg_init. cbn [real_device set_msi]. rewrite Hw.
    destruct (truthy (Z.land w PCI_MSI_FLAGS_ENABLE));
      cbn [snd msi set_msi emit XEN_PT_LOG flags msi_new0]; rewrite Z.lor_0_l;
      (apply cast_small; [lia|]; pose proof (get_word_range _ _ _ Hw); lia).
  - intros s1 row Hf Hin Hm.
    pose proof (msi_materialised_in_layout _ _ _ _ Hin Hm) as Hl.
    rewrite Hf in Hl.
    destruct (truthy (Z.land w PCI_MSI_FLAGS_64BIT));
      destruct (truthy (Z.land w PCI_MSI_FLAGS_MASKBIT));
      vm_compute in Hl;
      repeat (destruct Hl as [<- | Hl]); try contradiction;
      vm_compute; split; discriminate.
  - intros s1 s2 row row' Hf Hf' Hin Hin' Hne Hm Hm' a.
    pose proof (msi_materialised_in_layout _ _ _ _ Hin Hm) as Hl.
    pose proof (msi_materialised_in_layout _ _ _ _ Hin' Hm') as Hl'.
    rewrite Hf in Hl. rewrite Hf' in Hl'.
    unfold reg_span.
    destruct (truthy (Z.land w PCI_MSI_FLAGS_64BIT));
      destruct (truthy (Z.land w PCI_MSI_FLAGS_MASKBIT));
      vm_compute in Hl, Hl';
      repeat (destruct Hl as [<- | Hl]); try contradiction;
      repeat (destruct Hl' as [<- | Hl']); try contradiction;
      try (exfalso; apply Hne; reflexivity);
      cbn [fst offset XenPt.size]; lia.
Qed.

(** X13 on the capability of the fixture (64-bit addresses and per-vector
    masking): it resolves to 24 bytes. *)
Lemma X13_msi_registers_witness :
  exists size s0,
    xen_pt_msi_size_init MsiCapFixtures.msi64_state 0x50 = (0, Some size, s0) /\
    In size [0xa; 0xe; 0x14; 0x18] /\
    flags (msi (snd (xen_pt_msgctrl_reg_init s0 reg_msi_msgctrl
                       (uint32 (0x50 + PCI_MSI_FLAGS))))) = 0x0180 /\
    MsiLayoutSpec.fits_and_disjoint 8 0x50 0x0180 size.
Proof.
  apply (X13_msi_registers_fit_resolved_size 8 MsiCapFixtures.msi64_state 0x50 0x0180).
  reflexivity.
Defined.

Lemma merge_to_device val dev_value : XEN_PT_MERGE_VALUE val dev_value 0 = dev_value.
Proof.
  unfold XEN_PT_MERGE_VALUE. rewrite Z.land_0_r, Z.lor_0_l.
  change (Z.lnot 0) with (-1). apply Z.land_m1_r.
Qed.

(** X14: a guest write to the Message Address, the Message Upper Address or
    the Message Data register never reaches the device: whenever the handler
    succeeds, the value it hands back for the device is the device's own
    current value, whatever the guest wrote and whatever bytes it enabled. *)
Theorem X14_msi_writes_keep_device_value update s cfg_entry val dev_value valid_mask :
  (forall v s',
     xen_pt_msgaddr32_reg_write update s cfg_entry val dev_value valid_mask = (0, v, s') ->
     v = uint32 dev_value) /\
  (forall v s',
     xen_pt_msgaddr64_reg_write update s cfg_entry val dev_value valid_mask = (0, v, s') ->
     v = uint32 dev_value) /\
  (forall v s',
     xen_pt_msgdata_reg_write update s cfg_entry val dev_value valid_mask = (0, v, s') ->
     v = uint16 dev_value).
Proof.
  split; [|split]; intros v s'.
  - unfold xen_pt_msgaddr32_reg_write. cbv zeta. rewrite merge_to_device.
    destruct (_ && _); congruence.
  - unfold xen_pt_msgaddr64_reg_write. cbv zeta. rewrite merge_to_device.
    destruct (negb (truthy _)); [discriminate|].
    destruct (_ && _); congruence.
  - unfold xen_pt_msgdata_reg_write. cbv zeta. rewrite merge_to_device.
    destruct (negb (xen_pt_msi_check_type _ _ _ _)); [discriminate|].
    destruct (_ && _); congruence.
Qed.

(** X14 on the fixture: the guest writes 0xFEE00000 to the Message Address
    while the device holds 0x12345678. *)
Lemma X14_msi_writes_witness :
  snd (fst (xen_pt_msgaddr32_reg_write MsiCapFixtures.id_update MsiCapFixtures.msi64_state
              MsiCapFixtures.addr_lo_entry 0xFEE00000 0x12345678 0xFFFFFFFF))
  = 0x12345678.
Proof.
  apply (proj1 (X14_msi_writes_keep_device_value MsiCapFixtures.id_update
                  MsiCapFixtures.msi64_state MsiCapFixtures.addr_lo_entry
                  0xFEE00000 0x12345678 0xFFFFFFFF)
           _ (snd (xen_pt_msgaddr32_reg_write MsiCapFixtures.id_update
                     MsiCapFixtures.msi64_state MsiCapFixtures.addr_lo_entry
                     0xFEE00000 0x12345678 0xFFFFFFFF))).
  vm_compute. reflexivity.
Defined.

(** X15: the two writers that depend on the layout reject a write that does
    not fit it, and do nothing else then.  The Message Upper Address writer
    fails exactly when [msi->flags] lacks the 64-bit flag, the Message Data
    writer exactly when its register's offset is not the one of the layout in
    force; a failed call returns -1, hands the guest's value back untouched
    and leaves the image, the MSI record and the register groups as they
    were (it only logs an error). *)
Theorem X15_msi_writes_rejected update s cfg_entry val dev_value valid_mask :
  (forall rc v s',
     xen_pt_msgaddr64_reg_write update s cfg_entry val dev_value valid_mask = (rc, v, s') ->
     (rc = 0 \/ rc = -1) /\
     (rc = -1 <-> Z.land (flags (msi s)) PCI_MSI_FLAGS_64BIT = 0) /\
     (rc = -1 ->
      v = val /\ dev_config s' = dev_config s /\ msi s' = msi s /\
      reg_grps s' = reg_grps s /\ exists e, log s' = ERR e :: log s)) /\
  (forall rc v s',
     xen_pt_msgdata_reg_write update s cfg_entry val dev_value valid_mask = (rc, v, s') ->
     (rc = 0 \/ rc = -1) /\
     (rc = -1 <->
      offset (reg cfg_entry) <>
      (if Z.land (flags (msi s)) PCI_MSI_FLAGS_64BIT =? 0
       then PCI_MSI_DATA_32 else PCI_MSI_DATA_64)) /\
     (rc = -1 ->
      v = val /\ dev_config s' = dev_config s /\ msi s' = msi s /\
      reg_grps s' = reg_grps s /\ exists e, log s' = ERR e :: log s)).
Proof.
  split; intros rc v s'.
  - unfold xen_pt_msgaddr64_reg_write. cbv zeta. unfold truthy. rewrite negb_involutive.
    destruct (Z.eqb_spec (Z.land (flags (msi s)) PCI_MSI_FLAGS_64BIT) 0) as [E|E].
    + intros H. injection H as <- <- <-.
      split; [right; reflexivity|]. split; [tauto|]. intros _.
      repeat split; try reflexivity. eexists. reflexivity.
    + destruct (_ && _); intros H; injection H as <- <- <-;
        (split; [left; reflexivity|]); (split; [split; [discriminate | tauto]|]);
        discriminate.
  - unfold xen_pt_msgdata_reg_write, xen_pt_msi_check_type. cbv zeta. unfold truthy.
    destruct (Z.land (flags (msi s)) PCI_MSI_FLAGS_64BIT =? 0); cbn [negb];
      match goal with
      | |- context [offset (reg cfg_entry) =? ?x] =>
          destruct (Z.eqb_spec (offset (reg cfg_entry)) x) as [E|E]
      end; cbn [negb].
    all: try (destruct (_ && _); intros H; injection H as <- <- <-;
              (split; [left; reflexivity|]);
              (split; [split; [discriminate | tauto]|]); discriminate).
    all: intros H; injection H as <- <- <-;
      (split; [right; reflexivity|]); (split; [tauto|]); intros _;
      repeat split; try reflexivity; eexists; reflexivity.
Qed.

(** X15 on a capability without 64-bit addresses: the write to the upper
    address is refused. *)
Lemma X15_msi_writes_rejected_witness :
  Z.land (flags (msi MsiFixtures.msi_created)) PCI_MSI_FLAGS_64BIT = 0 /\
  fst (fst (xen_pt_msgaddr64_reg_write MsiCapFixtures.id_update MsiFixtures.msi_created
              MsiCapFixtures.addr_hi_entry 1 0 0xFFFFFFFF)) = -1.
Proof.
  split; [reflexivity|].
  set (r := xen_pt_msgaddr64_reg_write MsiCapFixtures.id_update MsiFixtures.msi_created
              MsiCapFixtures.addr_hi_entry 1 0 0xFFFFFFFF).
  assert (E : r = (fst (fst r), snd (fst r), snd r))
    by (destruct r as [[? ?] ?]; reflexivity).
  apply (proj2 (proj1 (proj2 (proj1 (X15_msi_writes_rejected MsiCapFixtures.id_update
                                       MsiFixtures.msi_created
                                       MsiCapFixtures.addr_hi_entry 1 0 0xFFFFFFFF)
                                _ _ _ E)))).
  reflexivity.
Defined.

(** X16: while the MSI is not mapped, the three writers call no backend
    function and keep the MSI record in step with the image: after a
    successful write the record's [addr_lo], [addr_hi] or [data] is the value
    now held by the register's cell of [dev.config]; the flags and the mapping
    state of the record, the register groups and the log are as before. *)
Theorem X16_msi_record_mirrors_image update s cfg_entry val dev_value valid_mask :
  mapped (msi s) = false ->
  (forall v s',
     xen_pt_msgaddr32_reg_write update s cfg_entry val dev_value valid_mask = (0, v, s') ->
     addr_lo (msi s') = pci_get_long (dev_config s') (ptr cfg_entry) /\
     flags (msi s') = flags (msi s) /\ mapped (msi s') = false /\
     same_but_image_and_msi s s') /\
  (forall v s',
     xen_pt_msgaddr64_reg_write update s cfg_entry val dev_value valid_mask = (0, v, s') ->
     addr_hi (msi s') = pci_get_long (dev_config s') (ptr cfg_entry) /\
     flags (msi s') = flags (msi s) /\ mapped (msi s') = false /\
     same_but_image_and_msi s s') /\
  (forall v s',
     xen_pt_msgdata_reg_write update s cfg_entry val dev_value valid_mask = (0, v, s') ->
     msi_data (msi s') = pci_get_word (dev_config s') (ptr cfg_entry) /\
     flags (msi s') = flags (msi s) /\ mapped (msi s') = false /\
     same_but_image_and_msi s s').
Proof.
  intros Hm. split; [|split]; intros v s'.
  - unfold xen_pt_msgaddr32_reg_write. cbv zeta.
    cbn [set_msi_addr_lo set_msi set_dev_config msi mapped]. rewrite Hm, andb_false_r.
    intros H. injection H as _ <-.
    unfold same_but_image_and_msi.
    cbn [msi addr_lo flags mapped dev_config set_msi set_dev_config set_msi_addr_lo
         real_device reg_grps permissive fake_cap_id log].
    rewrite get_set_long. unfold uint32. rewrite cast_idem by lia.
    repeat split; try assumption; reflexivity.
  - unfold xen_pt_msgaddr64_reg_write. cbv zeta.
    destruct (negb (truthy _)); [discriminate|].
    cbn [set_msi_addr_hi set_msi set_dev_config msi mapped]. rewrite Hm, andb_false_r.
    intros H. injection H as _ <-.
    unfold same_but_image_and_msi.
    cbn [msi addr_hi flags mapped dev_config set_msi set_dev_config set_msi_addr_hi
         real_device reg_grps permissive fake_cap_id log].
    rewrite get_set_long. unfold uint32. rewrite cast_idem by lia.
    repeat split; try assumption; reflexivity.
  - unfold xen_pt_msgdata_reg_write. cbv zeta.
    destruct (negb (xen_pt_msi_check_type _ _ _ _)); [discriminate|].
    cbn [set_msi_data set_msi set_dev_config msi mapped]. rewrite Hm, andb_false_r.
    intros H. injection H as _ <-.
    unfold same_but_image_and_msi.
    cbn [msi msi_data flags mapped dev_config set_msi set_dev_config set_msi_data
         real_device reg_grps permissive fake_cap_id log].
    rewrite get_set_word. unfold uint16. rewrite cast_idem by lia.
    repeat split; try assumption; reflexivity.
Qed.

(** X16 on the fixture: the guest sets the Message Address to 0xFEE01004;
    record and image then both hold 0xFEE01004. *)
Lemma X16_msi_record_witness :
  let s' := snd (xen_pt_msgaddr32_reg_write MsiCapFixtures.id_update
                   MsiCapFixtures.msi64_state MsiCapFixtures.addr_lo_entry
                   0xFEE01004 0 0xFFFFFFFF) in
  addr_lo (msi s') = pci_get_long (dev_config s') 0x54 /\ addr_lo (msi s') = 0xFEE01004.
Proof.
  intros s'. split; [|reflexivity].
  apply (proj1 (X16_msi_record_mirrors_image MsiCapFixtures.id_update
                  MsiCapFixtures.msi64_state MsiCapFixtures.addr_lo_entry
                  0xFEE01004 0 0xFFFFFFFF eq_refl) 0 s').
  reflexivity.
Defined.

(** ** The PCI Express capability *)

Lemma pcie_accessors s :
  pcie_flags (real_device s) <> 0xFFFF ->
  exists version type,
    get_pcie_capability_version s = Some version /\
    get_pcie_device_type s = Some type.
Proof.
  intros H. unfold get_pcie_capability_version, get_pcie_device_type.
  destruct (Z.eqb_spec (pcie_flags (real_device s)) 0xFFFF); [contradiction|].
  eexists _, _. split; reflexivity.
Qed.

(** X17: the size of the PCI Express group is resolved for endpoints only.
    On a device with stored PCI Express flags the resolver returns; it
    succeeds exactly for an Endpoint, a Legacy Endpoint or a Root Complex
    Integrated Endpoint whose capability version is 1 or 2, storing 0x14
    (0x0C for the integrated endpoint, which has no link) for version 1 and
    0x3C for version 2 and leaving the state untouched; in every other case
    it returns -1, stores no size and logs an error. *)
Theorem X17_pcie_size_endpoints_only s base_offset :
  pcie_flags (real_device s) <> 0xFFFF ->
  exists version type rc sz s',
    get_pcie_capability_version s = Some version /\
    get_pcie_device_type s = Some type /\
    xen_pt_pcie_size_init s base_offset = Some (rc, sz, s') /\
    (rc = 0 <-> is_endpoint_type type /\ (version = 1 \/ version = 2)) /\
    (rc = 0 ->
     s' = s /\
     sz = Some (if version =? 2 then 0x3C
                else if type =? PCI_EXP_TYPE_RC_END then 0x0C else 0x14)) /\
    (rc <> 0 -> rc = -1 /\ sz = None /\ exists e, s' = XEN_PT_ERR e s).
Proof.
  intros H. destruct (pcie_accessors s H) as (version & type & Hv & Ht).
  exists version, type. unfold xen_pt_pcie_size_init. rewrite Hv, Ht.
  unfold pcie_size_v1, pcie_size_v2, is_endpoint_type,
    PCI_EXP_TYPE_ENDPOINT, PCI_EXP_TYPE_LEG_END, PCI_EXP_TYPE_RC_END.
  destruct (Z.eqb_spec version 1) as [E1|E1];
    [|destruct (Z.eqb_spec version 2) as [E2|E2]];
    destruct (Z.eqb_spec type 0) as [T0|T0];
    destruct (Z.eqb_spec type 1) as [T1|T1];
    destruct (Z.eqb_spec type 9) as [T9|T9];
    cbn [orb]; try lia;
    eexists _, _, _; (split; [reflexivity|]); (split; [reflexivity|]);
    (split; [reflexivity|]); (split; [lia|]);
    (split; [intros Hrc; first [lia | split; [reflexivity|]; subst; reflexivity]|]);
    intros Hrc;
    first [lia | split; [reflexivity|]; split; [reflexivity|]; eexists; reflexivity].
Qed.

(** X17 on the version-1 endpoint of the fixture: 0x14 bytes. *)
Lemma X17_pcie_size_witness :
  xen_pt_pcie_size_init PcieFixtures.v1_endpoint 0x60
  = Some (0, Some 0x14, PcieFixtures.v1_endpoint).
Proof.
  destruct (X17_pcie_size_endpoints_only PcieFixtures.v1_endpoint 0x60)
    as (version & type & rc & sz & s' & Hv & Ht & Hsz & Hiff & Hok & _).
  - discriminate.
  - injection Hv as <-. injection Ht as <-.
    assert (Hrc : rc = 0) by (apply Hiff; split; [left; reflexivity | left; reflexivity]).
    destruct (Hok Hrc) as [-> ->]. rewrite Hsz, Hrc. reflexivity.
Defined.

(** X18: which of the optional registers of the PCI Express group attach
    creates.  The initialisers of Link Control and of Device Control 2 answer
    the descriptor's [init_val] for every version and type (the
    [XEN_PT_INVALID_REG] they store for version 1 is overwritten by the next
    statement), and only Link Control 2 answers [XEN_PT_INVALID_REG] for
    version 1.  So for a version-1 capability, whose group is resolved to at
    most 0x14 bytes, the row of Device Control 2 at offset 0x28 is
    initialised outside the group. *)
Theorem X18_pcie_v1_registers fuel s base_offset size :
  get_pcie_capability_version s = Some 1 ->
  xen_pt_pcie_size_init s base_offset = Some (0, Some size, s) ->
  size <= 0x14 /\
  (forall row, In row xen_pt_emu_reg_pcie ->
     snd row = PcieInit_linkctrl \/ snd row = PcieInit_devctrl2 ->
     pcie_run_init (snd row) fuel s (fst row) (uint32 (base_offset + offset (fst row)))
     = Some (InitOk (init_val (fst row)), s) /\
     init_val (fst row) <> XEN_PT_INVALID_REG) /\
  (forall row, In row xen_pt_emu_reg_pcie -> snd row = PcieInit_linkctrl2 ->
     pcie_run_init (snd row) fuel s (fst row) (uint32 (base_offset + offset (fst row)))
     = Some (InitOk XEN_PT_INVALID_REG, s)) /\
  (exists row, In row xen_pt_emu_reg_pcie /\ snd row = PcieInit_devctrl2 /\
     size <= offset (fst row)).
Proof.
  intros Hv Hsz.
  assert (Hf : pcie_flags (real_device s) <> 0xFFFF).
  { unfold get_pcie_capability_version in Hv.
    destruct (Z.eqb_spec (pcie_flags (real_device s)) 0xFFFF); [discriminate | assumption]. }
  destruct (pcie_accessors s Hf) as (version & type & Hv' & Ht).
  assert (Hsize : size <= 0x14).
  { unfold xen_pt_pcie_size_init in Hsz. rewrite Hv, Ht in Hsz. cbn [Z.eqb Pos.eqb] in Hsz.
    unfold pcie_size_v1 in Hsz.
    destruct (_ || _); [injection Hsz as <-; lia|].
    destruct (_ =? _); [injection Hsz as <-; lia | discriminate]. }
  split; [exact Hsize|]. split; [|split].
  - intros row Hin Htag. unfold xen_pt_emu_reg_pcie in Hin. cbn [In] in Hin.
    repeat (destruct Hin as [<- | Hin]); try contradiction;
      cbn [snd pcie_row] in Htag; destruct Htag as [Htag | Htag]; try discriminate Htag;
      cbn [snd fst pcie_row pcie_run_init init_val];
      unfold xen_pt_linkctrl_reg_init, xen_pt_devctrl2_reg_init;
      rewrite Hv, ?Ht; cbn [option_map init_val]; (split; [reflexivity | discriminate]).
  - intros row Hin Htag. unfold xen_pt_emu_reg_pcie in Hin. cbn [In] in Hin.
    repeat (destruct Hin as [<- | Hin]); try contradiction;
      cbn [snd pcie_row] in Htag; try discriminate Htag;
      cbn [snd fst pcie_row pcie_run_init];
      unfold xen_pt_linkctrl2_reg_init; rewrite Hv; reflexivity.
  - exists (pcie_row 0x28 2 0x0000 0 0xFFE0 0 0xFFFF PcieInit_devctrl2).
    split; [unfold xen_pt_emu_reg_pcie; cbn [In]; tauto|].
    split; [reflexivity|]. cbn [fst pcie_row offset]. lia.
Qed.

(** X18 on the version-1 endpoint of the fixture. *)
Lemma X18_pcie_v1_registers_witness :
  exists row, In row xen_pt_emu_reg_pcie /\ snd row = PcieInit_devctrl2 /\
              0x14 <= offset (fst row).
Proof.
  exact (proj2 (proj2 (proj2 (X18_pcie_v1_registers 8 PcieFixtures.v1_endpoint 0x60 0x14
                                eq_refl eq_refl)))).
Defined.


(** Bitwise equality of two 16-bit expressions over one symbolic word [w]:
    bit by bit below 16, and by range above. *)
Ltac bits16 w Hw :=
  apply Z.bits_inj'; intros ?i ?Hi;
  let i := match goal with |- Z.testbit _ ?i = _ => i end in
  destruct (Z.ltb_spec i 16) as [Hlt|Hge];
  [ assert (Hc : i = 0 \/ i = 1 \/ i = 2 \/ i = 3 \/ i = 4 \/ i = 5 \/ i = 6 \/ i = 7 \/
                 i = 8 \/ i = 9 \/ i = 10 \/ i = 11 \/ i = 12 \/ i = 13 \/ i = 14 \/
                 i = 15) by lia;
    repeat (destruct Hc as [-> | Hc]); try subst i;
    repeat first [ rewrite Z.land_spec | rewrite Z.lor_spec
                 | rewrite Z.lnot_spec by lia ];
    match goal with
    | |- context [Z.testbit w ?k] => generalize (Z.testbit w k); intros [|]; reflexivity
    end
  | repeat first [ rewrite Z.land_spec | rewrite Z.lor_spec
                 | rewrite Z.lnot_spec by lia ];
    repeat match goal with
           | |- context [Z.testbit ?c i] =>
               rewrite (testbit_above c 16 i)
                 by first [ exact Hw | exact Hge
                          | change (2 ^ 16) with 65536; cbn; lia ]
           end;
    reflexivity ].

(** X19: the PCI Express Capabilities register shown to the guest.  For an
    Endpoint or a Legacy Endpoint the initialiser keeps every bit of the
    host's flags word except the device/port type field, which it sets to 9
    (Root Complex Integrated Endpoint); for every other type it passes the
    host's word on unchanged; and when the host's word cannot be read it
    still succeeds, with the value 0 and an error message. *)
Theorem X19_pcie_capabilities_type_faked s reg real_offset dev_type :
  get_pcie_device_type s = Some dev_type ->
  exists data s',
    xen_pt_pcie_capabilities_reg_init s reg real_offset = Some (InitOk data, s') /\
    match xen_host_pci_get_word (real_device s)
            (uint32 (real_offset - offset reg + PCI_EXP_FLAGS)) with
    | None => data = 0 /\ exists e, s' = XEN_PT_ERR e s
    | Some w =>
        if (dev_type =? PCI_EXP_TYPE_ENDPOINT) || (dev_type =? PCI_EXP_TYPE_LEG_END)
        then
          Z.shiftr (Z.land data PCI_EXP_FLAGS_TYPE) 4 = PCI_EXP_TYPE_RC_END /\
          Z.land data (Z.lnot PCI_EXP_FLAGS_TYPE) = Z.land w (Z.lnot PCI_EXP_FLAGS_TYPE)
        else data = w /\ s' = s
    end.
Proof.
  intros Ht. unfold xen_pt_pcie_capabilities_reg_init. rewrite Ht.
  destruct (xen_host_pci_get_word _ _) as [w|] eqn:Hw.
  - pose proof (get_word_range _ _ _ Hw) as Hr.
    destruct (_ || _).
    + eexists _, _. split; [reflexivity|]. cbv zeta.
      unfold uint16, cast, PCI_EXP_FLAGS_TYPE, PCI_EXP_TYPE_RC_END.
      change (Z.shiftl 9 4) with 144. change (Z.land 144 240) with 144.
      split.
      * assert (E : Z.land (Z.land (Z.lor (Z.land (Z.land w (Z.lnot 240)) (Z.ones 16)) 144)
                              (Z.ones 16)) 240 = 144) by (bits16 w Hr).
        rewrite E. reflexivity.
      * bits16 w Hr.
    + eexists _, _. split; [reflexivity|]. split; reflexivity.
  - eexists _, _. split; [reflexivity|]. split; [reflexivity|]. eexists. reflexivity.
Qed.

(** X19 on the version-2 legacy endpoint of the fixture: the flags word
    0x0012 is shown as 0x0092. *)
Lemma X19_pcie_capabilities_witness :
  exists data s',
    xen_pt_pcie_capabilities_reg_init PcieFixtures.v2_legacy_endpoint
      (fst (pcie_row PCI_EXP_FLAGS 2 0 0 0xFFFF 0 0xFFFF PcieInit_pcie_capabilities)) 0x62
    = Some (InitOk data, s') /\
    Z.shiftr (Z.land data PCI_EXP_FLAGS_TYPE) 4 = PCI_EXP_TYPE_RC_END.
Proof.
  destruct (X19_pcie_capabilities_type_faked PcieFixtures.v2_legacy_endpoint
              (fst (pcie_row PCI_EXP_FLAGS 2 0 0 0xFFFF 0 0xFFFF PcieInit_pcie_capabilities))
              0x62 1 eq_refl) as (data & s' & H & Hm).
  exists data, s'. split; [exact H|].
  match type of Hm with
  | match ?x with _ => _ end => change x with (Some 0x0012) in Hm
  end.
  exact (proj1 Hm).
Defined.

(** ** The remaining size resolvers *)

Lemma land_align8 y : 0 <= y < 2 ^ 32 -> Z.land y 0xFFFFFFF8 = 8 * (y / 8).
Proof.
  intros Hy.
  replace (8 * (y / 8)) with (Z.shiftl (Z.shiftr y 3) 3)
    by (rewrite Z.shiftl_mul_pow2, Z.shiftr_div_pow2 by lia; change (2 ^ 3) with 8; lia).
  change 0xFFFFFFF8 with (Z.shiftl (Z.ones 29) 3).
  apply Z.bits_inj'; intros i Hi.
  rewrite Z.land_spec.
  destruct (Z.ltb_spec i 3).
  - rewrite !Z.shiftl_spec_low by lia. apply andb_false_r.
  - rewrite !Z.shiftl_spec by lia. rewrite Z.shiftr_spec by lia.
    replace (i - 3 + 3) with i by lia.
    destruct (Z.ltb_spec i 32).
    + rewrite Z.ones_spec_low by lia. apply andb_true_r.
    + rewrite (testbit_above y 32 i Hy) by lia. reflexivity.
Qed.

Lemma host_rc_none {A} (r : option A) : host_rc r = 0 <-> r <> None.
Proof. destruct r; cbn; split; try discriminate; try congruence; unfold EIO; lia. Qed.

(** X20: the resolvers of the Vendor Specific (legacy and extended), Root
    Complex Link Declaration, Access Control Services and Resizable BAR groups
    each read one host field and return the status of that read; the size
    they store is bounded by the width of the field they use (at most 255,
    4095, 4096, 40 and 60 bytes), the Link Declaration size is a multiple of
    16, and a failed read still stores a size, the one for a field of 0. *)
Theorem X20_single_field_sizes s base_offset :
  (let r := xen_host_pci_get_byte (real_device s) (uint32 (base_offset + 0x02)) in
   let '(rc, size) := xen_pt_vendor_size_init s base_offset in
   ExtSizesSpec.sized_within r rc size 0 255 0) /\
  (let r := xen_host_pci_get_long (real_device s)
              (uint32 (base_offset + PCI_VNDR_HEADER)) in
   let '(rc, size, _) := xen_pt_ext_cap_vendor_size_init s base_offset in
   ExtSizesSpec.sized_within r rc size 0 4095 0) /\
  (let r := xen_host_pci_get_long (real_device s) (uint32 (base_offset + 4)) in
   let '(rc, size, _) := xen_pt_ext_cap_rcld_size_init s base_offset in
   ExtSizesSpec.sized_within r rc size 16 4096 16 /\ size mod 16 = 0) /\
  (let r := xen_host_pci_get_word (real_device s)
              (uint32 (base_offset + PCI_ACS_CAP)) in
   let '(rc, size, _) := xen_pt_ext_cap_acs_size_init s base_offset in
   ExtSizesSpec.sized_within r rc size 8 40 8) /\
  (let r := xen_host_pci_get_long (real_device s)
              (uint32 (base_offset + PCI_REBAR_CTRL)) in
   let '(rc, size, _) := xen_pt_ext_cap_rebar_size_init s base_offset in
   ExtSizesSpec.sized_within r rc size 4 60 4).
Proof.
  unfold ExtSizesSpec.sized_within.
  split; [|split; [|split; [|split]]]; cbv zeta.
  - unfold xen_pt_vendor_size_init.
    destruct (xen_host_pci_get_byte _ _) as [v|] eqn:E; cbn [or_zero host_rc].
    + unfold xen_host_pci_get_byte in E. destruct (config _ _); [|discriminate].
      injection E as <-. pose proof (byte_to_Z_range b).
      repeat split; try lia; discriminate.
    + repeat split; lia.
  - unfold xen_pt_ext_cap_vendor_size_init, PCI_VNDR_HEADER_LEN.
    set (r := xen_host_pci_get_long _ _).
    pose proof (land_ones_range (Z.shiftr (or_zero r) 20) 12 ltac:(lia)) as Hr.
    change (Z.ones 12) with 0xfff in Hr. change (2 ^ 12) with 4096 in Hr.
    repeat split; try lia. intros ->. reflexivity.
  - unfold xen_pt_ext_cap_rcld_size_init, RCLD_GET_NUM_ENTRIES.
    set (r := xen_host_pci_get_long _ _).
    pose proof (land_ones_range (Z.shiftr (or_zero r) 8) 8 ltac:(lia)) as Hr.
    change (Z.ones 8) with 0xFF in Hr. change (2 ^ 8) with 256 in Hr.
    unfold uint32. rewrite cast_small by (change (2 ^ 32) with 4294967296; lia).
    repeat split; try lia.
    + intros ->. reflexivity.
    + replace (16 + Z.land (Z.shiftr (or_zero r) 8) 255 * 16)
        with ((1 + Z.land (Z.shiftr (or_zero r) 8) 255) * 16) by lia.
      apply Z.mod_mul. lia.
  - unfold xen_pt_ext_cap_acs_size_init, ACS_VECTOR_SIZE_BITS, PCI_ACS_EGRESS_CTL_V.
    set (r := xen_host_pci_get_word _ _).
    split; [reflexivity|].
    assert (Hz : r = None ->
                 (if truthy (Z.land (or_zero r) PCI_ACS_EC) then
                    uint32 (8 + Z.land (uint32 ((if truthy (Z.land (Z.shiftr (or_zero r) 8) 255)
                                                 then Z.land (Z.shiftr (or_zero r) 8) 255
                                                 else 256) + 7)) (not32 7) / 8)
                  else 8) = 8) by (intros ->; reflexivity).
    split; [|exact Hz]. clear Hz.
    destruct (truthy (Z.land (or_zero r) PCI_ACS_EC)); [|lia].
    pose proof (land_ones_range (Z.shiftr (or_zero r) 8) 8 ltac:(lia)) as Hr.
    change (Z.ones 8) with 255 in Hr. change (2 ^ 8) with 256 in Hr.
    set (v := if truthy _ then _ else 256).
    assert (Hv : 1 <= v <= 256).
    { subst v. unfold truthy.
      destruct (Z.eqb_spec (Z.land (Z.shiftr (or_zero r) 8) 255) 0); cbn [negb]; lia. }
    clearbody v. unfold uint32.
    rewrite (cast_small 32 (v + 7)) by (change (2 ^ 32) with 4294967296; lia).
    change (not32 7) with 0xFFFFFFF8.
    rewrite land_align8 by (change (2 ^ 32) with 4294967296; lia).
    replace (8 * ((v + 7) / 8) / 8) with ((v + 7) / 8)
      by (rewrite Z.mul_comm, Z.div_mul; lia).
    assert (1 <= (v + 7) / 8 <= 32).
    { split; [apply Z.div_le_lower_bound; lia|].
      apply Z.lt_succ_r, Z.div_lt_upper_bound; lia. }
    rewrite cast_small by (change (2 ^ 32) with 4294967296; lia). lia.
  - unfold xen_pt_ext_cap_rebar_size_init.
    set (r := xen_host_pci_get_long _ _).
    pose proof (shiftr_land_range (or_zero r) PCI_REBAR_CTRL_NBAR_MASK
                  PCI_REBAR_CTRL_NBAR_SHIFT 3 ltac:(unfold PCI_REBAR_CTRL_NBAR_SHIFT; lia)
                  ltac:(lia) eq_refl) as Hr.
    change (2 ^ 3) with 8 in Hr.
    unfold uint32. rewrite cast_small by (change (2 ^ 32) with 4294967296; lia).
    repeat split; try lia. intros ->. reflexivity.
Qed.

(** X20 on the extended capability of the fixture. *)
Lemma X20_single_field_sizes_witness :
  let '(rc, size, _) := xen_pt_ext_cap_rcld_size_init SizeFixtures.ext_state 0x100 in
  16 <= size <= 4096 /\ size mod 16 = 0.
Proof.
  pose proof (X20_single_field_sizes SizeFixtures.ext_state 0x100) as (_ & _ & H & _).
  cbv zeta in H.
  destruct (xen_pt_ext_cap_rcld_size_init SizeFixtures.ext_state 0x100) as [[rc size] s'].
  exact (conj (proj1 (proj2 (proj1 H))) (proj2 H)).
Defined.

(** X21: the two resolvers that look at the device type.  When the Advanced
    Error Reporting resolver returns, it either stores one of the sizes 0x2C,
    0x38 and 0x48 with status 0, or stores nothing, returns -1 and logs an
    error; for a capability version above 1 the outcome does not depend on
    what the local [devcaps2] held before the call (for lower versions the
    code tests that variable without having assigned it).  The Multicast
    resolver always succeeds, with 0x30 bytes for a Root Port, an Upstream
    or a Downstream Port and 40 bytes otherwise. *)
Theorem X21_type_driven_sizes CAP_ID_ANY s base_offset :
  (forall devcaps2_0 rc sz s',
     xen_pt_ext_cap_aer_size_init CAP_ID_ANY devcaps2_0 s base_offset = Some (rc, sz, s') ->
     (rc = 0 /\ exists size, sz = Some size /\ In size [0x2C; 0x38; 0x48]) \/
     (rc = -1 /\ sz = None /\ exists e, s' = XEN_PT_ERR e s)) /\
  (forall version a b,
     get_pcie_capability_version s = Some version -> 1 < version ->
     xen_pt_ext_cap_aer_size_init CAP_ID_ANY a s base_offset =
     xen_pt_ext_cap_aer_size_init CAP_ID_ANY b s base_offset) /\
  (forall dev_type,
     get_pcie_device_type s = Some dev_type ->
     exists size s',
       xen_pt_ext_cap_multicast_size_init s base_offset = Some (0, size, s') /\
       size = (if (dev_type =? PCI_EXP_TYPE_ROOT_PORT) || (dev_type =? PCI_EXP_TYPE_UPSTREAM)
                  || (dev_type =? PCI_EXP_TYPE_DOWNSTREAM)
               then 0x30 else 40)).
Proof.
  split; [|split].
  - intros d0 rc sz s'. unfold xen_pt_ext_cap_aer_size_init.
    destruct (get_pcie_device_type s) as [dev_type|]; [|discriminate].
    cbv zeta.
    destruct (_ =? 0).
    { intros H. injection H as <- <- <-. right.
      split; [reflexivity|]. split; [reflexivity|]. eexists. reflexivity. }
    destruct (get_pcie_capability_version s) as [version|]; [|discriminate].
    destruct (if 1 <? version then _ else _) as [devcaps2|].
    2:{ intros H. injection H as <- <- <-. right.
        split; [reflexivity|]. split; [reflexivity|]. eexists. reflexivity. }
    destruct (truthy (Z.land devcaps2 PCI_DEVCAP2_END_END_TLP_PREFIX)).
    + destruct (xen_host_pci_get_long _ _) as [aer_caps|].
      2:{ intros H. injection H as <- <- <-. right.
          split; [reflexivity|]. split; [reflexivity|]. eexists. reflexivity. }
      destruct (truthy (Z.land aer_caps PCI_ERR_CAP_TLP_PREFIX_LOG));
        cbn [truthy Z.eqb negb]; [|destruct (_ || _)];
        intros H; injection H as <- <- <-; left;
        (split; [reflexivity|]); eexists; (split; [reflexivity|]); cbn [In]; tauto.
    + cbn [truthy Z.eqb negb]. destruct (_ || _);
        intros H; injection H as <- <- <-; left;
        (split; [reflexivity|]); eexists; (split; [reflexivity|]); cbn [In]; tauto.
  - intros version a b Hv Hlt. unfold xen_pt_ext_cap_aer_size_init.
    rewrite Hv. destruct (Z.ltb_spec 1 version); [reflexivity | lia].
  - intros dev_type Ht. unfold xen_pt_ext_cap_multicast_size_init. rewrite Ht.
    eexists _, _. split; reflexivity.
Qed.

(** X21 on the version-2 legacy endpoint of the fixture. *)
Lemma X21_type_driven_sizes_witness :
  xen_pt_ext_cap_aer_size_init 0xFFFFFFFF 0 PcieFixtures.v2_legacy_endpoint 0x100 =
  xen_pt_ext_cap_aer_size_init 0xFFFFFFFF (Z.shiftl 1 21) PcieFixtures.v2_legacy_endpoint 0x100.
Proof.
  apply (proj1 (proj2 (X21_type_driven_sizes 0xFFFFFFFF PcieFixtures.v2_legacy_endpoint 0x100))
           2 0 (Z.shiftl 1 21) eq_refl).
  reflexivity.
Defined.

(** ** The Command register *)

Lemma truthy_land_pow2 x k : 0 <= k -> truthy (Z.land x (2 ^ k)) = Z.testbit x k.
Proof.
  intros Hk. unfold truthy.
  destruct (Z.testbit x k) eqn:E.
  - destruct (Z.eqb_spec (Z.land x (2 ^ k)) 0) as [H0|]; [|reflexivity].
    assert (Hb : Z.testbit (Z.land x (2 ^ k)) k = true)
      by (rewrite Z.land_spec, E, Z.pow2_bits_true by lia; reflexivity).
    rewrite H0, Z.bits_0 in Hb. discriminate.
  - assert (H0 : Z.land x (2 ^ k) = 0).
    { apply Z.bits_inj'; intros i Hi. rewrite Z.land_spec, Z.bits_0.
      rewrite Z.pow2_bits_eqb by lia.
      destruct (Z.eqb_spec k i) as [<-|]; [rewrite E; reflexivity | apply andb_false_r]. }
    rewrite H0. reflexivity.
Qed.

Lemma merge_testbit val data mask i :
  0 <= i ->
  Z.testbit (XEN_PT_MERGE_VALUE val data mask) i =
  if Z.testbit mask i then Z.testbit val i else Z.testbit data i.
Proof.
  intros Hi. unfold XEN_PT_MERGE_VALUE.
  rewrite Z.lor_spec, !Z.land_spec, Z.lnot_spec by assumption.
  destruct (Z.testbit mask i), (Z.testbit val i), (Z.testbit data i); reflexivity.
Qed.

Lemma command_intx_not_throughable s valid_mask :
  Z.testbit (uint16 (get_throughable_mask s reg_command valid_mask)) 10 = false.
Proof.
  unfold get_throughable_mask, uint16, not32, uint32.
  rewrite cast_testbit by lia.
  destruct (negb (permissive s));
    rewrite !Z.land_spec, !cast_testbit, Z.lnot_spec by lia;
    change (Z.testbit (Z.lor (emu_mask reg_command) (ro_mask reg_command)) 10) with true;
    reflexivity.
Qed.

(** X22: how a guest write to the Command register treats the INTx-disable
    bit, whatever bytes the guest enabled and whatever the mode of the
    engine.  If the guest sets the bit, the value for the device has it set;
    if the guest clears it, the value for the device has it clear when a
    machine interrupt is assigned ([s->machine_irq] non-zero) and otherwise
    keeps the device's own bit.  The call never fails. *)
Theorem X22_command_intx_disable machine_irq s val dev_value valid_mask :
  let '(rc, v, _) :=
    xen_pt_cmd_reg_write machine_irq s command_entry val dev_value valid_mask in
  rc = 0 /\
  Z.testbit v 10 =
    (if Z.testbit val 10 then true
     else if truthy machine_irq then false
     else Z.testbit dev_value 10).
Proof.
  unfold xen_pt_cmd_reg_write. cbv zeta. split; [reflexivity|].
  cbn [reg command_entry].
  change PCI_COMMAND_INTX_DISABLE with (2 ^ 10).
  rewrite truthy_land_pow2 by lia.
  pose proof (command_intx_not_throughable s valid_mask) as Htm.
  set (tm := uint16 (get_throughable_mask s reg_command valid_mask)) in *.
  assert (Hset : Z.testbit (uint16 (Z.lor tm (2 ^ 10))) 10 = true).
  { unfold uint16. rewrite cast_testbit, Z.lor_spec, Z.pow2_bits_true by lia.
    rewrite orb_true_r. reflexivity. }
  unfold uint16 at 1. 
  destruct (Z.testbit val 10) eqn:Ev; [|destruct (truthy machine_irq)];
    rewrite cast_testbit, merge_testbit by lia;
    rewrite ?Hset, ?Htm, ?Ev; reflexivity.
Qed.

(** ** Base address registers *)

Lemma bar_masks_emu to_size b index emu ro :
  bar_write_masks to_size b index = Some (emu, ro) -> emu = bar_read_emu_mask b index.
Proof.
  unfold bar_write_masks, bar_read_emu_mask.
  destruct (bar_flag b index); try (destruct (0 <? index)); congruence.
Qed.

Lemma bar_fixed_not_emulated f i :
  0 <= i -> Z.testbit (bar_fixed_bits f) i = true ->
  Z.testbit (match f with
             | XEN_PT_BAR_FLAG_MEM => XEN_PT_BAR_MEM_EMU_MASK
             | XEN_PT_BAR_FLAG_IO => XEN_PT_BAR_IO_EMU_MASK
             | XEN_PT_BAR_FLAG_UPPER => XEN_PT_BAR_ALLF
             | XEN_PT_BAR_FLAG_UNUSED => 0
             end) i = false.
Proof.
  intros Hi Hf.
  destruct f; cbn [bar_fixed_bits] in Hf.
  - assert (H : Z.testbit (Z.land XEN_PT_BAR_MEM_EMU_MASK XEN_PT_BAR_MEM_RO_MASK) i = false)
      by (change (Z.land _ _) with 0; apply Z.bits_0).
    rewrite Z.land_spec, Hf, andb_true_r in H. exact H.
  - assert (H : Z.testbit (Z.land XEN_PT_BAR_IO_EMU_MASK XEN_PT_BAR_IO_RO_MASK) i = false)
      by (change (Z.land _ _) with 0; apply Z.bits_0).
    rewrite Z.land_spec, Hf, andb_true_r in H. exact H.
  - rewrite Z.bits_0 in Hf. discriminate.
  - apply Z.bits_0.
Qed.

(** X23: a guest write to a base address register is emulated in full.  When
    the handler returns, it fails (-1, nothing changed but the log) exactly
    when the register's offset maps to no region; otherwise it hands back the
    device's own value, so the physical BAR is never reprogrammed, and in the
    image it leaves the bits that identify the kind of the base as they were:
    the low four bits of a memory BAR, the low two of an I/O BAR and every
    bit of an unused one.  Device, register groups and MSI record are
    untouched.  It returns unless the base is flagged as the upper half of a
    64-bit base at index 0, where its assertion fails. *)
Theorem X23_bar_write_emulated to_index emul_size b s cfg_entry val dev_value valid_mask :
  let index := to_index (offset (reg cfg_entry)) in
  let w := xen_pt_bar_reg_write to_index emul_size b s cfg_entry val dev_value valid_mask in
  (w = None <->
   0 <= index < PCI_NUM_REGIONS /\ bar_flag b index = XEN_PT_BAR_FLAG_UPPER /\ index = 0) /\
  (forall rc v s',
     w = Some (rc, v, s') ->
     (rc = 0 \/ rc = -1) /\
     (rc = -1 <-> index < 0 \/ PCI_NUM_REGIONS <= index) /\
     (rc = -1 -> v = val /\ dev_config s' = dev_config s) /\
     (rc = 0 ->
      v = uint32 dev_value /\
      forall i, 0 <= i < 32 ->
        Z.testbit (bar_fixed_bits (bar_flag b index)) i = true ->
        Z.testbit (pci_get_long (dev_config s') (ptr cfg_entry)) i =
        Z.testbit (pci_get_long (dev_config s) (ptr cfg_entry)) i) /\
     real_device s' = real_device s /\ reg_grps s' = reg_grps s /\ msi s' = msi s).
Proof.
  cbv zeta. unfold xen_pt_bar_reg_write. cbv zeta.
  set (index := to_index (offset (reg cfg_entry))).
  destruct (Z.ltb_spec index 0) as [Hlo|Hlo]; cbn [orb].
  { split; [split; [discriminate | lia]|].
    intros rc v s' H. injection H as <- <- <-.
    repeat split; try reflexivity; try lia; try discriminate. }
  destruct (Z.geb_spec index PCI_NUM_REGIONS) as [Hhi|Hhi].
  { split; [split; [discriminate | lia]|].
    intros rc v s' H. injection H as <- <- <-.
    repeat split; try reflexivity; try lia; try discriminate. }
  split.
  - unfold bar_write_masks.
    destruct (bar_flag b index); try (split; [discriminate | intros (_ & ? & _); discriminate]).
    destruct (Z.ltb_spec 0 index).
    + split; [discriminate | lia].
    + split; [intros _; repeat split; lia | reflexivity].
  - intros rc v s'.
    destruct (bar_write_masks emul_size b index) as [[bar_emu_mask bar_ro_mask]|] eqn:Hm;
      [|discriminate].
    apply bar_masks_emu in Hm. subst bar_emu_mask.
    intros H. injection H as <- <- <-.
    split; [left; reflexivity|]. split; [split; [discriminate | lia]|].
    split; [discriminate|]. split; [|repeat split].
    intros _. split; [rewrite merge_to_device; reflexivity|].
    intros i Hi Hfix. cbn [dev_config set_dev_config].
    rewrite get_set_long. unfold uint32.
    rewrite !cast_testbit, merge_testbit, !cast_testbit, !Z.land_spec by lia.
    unfold bar_read_emu_mask.
    rewrite (bar_fixed_not_emulated _ i (proj1 Hi) Hfix).
    destruct (Z.ltb_spec i 32); [reflexivity | lia].
Qed.

(** X23 on BAR 0 of the fixture (memory): the guest writes all ones, the
    device keeps 0xFE000008 and the type bits of the image stay 8. *)
Lemma X23_bar_write_witness :
  exists v s',
    xen_pt_bar_reg_write BarFixtures.offset_to_index BarFixtures.get_emul_size
      BarFixtures.regions (Fixtures.state_of (Fixtures.device_of [(0x10, 0x08)]))
      BarFixtures.bar0_entry 0xFFFFFFFF 0xFE000008 0xFFFFFFFF = Some (0, v, s') /\
    v = 0xFE000008 /\ Z.land (pci_get_long (dev_config s') 0x10) 0xF = 8.
Proof.
  eexists _, _. split; [vm_compute; reflexivity|].
  destruct (proj2 (X23_bar_write_emulated BarFixtures.offset_to_index
                     BarFixtures.get_emul_size BarFixtures.regions
                     (Fixtures.state_of (Fixtures.device_of [(0x10, 0x08)]))
                     BarFixtures.bar0_entry 0xFFFFFFFF 0xFE000008 0xFFFFFFFF)
              _ _ _ eq_refl) as (_ & _ & _ & H & _).
  destruct (H eq_refl) as [Hv _]. split; [exact Hv | reflexivity].
Defined.

(** X24: a base address register reads back what the guest wrote.  After a
    successful write, a read of the whole register on a region below the
    expansion ROM succeeds and returns, in every bit that the write could
    change (emulated, not read-only, enabled by the guest), the bit the guest
    wrote, and, in every bit outside the emulated mask of the base, the bit
    of the host's fixed-up base address and flags. *)
Theorem X24_bar_read_after_write to_index emul_size b s cfg_entry val dev_value valid_mask
  v s' value emu ro :
  xen_pt_bar_reg_write to_index emul_size b s cfg_entry val dev_value valid_mask
  = Some (0, v, s') ->
  let index := to_index (offset (reg cfg_entry)) in
  index < PCI_NUM_REGIONS - 1 ->
  bar_write_masks emul_size b index = Some (emu, ro) ->
  exists r,
    xen_pt_bar_reg_read to_index b s' cfg_entry value 0xFFFFFFFF = (0, r, s') /\
    (forall i, 0 <= i < 32 ->
       Z.testbit (Z.land (Z.land emu (not32 ro)) valid_mask) i = true ->
       Z.testbit r i = Z.testbit val i) /\
    (forall i, 0 <= i < 32 ->
       Z.testbit (bar_read_emu_mask b index) i = false ->
       Z.testbit r i = Z.testbit (host_base_address_with_flags b index) i).
Proof.
  unfold xen_pt_bar_reg_write, xen_pt_bar_reg_read. cbv zeta.
  set (index := to_index (offset (reg cfg_entry))).
  destruct (Z.ltb_spec index 0) as [Hlo|Hlo]; cbn [orb]; [discriminate|].
  destruct (Z.geb_spec index PCI_NUM_REGIONS) as [Hhi|Hhi]; [discriminate|].
  intros H Hrom Hm. rewrite Hm in H.
  apply bar_masks_emu in Hm. subst emu.
  injection H as _ <-.
  destruct (Z.geb_spec index (PCI_NUM_REGIONS - 1)) as [Hr|Hr]; [lia|].
  eexists. split; [reflexivity|].
  cbn [dev_config set_dev_config]. rewrite get_set_long.
  split; intros i Hi Hbit; unfold uint32, not32, uint32;
    rewrite !cast_testbit, merge_testbit, !cast_testbit, Z.lnot_spec, !cast_testbit,
      Z.land_spec by lia.
  - rewrite !Z.land_spec in Hbit.
    apply andb_prop in Hbit. destruct Hbit as [Hbit Hvalid].
    apply andb_prop in Hbit. destruct Hbit as [Hemu Hro].
    rewrite Hemu.
    change (Z.testbit 4294967295 i) with (Z.testbit (Z.ones 32) i).
    rewrite Z.ones_spec_low by lia.
    destruct (Z.ltb_spec i 32); [|lia]. cbn [andb negb].
    rewrite merge_testbit, !cast_testbit, !Z.land_spec by lia.
    rewrite Hemu, Hvalid.
    unfold not32, uint32 in Hro. rewrite Hro.
    destruct (Z.ltb_spec i 32); [|lia]. reflexivity.
  - rewrite Hbit. destruct (Z.ltb_spec i 32); [|lia]. reflexivity.
Qed.

(** X24 on BAR 0 of the fixture: after the guest wrote all ones, the register
    reads with bit 16 set, the lowest address bit of a 64 KiB region. *)
Lemma X24_bar_read_after_write_witness :
  exists v s' r,
    xen_pt_bar_reg_write BarFixtures.offset_to_index BarFixtures.get_emul_size
      BarFixtures.regions (Fixtures.state_of (Fixtures.device_of [(0x10, 0x08)]))
      BarFixtures.bar0_entry 0xFFFFFFFF 0xFE000008 0xFFFFFFFF = Some (0, v, s') /\
    xen_pt_bar_reg_read BarFixtures.offset_to_index BarFixtures.regions s'
      BarFixtures.bar0_entry 0 0xFFFFFFFF = (0, r, s') /\
    Z.testbit r 16 = true.
Proof.
  eexists _, _.
  assert (E : xen_pt_bar_reg_write BarFixtures.offset_to_index BarFixtures.get_emul_size
                BarFixtures.regions (Fixtures.state_of (Fixtures.device_of [(0x10, 0x08)]))
                BarFixtures.bar0_entry 0xFFFFFFFF 0xFE000008 0xFFFFFFFF
              = Some (0, _, _)) by (vm_compute; reflexivity).
  destruct (X24_bar_read_after_write _ _ _ _ _ _ _ _ _ _ 0 0xFFFFFFF0 0xFFFF E)
    as (r & Hr & Hw & _).
  - vm_compute. reflexivity.
  - vm_compute. reflexivity.
  - exists r. split; [exact E|]. split; [exact Hr|].
    rewrite (Hw 16); [reflexivity | lia | reflexivity].
Defined.

(** ** Where attach creates the register groups *)

Lemma cap_walk_sound CAP_ID_ANY d cap n :
  cap <> CAP_ID_ANY ->
  forall p,
    let r := fst (cap_walk CAP_ID_ANY d cap n p) in
    r = 0 \/ (0 < r < 0x100 /\ xen_host_pci_get_byte d (r + PCI_CAP_LIST_ID) = Some cap).
Proof.
  intros Hany. induction n as [|n IH]; intros p; cbn [cap_walk]; [left; reflexivity|].
  destruct (xen_host_pci_get_byte d p) as [c|] eqn:Hp; [|left; reflexivity].
  destruct (Z.eqb_spec c 0); [left; reflexivity|].
  destruct (Z.eqb_spec cap CAP_ID_ANY); [contradiction|].
  destruct (xen_host_pci_get_byte d (c + PCI_CAP_LIST_ID)) as [id|] eqn:Hid;
    [|left; reflexivity].
  destruct (id =? 0xff); [left; reflexivity|].
  destruct (Z.eqb_spec id cap) as [->|].
  - right. cbn [fst]. split; [|exact Hid].
    unfold xen_host_pci_get_byte in Hp. destruct (config d p) as [b|]; [|discriminate].
    injection Hp as <-. pose proof (byte_to_Z_range b). lia.
  - specialize (IH (uint8 (c + PCI_CAP_LIST_NEXT))). cbv zeta in IH.
    destruct (cap_walk CAP_ID_ANY d cap n (uint8 (c + PCI_CAP_LIST_NEXT))) as [r hops].
    exact IH.
Qed.

Lemma ext_next_range header : 0 <= PCI_EXT_CAP_NEXT header < 0x1000.
Proof.
  unfold PCI_EXT_CAP_NEXT.
  replace (Z.land (Z.shiftr header 20) 0xffc)
    with (Z.land (Z.land (Z.shiftr header 20) 0xffc) (Z.ones 12))
    by (rewrite <- Z.land_assoc; reflexivity).
  apply (land_ones_range _ 12). lia.
Qed.

Lemma ext_cap_walk_range CAP_ID_ANY d cap n :
  forall pos, 0 <= pos < 0x1000 ->
              0 <= ext_cap_walk CAP_ID_ANY d cap n pos < 0x1000.
Proof.
  induction n as [|n IH]; intros pos Hpos; cbn [ext_cap_walk]; [lia|].
  destruct (_ || _); [lia|].
  destruct (xen_host_pci_get_long d pos) as [header|]; [|lia].
  destruct (_ || _); [lia|].
  destruct (cap =? CAP_ID_ANY); [lia|].
  destruct (_ =? cap); [lia|].
  apply IH, ext_next_range.
Qed.

(** X25: for which entries of the catalogue attach creates a group, and
    where.  The Header group (id 0xFF) is always created at offset 0 and the
    OpRegion group always at 0xFC, whatever the device.  Any other entry gets
    a group only if the hide policy lets its capability through and the
    search of the host's lists finds it: a legacy group then stands below
    0x100 on an id byte equal to its id, an extended group at or above 0x100
    on a plausible header with its id, and only on a device with extended
    capabilities for which PCI Express emulation is enabled. *)
Theorem X25_group_placement CAP_ID_ANY pcie_enabled_dev s g off :
  grp_id g <> CAP_ID_ANY ->
  GET_PCIE_EXT_CAP_ID (grp_id g) <> CAP_ID_ANY ->
  (grp_id g = 0xFF -> reg_grp_placement CAP_ID_ANY pcie_enabled_dev s g = Some 0) /\
  (grp_id g = XEN_PCI_INTEL_OPREGION ->
   reg_grp_placement CAP_ID_ANY pcie_enabled_dev s g = Some XEN_PCI_INTEL_OPREGION) /\
  (grp_id g <> 0xFF -> grp_id g <> XEN_PCI_INTEL_OPREGION ->
   reg_grp_placement CAP_ID_ANY pcie_enabled_dev s g = Some off ->
   xen_pt_hide_dev_cap (real_device s) (grp_id g) = false /\
   (IS_PCIE_EXT_CAP_ID (grp_id g) = true ->
    pcie_enabled_dev = true /\ has_pcie_ext_caps (real_device s) = true) /\
   stands_on_capability (real_device s) g off).
Proof.
  intros Hany Hany'. unfold reg_grp_placement. cbv zeta.
  split; [|split].
  - intros ->. reflexivity.
  - intros ->. reflexivity.
  - intros H1 H2.
    destruct (Z.eqb_spec (grp_id g) 0xFF); [contradiction|].
    destruct (Z.eqb_spec (grp_id g) XEN_PCI_INTEL_OPREGION); [contradiction|].
    cbn [negb andb].
    destruct (xen_pt_hide_dev_cap (real_device s) (grp_id g)); [discriminate|].
    destruct (Z.eqb_spec (find_cap_offset CAP_ID_ANY pcie_enabled_dev s (grp_id g)) 0)
      as [|Hnz]; [discriminate|].
    intros H. injection H as <-. split; [reflexivity|].
    unfold find_cap_offset, stands_on_capability in *. cbv zeta in *.
    destruct (IS_PCIE_EXT_CAP_ID (grp_id g)).
    + destruct pcie_enabled_dev; [|contradiction].
      unfold xen_host_pci_find_next_ext_cap in *.
      destruct (has_pcie_ext_caps (real_device s)); [|contradiction].
      cbn [negb Z.eqb] in *.
      pose proof (ext_cap_walk_range CAP_ID_ANY (real_device s)
                    (GET_PCIE_EXT_CAP_ID (grp_id g)) XEN_HOST_PCI_MAX_EXT_CAP
                    PCI_CONFIG_SPACE_SIZE ltac:(unfold PCI_CONFIG_SPACE_SIZE; lia)) as Hr.
      pose proof (ext_cap_walk_sound CAP_ID_ANY (real_device s)
                    (GET_PCIE_EXT_CAP_ID (grp_id g)) XEN_HOST_PCI_MAX_EXT_CAP
                    PCI_CONFIG_SPACE_SIZE) as Hs.
      cbv zeta in Hs.
      set (r := ext_cap_walk _ _ _ _ _) in *.
      unfold uint32 in *. rewrite cast_small in * by (change (2 ^ 32) with 4294967296; lia).
      split; [intros _; split; reflexivity|].
      destruct Hs as [H0 | (Hge & header & Hat & [Hc | Hc])]; try contradiction.
      split; [exact Hge|]. exists header. split; assumption.
    + split; [discriminate|].
      unfold xen_host_pci_find_next_cap, find_next_cap_bounded in *.
      destruct (xen_host_pci_get_byte (real_device s) PCI_STATUS) as [status|];
        [|contradiction].
      destruct (Z.land status PCI_STATUS_CAP_LIST =? 0); [contradiction|].
      pose proof (cap_walk_sound CAP_ID_ANY (real_device s) (grp_id g)
                    XEN_HOST_PCI_CAP_MAX Hany (cap_walk_start 0)) as Hs.
      cbv zeta in Hs.
      set (r := fst (cap_walk _ _ _ _ _)) in *.
      destruct Hs as [H0 | [Hr Hid]]; [rewrite H0 in Hnz; contradiction|].
      unfold uint32 in *. rewrite cast_small in * by (change (2 ^ 32) with 4294967296; lia).
      split; assumption.
Qed.

(** X25 on the two-capability device: the Power Management entry gets its
    group at 0x40, where the host's list has id 1. *)
Lemma X25_group_placement_witness :
  stands_on_capability WalkFixtures.two_cap_device
    (grp PCI_CAP_ID_PM XEN_PT_GRP_TYPE_EMU PCI_PM_SIZEOF Size_reg_grp (Some Regs_pm)) 0x40.
Proof.
  apply (proj2 (proj2 (X25_group_placement 0xFFFFFFFF false
                         (Fixtures.state_of WalkFixtures.two_cap_device)
                         (grp PCI_CAP_ID_PM XEN_PT_GRP_TYPE_EMU PCI_PM_SIZEOF Size_reg_grp
                              (Some Regs_pm)) 0x40
                         ltac:(discriminate) ltac:(discriminate)))
           ltac:(discriminate) ltac:(discriminate)).
  vm_compute. reflexivity.
Defined.

(** ** Pointer walks without a bound *)

(** X26: the loops of the two pointer initialisers have no hop bound.  On a
    host list that cycles through capabilities the guest is not shown
    (hardwired or unknown ones), started from a register that points into the
    cycle, neither [xen_pt_ptr_reg_init] nor [xen_pt_ext_cap_ptr_reg_init]
    returns: no number of iterations is enough. *)
Theorem X26_pointer_walks_unbounded s r real_offset P :
  (UnboundedWalkSpec.legacy_cycle_unshown (real_device s) P ->
   forall reg_field,
     xen_host_pci_get_byte (real_device s) real_offset = Some reg_field ->
     P reg_field ->
     forall fuel, xen_pt_ptr_reg_init fuel s r real_offset = None) /\
  (UnboundedWalkSpec.ext_cycle_unshown (real_device s) P ->
   forall reg_field,
     PCI_CONFIG_SPACE_SIZE <= real_offset ->
     xen_host_pci_get_word (real_device s) real_offset = Some reg_field ->
     P (uint16 (Z.shiftr reg_field PCIE_EXT_CAP_NEXT_SHIFT)) ->
     forall fuel, xen_pt_ext_cap_ptr_reg_init fuel s r real_offset = None).
Proof.
  split.
  - intros Hcyc reg_field Hread HP fuel. unfold xen_pt_ptr_reg_init. rewrite Hread.
    clear Hread. revert reg_field HP.
    induction fuel as [|fuel IH]; intros c HP;
      destruct (Hcyc c HP) as (Hnz & Hscan & next & Hnext & HPn); cbn [ptr_walk];
      destruct (Z.eqb_spec c 0); try contradiction; [reflexivity|].
    rewrite Hscan, Hnext. apply IH, HPn.
  - intros Hcyc reg_field Hoff Hread HP fuel. unfold xen_pt_ext_cap_ptr_reg_init.
    destruct (Z.ltb_spec real_offset PCI_CONFIG_SPACE_SIZE); [lia|].
    rewrite Hread. cbv zeta.
    clear Hread.
    generalize (uint16 (Z.land reg_field PCIE_EXT_CAP_VER_MASK)). intros version.
    revert HP. generalize (uint16 (Z.shiftr reg_field PCIE_EXT_CAP_NEXT_SHIFT)).
    induction fuel as [|fuel IH]; intros c HP;
      destruct (Hcyc c HP) as (Hnz & Hend & header & Hh & Hscan & HPn);
      cbn [ext_ptr_walk];
      destruct (Z.eqb_spec c 0); try contradiction;
      destruct (Z.eqb_spec c 0xFFF); try contradiction; cbn [orb]; [reflexivity|].
    rewrite Hh. cbv zeta. rewrite Hscan. apply IH, HPn.
Qed.

(** X26 on the fixture: the Capabilities Pointer register of a device whose
    list loops on a hardwired capability is never initialised. *)
Lemma X26_pointer_walks_witness :
  xen_pt_ptr_reg_init 1000 UnboundedWalkFixtures.hardwired_loop_state reg_cap_ptr 0x34
  = None.
Proof.
  apply (proj1 (X26_pointer_walks_unbounded UnboundedWalkFixtures.hardwired_loop_state
                  reg_cap_ptr 0x34 (fun c => c = 0x40))
           ltac:(intros c ->; split; [discriminate|]; split; [reflexivity|];
                 exists 0x40; split; reflexivity)
           0x40 eq_refl eq_refl 1000%nat).
Defined.

(** ** From attach to the first read *)

Lemma pci_get_word_range c a : 0 <= pci_get_word c a < 2 ^ 16.
Proof.
  apply (get_word_range
           {| vendor_id := 0; device_id := 0; has_pcie_ext_caps := false;
              pcie_flags := 0; config := fun p => Some (c p) |} a).
  reflexivity.
Qed.

Lemma full_emu_read_word s e value :
  emu_mask (reg e) = 0xFFFF ->
  xen_pt_word_reg_read s e value 0xFFFF = (0, pci_get_word (dev_config s) (ptr e)).
Proof.
  intros He. unfold xen_pt_word_reg_read. cbv zeta. rewrite He.
  change (uint16 (Z.land 65535 65535)) with 65535.
  f_equal. unfold uint16.
  pose proof (pci_get_word_range (dev_config s) (ptr e)) as Hr.
  set (w := pci_get_word (dev_config s) (ptr e)) in *.
  apply Z.bits_inj'; intros i Hi.
  rewrite !cast_testbit, merge_testbit, Z.lnot_spec by lia.
  destruct (Z.ltb_spec i 16).
  - change 65535 with (Z.ones 16). rewrite Z.ones_spec_low by lia. reflexivity.
  - rewrite (testbit_above w 16 i Hr) by lia. reflexivity.
Qed.

Lemma id_register_attached fuel val0 s grp_idx g r i id :
  nth_error (reg_grps s) grp_idx = Some g ->
  init r = Some i -> size r = 2 -> emu_mask r = 0xFFFF ->
  run_init i fuel s r (real_offset_of g r) = Some (InitOk id, s) ->
  0 <= id < 2 ^ 16 ->
  xen_host_pci_get_word (real_device s) (real_offset_of g r) <> None ->
  exists s',
    xen_pt_config_reg_init fuel val0 s grp_idx r = Some (RegAdded, s') /\
    forall value,
      xen_pt_word_reg_read s' {| reg := r; ptr := real_offset_of g r |} value 0xFFFF
      = (0, id).
Proof.
  intros Hg Hi Hsz Hemu Hrun Hid Hhost.
  unfold real_offset_of in *.
  unfold xen_pt_config_reg_init. rewrite Hg, Hi, Hrun.
  change (0 <? 0) with false. cbv iota.
  destruct (Z.eqb_spec id XEN_PT_INVALID_REG) as [E|_];
    [unfold XEN_PT_INVALID_REG in E; change (2 ^ 16) with 65536 in Hid; lia|].
  unfold read_host_val. rewrite Hsz. cbn [Z.eqb Pos.eqb].
  destruct (xen_host_pci_get_word (real_device s) _) as [v|]; [|contradiction].
  assert (Hmask : reg_host_mask r = 0).
  { unfold reg_host_mask, reg_size_mask. rewrite Hsz, Hemu. reflexivity. }
  assert (Hmis : forall val, reg_sync_mismatch r id val = false).
  { intros val. unfold reg_sync_mismatch. rewrite Hmask, !Z.land_0_r. reflexivity. }
  assert (Hval : forall val, reg_sync_value r id val = id).
  { intros val. unfold reg_sync_value. rewrite Hmis. reflexivity. }
  rewrite Hmis, Hval.
  assert (Hfit : truthy (Z.land id (not32 (reg_size_mask r))) = false).
  { unfold reg_size_mask. rewrite Hsz.
    change (not32 (uint32 (Z.shiftr 4294967295 (Z.shiftl (4 - 2) 3)))) with 0xFFFF0000.
    replace (Z.land id 0xFFFF0000) with 0; [reflexivity|].
    symmetry. apply Z.bits_inj'; intros k Hk. rewrite Z.land_spec, Z.bits_0.
    destruct (Z.ltb_spec k 16).
    - replace (Z.testbit 0xFFFF0000 k) with false; [apply andb_false_r|].
      change 0xFFFF0000 with (Z.shiftl 0xFFFF 16). rewrite Z.shiftl_spec_low by lia.
      reflexivity.
    - rewrite (testbit_above id 16 k Hid) by lia. reflexivity. }
  rewrite Hfit. eexists. split; [reflexivity|].
  intros value. rewrite full_emu_read_word by exact Hemu.
  cbn [ptr dev_config set_reg_grps]. unfold write_dev_config. rewrite Hsz.
  cbn [Z.eqb Pos.eqb dev_config set_dev_config].
  rewrite get_set_word. unfold uint16. rewrite cast_idem by lia.
  rewrite cast_small by (lia || exact Hid). reflexivity.
Qed.

(** X27: what the guest reads as Vendor ID and Device ID.  When attach
    initialises either register (ids of 16 bits, host register readable), the
    register is added, and from then on a guest read of it returns the id
    that [xen_host_pci_device_get] stored in the host device record, whatever
    value the device itself returns for the register. *)
Theorem X27_ids_read_from_device_record fuel val0 s grp_idx g :
  nth_error (reg_grps s) grp_idx = Some g ->
  (0 <= vendor_id (real_device s) < 2 ^ 16 ->
   xen_host_pci_get_word (real_device s) (real_offset_of g reg_vendor_id) <> None ->
   exists s',
     xen_pt_config_reg_init fuel val0 s grp_idx reg_vendor_id = Some (RegAdded, s') /\
     forall value,
       xen_pt_word_reg_read s'
         {| reg := reg_vendor_id; ptr := real_offset_of g reg_vendor_id |} value 0xFFFF
       = (0, vendor_id (real_device s))) /\
  (0 <= device_id (real_device s) < 2 ^ 16 ->
   xen_host_pci_get_word (real_device s) (real_offset_of g reg_device_id) <> None ->
   exists s',
     xen_pt_config_reg_init fuel val0 s grp_idx reg_device_id = Some (RegAdded, s') /\
     forall value,
       xen_pt_word_reg_read s'
         {| reg := reg_device_id; ptr := real_offset_of g reg_device_id |} value 0xFFFF
       = (0, device_id (real_device s))).
Proof.
  intros Hg. split; intros Hid Hhost.
  - apply (id_register_attached fuel val0 s grp_idx g reg_vendor_id Init_vendor
             (vendor_id (real_device s)) Hg eq_refl eq_refl eq_refl eq_refl Hid Hhost).
  - apply (id_register_attached fuel val0 s grp_idx g reg_device_id Init_device
             (device_id (real_device s)) Hg eq_refl eq_refl eq_refl eq_refl Hid Hhost).
Qed.

(** X27 on the Header group of the fixture, whose sysfs vendor id is 0x1AF4:
    the guest reads 0x1AF4 although the device answers 0xFFFF. *)
Lemma X27_ids_witness :
  exists s',
    xen_pt_config_reg_init 48 0 AttachFixtures.header_created 0 reg_vendor_id
    = Some (RegAdded, s') /\
    xen_pt_word_reg_read s' {| reg := reg_vendor_id; ptr := 0 |} 0xFFFF 0xFFFF
    = (0, 0x1AF4).
Proof.
  destruct (proj1 (X27_ids_read_from_device_record 48 0 AttachFixtures.header_created 0
                     {| reg_grp := Fixtures.header_grp; base_offset := 0; grp_sz := 0x40;
                        reg_tbl_list := [] |} eq_refl))
    as (s' & Hadd & Hread).
  - vm_compute. split; [discriminate | reflexivity].
  - discriminate.
  - exists s'. split; [exact Hadd | apply (Hread 0xFFFF)].
Defined.

(** ** Enabling and disabling MSI *)

Lemma enable_truthy v : truthy (Z.land v PCI_MSI_FLAGS_ENABLE) = Z.testbit v 0.
Proof. apply (truthy_land_pow2 v 0). lia. Qed.

Lemma msgctrl_emulate_mapped s e val dev_value valid_mask :
  mapped (msi (snd (msgctrl_emulate s e val dev_value valid_mask))) = mapped (msi s).
Proof.
  unfold msgctrl_emulate. cbn [snd].
  destruct (truthy (Z.land val PCI_MSI_FLAGS_QSIZE)); reflexivity.
Qed.

(** X28: the other paths of a guest write to Message Control, with [v] the
    value created for the device.  The first write that forwards the enable
    bit with a backend whose setup and bind steps both succeed marks the MSI
    initialised and mapped, records the enable flag and forwards [v]
    unchanged.  Once the MSI is initialised, forwarding the enable bit again
    calls no backend function: only the enable flag is recorded.  A write
    that forwards the enable bit clear calls the backend's disable step
    exactly when the MSI is mapped, and nothing otherwise. *)
Theorem X28_msi_enable_and_disable setup update disable s p val dev_value valid_mask :
  let e := {| reg := reg_msi_msgctrl; ptr := p |} in
  let v := fst (msgctrl_emulate s e val dev_value valid_mask) in
  let s1 := snd (msgctrl_emulate s e val dev_value valid_mask) in
  let r := xen_pt_msgctrl_reg_write setup update disable s e val dev_value valid_mask in
  (Z.testbit v 0 = true -> initialized (msi s) = false ->
   fst (setup (XEN_PT_LOG "setup MSI" s1)) = 0 ->
   fst (update (snd (setup (XEN_PT_LOG "setup MSI" s1)))) = 0 ->
   fst r = (0, v) /\
   initialized (msi (snd r)) = true /\ mapped (msi (snd r)) = true /\
   Z.testbit (flags (msi (snd r))) 0 = true) /\
  (Z.testbit v 0 = true -> initialized (msi s) = true ->
   r = (0, v, set_msi_flags s1 (uint32 (Z.lor (flags (msi s1)) PCI_MSI_FLAGS_ENABLE)))) /\
  (Z.testbit v 0 = false ->
   r = (0, v, if mapped (msi s) then disable s1 else s1)).
Proof.
  cbv zeta. unfold xen_pt_msgctrl_reg_write.
  pose proof (msgctrl_emulate_initialized s {| reg := reg_msi_msgctrl; ptr := p |}
                val dev_value valid_mask) as Hinit.
  pose proof (msgctrl_emulate_mapped s {| reg := reg_msi_msgctrl; ptr := p |}
                val dev_value valid_mask) as Hmap.
  destruct (msgctrl_emulate s {| reg := reg_msi_msgctrl; ptr := p |} val dev_value
              valid_mask) as [v s1].
  cbn [fst snd] in *. unfold msgctrl_update_msi. rewrite enable_truthy.
  split; [|split].
  - intros Hv Hi Hsetup Hupdate. rewrite Hv, Hinit, Hi. cbn [negb].
    destruct (setup (XEN_PT_LOG "setup MSI" s1)) as [rc s2]. cbn [fst snd] in *.
    subst rc. cbn [truthy Z.eqb negb].
    destruct (update s2) as [rc' s3]. cbn [fst] in Hupdate. subst rc'.
    cbn [truthy Z.eqb negb fst snd].
    split; [reflexivity|]. split; [reflexivity|]. split; [reflexivity|].
    cbn [set_msi_flags set_msi_mapped set_msi msi flags].
    unfold uint32. rewrite cast_testbit, Z.lor_spec by lia.
    change (Z.testbit PCI_MSI_FLAGS_ENABLE 0) with true. rewrite orb_true_r. reflexivity.
  - intros Hv Hi. rewrite Hv, Hinit, Hi. reflexivity.
  - intros Hv. rewrite Hv, Hmap. destruct (mapped (msi s)); reflexivity.
Qed.

(** X28 on the fixture, with a backend that succeeds: the guest enables MSI
    and the record ends up initialised and mapped. *)
Lemma X28_msi_enable_witness :
  let r := xen_pt_msgctrl_reg_write MsiFixtures.ok_update MsiFixtures.ok_update
             MsiFixtures.no_disable MsiFixtures.msi_created
             {| reg := reg_msi_msgctrl; ptr := 0x52 |} 0x0001 0x0000 0xFFFF in
  initialized (msi (snd r)) = true /\ mapped (msi (snd r)) = true.
Proof.
  intros r.
  destruct (proj1 (X28_msi_enable_and_disable MsiFixtures.ok_update MsiFixtures.ok_update
                     MsiFixtures.no_disable MsiFixtures.msi_created 0x52 0x0001 0x0000
                     0xFFFF) eq_refl eq_refl eq_refl eq_refl) as (_ & Hi & Hm & _).
  split; [exact Hi | exact Hm].
Defined.

(** ** Looking up groups and registers *)

Lemma find_first_such {A} (f : A -> bool) (P : A -> Prop) (l : list A) :
  (forall x, f x = true <-> P x) ->
  (forall x, find f l = Some x -> LookupSpec.first_such P l x) /\
  (find f l = None <-> forall x, In x l -> ~ P x).
Proof.
  intros Hf. induction l as [|a l [IH1 IH2]]; cbn [find].
  - split; [discriminate|]. split; [intros _ x [] | reflexivity].
  - destruct (f a) eqn:E.
    + split.
      * intros x H. injection H as <-. exists [], l.
        split; [reflexivity|]. split; [apply Hf, E | intros y []].
      * split; [discriminate|]. intros H. exfalso.
        apply (H a); [left; reflexivity | apply Hf, E].
    + assert (Hna : ~ P a) by (intros HP; apply Hf in HP; congruence).
      split.
      * intros x H. destruct (IH1 x H) as (before & after & -> & HP & Hb).
        exists (a :: before), after. split; [reflexivity|]. split; [exact HP|].
        intros y [<- | Hy]; [exact Hna | apply Hb, Hy].
      * split.
        -- intros H x [<- | Hx]; [exact Hna | apply IH2; assumption].
        -- intros H. apply IH2. intros x Hx. apply H. right. exact Hx.
Qed.

(** X29: the two lookups by address.  [xen_pt_find_reg_grp] returns the
    first group of the list, which is the one created last, that covers the
    address, and nothing exactly when no group of the state covers it;
    [xen_pt_find_reg] does the same for the registers of a group. *)
Theorem X29_lookup_by_address s address :
  (forall g, xen_pt_find_reg_grp s address = Some g ->
             LookupSpec.first_such (fun g => LookupSpec.grp_covers g address)
               (reg_grps s) g) /\
  (xen_pt_find_reg_grp s address = None <->
   forall g, In g (reg_grps s) -> ~ LookupSpec.grp_covers g address) /\
  (forall g e, xen_pt_find_reg g address = Some e ->
               LookupSpec.first_such (fun e => LookupSpec.reg_covers g e address)
                 (reg_tbl_list g) e) /\
  (forall g, xen_pt_find_reg g address = None <->
             forall e, In e (reg_tbl_list g) -> ~ LookupSpec.reg_covers g e address).
Proof.
  assert (Hg : forall g,
             (base_offset g <=? address) && (address <? uint32 (base_offset g + grp_sz g))
             = true <-> LookupSpec.grp_covers g address).
  { intros g. unfold LookupSpec.grp_covers.
    rewrite andb_true_iff, Z.leb_le, Z.ltb_lt. reflexivity. }
  assert (He : forall g e,
             (let real_offset := uint32 (base_offset g + offset (reg e)) in
              (real_offset <=? address) && (address <? uint32 (real_offset + size (reg e))))
             = true <-> LookupSpec.reg_covers g e address).
  { intros g e. unfold LookupSpec.reg_covers. cbv zeta.
    rewrite andb_true_iff, Z.leb_le, Z.ltb_lt. reflexivity. }
  unfold xen_pt_find_reg_grp, xen_pt_find_reg.
  split; [|split; [|split]].
  - apply (find_first_such _ _ (reg_grps s) Hg).
  - apply (find_first_such _ _ (reg_grps s) Hg).
  - intros g. apply (find_first_such _ _ (reg_tbl_list g) (He g)).
  - intros g. apply (find_first_such _ _ (reg_tbl_list g) (He g)).
Qed.

(** X29 on the fixture: address 0x50 is outside the Header group, the only
    group of the state, and the lookup finds nothing. *)
Lemma X29_lookup_witness :
  xen_pt_find_reg_grp AttachFixtures.header_created 0x50 = None.
Proof.
  apply (proj2 (proj1 (proj2 (X29_lookup_by_address AttachFixtures.header_created 0x50)))).
  intros g [<- | []]. unfold LookupSpec.grp_covers. cbn [base_offset grp_sz].
  change (uint32 (0 + 64)) with 64. lia.
Defined.

(** ** Capability ids of the extended headers *)

(** X30: a fake capability id is used for a hidden list head only.  For a
    register that does not lie in a hardwired group based at 0x100, the id
    initialiser yields the id word of the host device and leaves the state,
    the fake-id counter included, as it was; a failed host read is reported
    and changes nothing either. *)
Theorem X30_real_id_unless_hidden_head s reg real_offset :
  ~ HideSpec.hidden_list_head s real_offset ->
  xen_pt_ext_cap_capid_reg_init s reg real_offset =
  (match xen_host_pci_get_word (real_device s) real_offset with
   | Some reg_field => InitOk reg_field
   | None => InitErr (- EIO)
   end, s).
Proof.
  intros Hnot. unfold xen_pt_ext_cap_capid_reg_init.
  destruct (xen_host_pci_get_word (real_device s) real_offset) as [v|]; [|reflexivity].
  destruct (xen_pt_find_reg_grp s real_offset) as [g|] eqn:Hg; [|reflexivity].
  destruct (grp_type_eqb (grp_type (reg_grp g)) XEN_PT_GRP_TYPE_HARDWIRED) eqn:Ht;
    [|reflexivity].
  destruct (Z.eqb_spec (base_offset g) PCI_CONFIG_SPACE_SIZE) as [Hb|]; [|reflexivity].
  exfalso. apply Hnot. exists g. split; [exact Hg|]. split; [|exact Hb].
  destruct (grp_type (reg_grp g)); [reflexivity | discriminate].
Qed.

(** X30 on the fixture: with no group created yet, the id register at 0x100
    is initialised with the host's id. *)
Lemma X30_real_id_witness :
  xen_pt_ext_cap_capid_reg_init SizeFixtures.ext_state HideFixtures.capid_reg 0x100 =
  (match xen_host_pci_get_word SizeFixtures.ext_device 0x100 with
   | Some reg_field => InitOk reg_field
   | None => InitErr (- EIO)
   end, SizeFixtures.ext_state).
Proof.
  apply (X30_real_id_unless_hidden_head SizeFixtures.ext_state HideFixtures.capid_reg 0x100).
  intros (g & Hg & _). discriminate Hg.
Defined.
